(** * NoteVault: the storage layer (server/storage.ts, server/database.ts,
      shared/schema.ts) as a shallow embedding.

    Conventions of the model.
    - A JavaScript string / SQLite TEXT value is a [string]; a character is
      one code point in the range U+0000..U+00FF.
    - A [Date] is a [Z], milliseconds since the epoch.  A column declared
      [integer(..., { mode: "timestamp" })] holds whole seconds.
    - [randomUUID()] and [new Date()] are inputs of the operation that calls
      them.
    - The two tables are lists of rows in rowid order: INSERT appends,
      UPDATE rewrites in place, DELETE filters.
    - A repository method is a function [Db -> Db * res A]: it returns the
      database it leaves behind together with a value or a thrown fault.
    - SQLite and drizzle-orm behave as documented: PRIMARY KEY on INSERT,
      the foreign key of notes.category_id with [foreign_keys = ON] and
      ON DELETE CASCADE, LIKE without an ESCAPE clause and with its ASCII-only
      case folding, the json and timestamp column codecs, and the refusal of
      an UPDATE whose SET clause is empty.  A TEXT value may hold the
      character U+0000: the engine compares it like any other character,
      except in LIKE, which reads pattern and text as C strings.  LIKE refuses
      a pattern of more than 50000 bytes.  The engine's limit on the length of
      a value (10^9 bytes) is not part of the model. *)

From Stdlib Require Import ZArith Ascii String List Permutation Sorted Lia.
From stdpp Require Import gmap strings list fin_maps sorting.

Local Open Scope string_scope.
Local Open Scope Z_scope.

(** ** Characters and case *)

Module Char.

Definition code (c : ascii) : N := N_of_ascii c.

(** ASCII upper-case letters, the only ones SQLite folds. *)
Definition is_ascii_upper (c : ascii) : bool :=
  ((65 <=? code c) && (code c <=? 90))%N.

Definition ascii_lower (c : ascii) : ascii :=
  if is_ascii_upper c then ascii_of_N (code c + 32) else c.

(** Upper-case letters of U+00C0..U+00DE (the multiplication sign U+00D7
    is not a letter). *)
Definition is_latin1_upper (c : ascii) : bool :=
  ((192 <=? code c) && (code c <=? 222) && negb (code c =? 215))%N.

(** [String.prototype.toLowerCase] on one character. *)
Definition toLowerCase (c : ascii) : ascii :=
  if is_ascii_upper c || is_latin1_upper c
  then ascii_of_N (code c + 32) else c.

(** Character comparison of SQLite's LIKE: equal up to ASCII case. *)
Definition like_eqb (c d : ascii) : bool :=
  Ascii.eqb (ascii_lower c) (ascii_lower d).

End Char.

(** [String.prototype.toLowerCase]. *)
Fixpoint toLowerCase (s : string) : string :=
  match s with
  | EmptyString => EmptyString
  | String c s' => String (Char.toLowerCase c) (toLowerCase s')
  end.

(** JavaScript truthiness of an optional string argument: [undefined] and
    the empty string are falsy. *)
Definition truthy (o : option string) : option string :=
  match o with
  | Some EmptyString => None
  | other => other
  end.

(** ** SQLite's LIKE operator

    [likeFunc] of SQLite's func.c takes pattern and text as NUL-terminated
    strings ([sqlite3_value_text]) and hands them to [patternCompare]: both
    end at their first U+0000. *)

Definition NUL : ascii := "000".

(** The C string a TEXT value is read as: its characters up to the first
    U+0000. *)
Fixpoint c_str (s : string) : string :=
  match s with
  | EmptyString => EmptyString
  | String c s' => if Ascii.eqb c NUL then EmptyString else String c (c_str s')
  end.

(** [patternCompare] with no ESCAPE character, on C strings: a percent sign
    matches any run of characters, an underscore exactly one character, every
    other character itself up to ASCII case. *)
Fixpoint patternCompare (pat s : string) {struct pat} : bool :=
  match pat with
  | EmptyString => match s with EmptyString => true | _ => false end
  | String "%" pat' =>
      (fix skip (t : string) : bool :=
         patternCompare pat' t
         || match t with
            | EmptyString => false
            | String _ t' => skip t'
            end) s
  | String "_" pat' =>
      match s with
      | EmptyString => false
      | String _ s' => patternCompare pat' s'
      end
  | String c pat' =>
      match s with
      | EmptyString => false
      | String d s' => Char.like_eqb c d && patternCompare pat' s'
      end
  end.

(** [like_match pat s] is the value of [s LIKE pat]. *)
Definition like_match (pat s : string) : bool :=
  patternCompare (c_str pat) (c_str s).

(** The length of a TEXT value in bytes: the model's characters take one
    byte of UTF-8 up to U+007F and two from U+0080 on. *)
Fixpoint utf8_length (s : string) : N :=
  match s with
  | EmptyString => 0%N
  | String c s' => ((if (Char.code c <? 128)%N then 1 else 2) + utf8_length s')%N
  end.

Definition SQLITE_MAX_LIKE_PATTERN_LENGTH : N := 50000.

(** [likeFunc] looks at the length of the whole pattern before it matches,
    and raises 'LIKE or GLOB pattern too complex' when it is over the
    limit. *)
Definition like_refused (pat : string) : bool :=
  (SQLITE_MAX_LIKE_PATTERN_LENGTH <? utf8_length pat)%N.

(** drizzle's [like(column, `%${searchLower}%`)]. *)
Definition like_contains (searchLower field : string) : bool :=
  like_match ("%" +:+ searchLower +:+ "%") field.

Example like_plain : like_contains "foo" "a FoO b" = true.
Proof. reflexivity. Qed.

Example like_underscore : like_contains "a_c" "xabcx" = true.
Proof. reflexivity. Qed.

Example like_latin1 :
  like_contains (toLowerCase (String (ascii_of_N 201) "")) (String (ascii_of_N 201) "") = false.
Proof. reflexivity. Qed.

(** A U+0000 ends the pattern, so the search U+0000 asks for [LIKE '%']; and
    it ends the text, so what follows it in a field is not searched. *)
Example like_nul_pattern : like_contains (String NUL "") "abc" = true.
Proof. reflexivity. Qed.

Example like_nul_text :
  like_contains "b" (String "a" (String NUL "b")) = false
  /\ like_contains "a" (String "a" (String NUL "b")) = true.
Proof. split; reflexivity. Qed.

(** ** JSON.stringify and JSON.parse on strings and arrays of strings

    The tags column only ever carries these two shapes of JSON text: an
    array of strings, and (because the column is declared with
    [{ mode: "json" }] and the repository stringifies once more itself) the
    string literal that quotes such an array. *)

Module JSON.

Inductive value : Type :=
| Str (s : string)
| Arr (xs : list string).

Definition dquote : ascii := "034".
Definition backslash : ascii := "092".

Definition hex_digit (n : N) : ascii :=
  if (n <? 10)%N then ascii_of_N (48 + n) else ascii_of_N (87 + n).

(** QuoteJSONString, one character. *)
Definition quote_char (c : ascii) : string :=
  let n := Char.code c in
  if (n =? 34)%N then String backslash (String dquote "")
  else if (n =? 92)%N then String backslash (String backslash "")
  else if (n =? 8)%N then String backslash "b"
  else if (n =? 9)%N then String backslash "t"
  else if (n =? 10)%N then String backslash "n"
  else if (n =? 12)%N then String backslash "f"
  else if (n =? 13)%N then String backslash "r"
  else if (n <? 32)%N
       then String backslash
              (String "u" (String "0" (String "0"
                (String (hex_digit (n / 16)) (String (hex_digit (n mod 16)) "")))))
  else String c "".

Fixpoint quote_body (s : string) : string :=
  match s with
  | EmptyString => EmptyString
  | String c s' => quote_char c +:+ quote_body s'
  end.

Definition quote (s : string) : string :=
  String dquote (quote_body s +:+ String dquote "").

Fixpoint join_quoted (xs : list string) : string :=
  match xs with
  | [] => ""
  | [x] => quote x
  | x :: xs' => quote x +:+ "," +:+ join_quoted xs'
  end.

Definition stringify (v : value) : string :=
  match v with
  | Str s => quote s
  | Arr xs => "[" +:+ join_quoted xs +:+ "]"
  end.

(** *** Parsing *)

Definition is_ws (c : ascii) : bool :=
  let n := Char.code c in
  ((n =? 32) || (n =? 9) || (n =? 10) || (n =? 13))%N.

Fixpoint skip_ws (s : string) : string :=
  match s with
  | String c s' => if is_ws c then skip_ws s' else s
  | EmptyString => EmptyString
  end.

Definition hex_value (c : ascii) : option N :=
  let n := Char.code c in
  if ((48 <=? n) && (n <=? 57))%N then Some (n - 48)%N
  else if ((97 <=? n) && (n <=? 102))%N then Some (n - 87)%N
  else if ((65 <=? n) && (n <=? 70))%N then Some (n - 55)%N
  else None.

Definition hex4 (a b c d : ascii) : option N :=
  match hex_value a, hex_value b, hex_value c, hex_value d with
  | Some x, Some y, Some z, Some w => Some (((x * 16 + y) * 16 + z) * 16 + w)%N
  | _, _, _, _ => None
  end.

(** The character a two-character escape stands for. *)
Definition unescape (e : ascii) : option ascii :=
  let n := Char.code e in
  if (n =? 34)%N then Some dquote
  else if (n =? 92)%N then Some backslash
  else if (n =? 47)%N then Some "/"%char
  else if (n =? 98)%N then Some "008"%char
  else if (n =? 102)%N then Some "012"%char
  else if (n =? 110)%N then Some "010"%char
  else if (n =? 114)%N then Some "013"%char
  else if (n =? 116)%N then Some "009"%char
  else None.

Definition prepend (c : ascii) (r : option (string * string)) : option (string * string) :=
  match r with
  | Some (s, rest) => Some (String c s, rest)
  | None => None
  end.

(** The characters of a string literal, read after its opening quote up to
    and including the closing one; returns the decoded string and what
    follows.  A [\uXXXX] escape above U+00FF has no character in this
    model and is refused. *)
Fixpoint parse_chars (s : string) : option (string * string) :=
  match s with
  | EmptyString => None
  | String c rest =>
      if (Char.code c =? 34)%N then Some (EmptyString, rest)
      else if (Char.code c =? 92)%N then
        match rest with
        | EmptyString => None
        | String e rest1 =>
            if (Char.code e =? 117)%N then
              match rest1 with
              | String h1 (String h2 (String h3 (String h4 rest2))) =>
                  match hex4 h1 h2 h3 h4 with
                  | Some n =>
                      if (n <? 256)%N
                      then prepend (ascii_of_N n) (parse_chars rest2)
                      else None
                  | None => None
                  end
              | _ => None
              end
            else
              match unescape e with
              | Some d => prepend d (parse_chars rest1)
              | None => None
              end
        end
      else if (Char.code c <? 32)%N then None
      else prepend c (parse_chars rest)
  end.

(** The elements of a non-empty array, read after the opening bracket (or
    after a comma) up to and including the closing bracket.  Every element
    consumes at least two characters, so fuel equal to the length of the
    text never runs out. *)
Fixpoint parse_elems (fuel : nat) (s : string) : option (list string * string) :=
  match fuel with
  | O => None
  | S fuel' =>
      match skip_ws s with
      | String c rest =>
          if (Char.code c =? 34)%N then
            match parse_chars rest with
            | Some (x, rest1) =>
                match skip_ws rest1 with
                | String d rest2 =>
                    if (Char.code d =? 44)%N then
                      match parse_elems fuel' rest2 with
                      | Some (xs, rest3) => Some (x :: xs, rest3)
                      | None => None
                      end
                    else if (Char.code d =? 93)%N then Some ([x], rest2)
                    else None
                | EmptyString => None
                end
            | None => None
            end
          else None
      | EmptyString => None
      end
  end.

Definition at_end (s : string) : bool :=
  match skip_ws s with EmptyString => true | _ => false end.

(** [JSON.parse]; [None] is a thrown SyntaxError (or a JSON text that is
    neither a string nor an array of strings). *)
Definition parse (s : string) : option value :=
  match skip_ws s with
  | String c rest =>
      if (Char.code c =? 34)%N then
        match parse_chars rest with
        | Some (x, rest1) => if at_end rest1 then Some (Str x) else None
        | None => None
        end
      else if (Char.code c =? 91)%N then
        match skip_ws rest with
        | String d rest1 =>
            if (Char.code d =? 93)%N
            then (if at_end rest1 then Some (Arr []) else None)
            else match parse_elems (String.length rest) rest with
                 | Some (xs, rest2) => if at_end rest2 then Some (Arr xs) else None
                 | None => None
                 end
        | EmptyString => None
        end
      else None
  | EmptyString => None
  end.

End JSON.

Example stringify_tags : JSON.stringify (JSON.Arr ["a"; "b"]) = "[" +:+ String "034" "a" +:+ String "034" "," +:+ String "034" "b" +:+ String "034" "]".
Proof. reflexivity. Qed.

Example parse_tags : JSON.parse (JSON.stringify (JSON.Arr ["a"; "b"])) = Some (JSON.Arr ["a"; "b"]).
Proof. reflexivity. Qed.

Example parse_twice :
  JSON.parse (JSON.stringify (JSON.Str (JSON.stringify (JSON.Arr ["x y"; ""]))))
  = Some (JSON.Str (JSON.stringify (JSON.Arr ["x y"; ""]))).
Proof. reflexivity. Qed.

Example parse_spaced : JSON.parse (" [ " +:+ JSON.quote "a" +:+ " , " +:+ JSON.quote "b" +:+ " ] ") = Some (JSON.Arr ["a"; "b"]).
Proof. reflexivity. Qed.

(** ** Outcomes of a repository call *)

Inductive fault : Type :=
| UniqueConstraint      (* SQLite: PRIMARY KEY violated by an INSERT *)
| ForeignKeyConstraint  (* SQLite: notes.category_id has no parent row *)
| NoValuesToSet         (* drizzle: update(...).set({}) *)
| SyntaxError           (* JSON.parse *)
| LikePatternTooComplex (* SQLite: LIKE with a pattern of more than 50000 bytes *)
| TypeError             (* JavaScript: a method called on a value that has none *)
| TagsNotAnArray.       (* the decoded tags value is not a string[]: JavaScript
                           would carry it on untyped, the typed model stops *)

Inductive res (A : Type) : Type :=
| Ok (a : A)
| Throw (e : fault).
Arguments Ok {A} a.
Arguments Throw {A} e.

(** ** The two tables (shared/schema.ts, server/database.ts) *)

Record CategoryRow : Type := {
  crow_id : string;          (* id TEXT PRIMARY KEY *)
  crow_name : string;
  crow_color : string;
  crow_created_at : Z        (* seconds *)
}.

Record NoteRow : Type := {
  nrow_id : string;          (* id TEXT PRIMARY KEY *)
  nrow_title : string;
  nrow_content : string;
  nrow_category_id : string; (* REFERENCES categories(id) ON DELETE CASCADE *)
  nrow_tags : string;        (* JSON text *)
  nrow_created_at : Z;       (* seconds *)
  nrow_updated_at : Z        (* seconds *)
}.

Record Db : Type := {
  categories : list CategoryRow;
  notes : list NoteRow
}.

Definition empty_db : Db := {| categories := []; notes := [] |}.

(** ** The records the repository hands out *)

Record Category : Type := {
  cat_id : string;
  cat_name : string;
  cat_color : string;
  cat_createdAt : Z          (* milliseconds *)
}.

Record Note : Type := {
  note_id : string;
  note_title : string;
  note_content : string;
  note_categoryId : string;
  note_tags : list string;
  note_createdAt : Z;        (* milliseconds *)
  note_updatedAt : Z         (* milliseconds *)
}.

Record InsertCategory : Type := {
  ic_name : string;
  ic_color : option string
}.

Record InsertNote : Type := {
  in_title : string;
  in_content : option string;
  in_categoryId : string;
  in_tags : option (list string)
}.

(** [Partial<InsertCategory>] and [UpdateNote]: a key is present or absent. *)
Record PartialCategory : Type := {
  pc_name : option string;
  pc_color : option string
}.

Record UpdateNote : Type := {
  un_title : option string;
  un_content : option string;
  un_categoryId : option string;
  un_tags : option (list string)
}.

(** ** drizzle's column codecs *)

(** [integer(..., { mode: "timestamp" })]. *)
Definition timestamp_toDriver (ms : Z) : Z := ms / 1000.
Definition timestamp_fromDriver (sec : Z) : Z := sec * 1000.

(** [text("tags", { mode: "json" })] on the way in; the repository passes it
    [JSON.stringify(tags)], so what reaches the table is quoted twice. *)
Definition json_toDriver (v : JSON.value) : string := JSON.stringify v.

Definition tags_toDriver (tags : list string) : string :=
  json_toDriver (JSON.Str (JSON.stringify (JSON.Arr tags))).

(** On the way out: the codec's [JSON.parse], then the repository's
    [typeof tags === 'string' ? JSON.parse(tags) : tags]. *)
Definition tags_fromDriver (text : string) : res (list string) :=
  match JSON.parse text with
  | None => Throw SyntaxError
  | Some (JSON.Arr xs) => Ok xs
  | Some (JSON.Str s) =>
      match JSON.parse s with
      | None => Throw SyntaxError
      | Some (JSON.Arr xs) => Ok xs
      | Some (JSON.Str _) => Throw TagsNotAnArray
      end
  end.

Definition category_fromDriver (r : CategoryRow) : Category :=
  {| cat_id := crow_id r; cat_name := crow_name r; cat_color := crow_color r;
     cat_createdAt := timestamp_fromDriver (crow_created_at r) |}.

Definition category_toDriver (c : Category) : CategoryRow :=
  {| crow_id := cat_id c; crow_name := cat_name c; crow_color := cat_color c;
     crow_created_at := timestamp_toDriver (cat_createdAt c) |}.

Definition note_fromDriver (r : NoteRow) : res Note :=
  match tags_fromDriver (nrow_tags r) with
  | Ok tags =>
      Ok {| note_id := nrow_id r; note_title := nrow_title r;
            note_content := nrow_content r;
            note_categoryId := nrow_category_id r;
            note_tags := tags;
            note_createdAt := timestamp_fromDriver (nrow_created_at r);
            note_updatedAt := timestamp_fromDriver (nrow_updated_at r) |}
  | Throw e => Throw e
  end.

(** Rows of a result set, decoded in order; the first fault aborts. *)
Fixpoint notes_fromDriver (rows : list NoteRow) : res (list Note) :=
  match rows with
  | [] => Ok []
  | r :: rows' =>
      match note_fromDriver r with
      | Throw e => Throw e
      | Ok n =>
          match notes_fromDriver rows' with
          | Throw e => Throw e
          | Ok ns => Ok (n :: ns)
          end
      end
  end.

(** ** The repository monad *)

Definition M (A : Type) : Type := Db -> Db * res A.

Definition ret {A} (a : A) : M A := fun db => (db, Ok a).
Definition bind {A B} (m : M A) (k : A -> M B) : M B :=
  fun db =>
    match m db with
    | (db', Ok a) => k a db'
    | (db', Throw e) => (db', Throw e)
    end.
Definition lift {A} (r : res A) : M A := fun db => (db, r).
Definition read {A} (f : Db -> A) : M A := fun db => (db, Ok (f db)).

Notation "x <~ m ; k" := (bind m (fun x => k))
  (at level 20, m at level 100, k at level 200, only parsing).
Notation "m ;> k" := (bind m (fun _ => k))
  (at level 100, k at level 200, only parsing, right associativity).

(** ** SQL statements *)

Definition has_category (id : string) (db : Db) : bool :=
  existsb (fun c => String.eqb (crow_id c) id) (categories db).

Definition has_note (id : string) (db : Db) : bool :=
  existsb (fun n => String.eqb (nrow_id n) id) (notes db).

(** ORDER BY an integer column, ascending. *)
Definition by_created_at (a b : CategoryRow) : Prop :=
  crow_created_at a <= crow_created_at b.
Definition by_updated_at (a b : NoteRow) : Prop :=
  nrow_updated_at a <= nrow_updated_at b.

#[global] Instance by_created_at_dec : RelDecision by_created_at.
Proof. intros a b. unfold by_created_at. apply Z.le_dec. Defined.
#[global] Instance by_updated_at_dec : RelDecision by_updated_at.
Proof. intros a b. unfold by_updated_at. apply Z.le_dec. Defined.

(** INSERT INTO categories. *)
Definition insert_category (r : CategoryRow) : M unit := fun db =>
  if has_category (crow_id r) db then (db, Throw UniqueConstraint)
  else ({| categories := categories db ++ [r]; notes := notes db |}, Ok tt).

(** INSERT INTO notes, with [foreign_keys = ON]. *)
Definition insert_note (r : NoteRow) : M unit := fun db =>
  if has_note (nrow_id r) db then (db, Throw UniqueConstraint)
  else if negb (has_category (nrow_category_id r) db)
       then (db, Throw ForeignKeyConstraint)
  else ({| categories := categories db; notes := notes db ++ [r] |}, Ok tt).

(** The SET clause drizzle builds from the keys that are present. *)
Definition set_category (u : PartialCategory) (r : CategoryRow) : CategoryRow :=
  {| crow_id := crow_id r;
     crow_name := default (crow_name r) (pc_name u);
     crow_color := default (crow_color r) (pc_color u);
     crow_created_at := crow_created_at r |}.

Definition partial_category_is_empty (u : PartialCategory) : bool :=
  match pc_name u, pc_color u with
  | None, None => true
  | _, _ => false
  end.

(** [db.update(categories).set(u).where(eq(categories.id, id)).run()];
    drizzle refuses a SET clause with no column. *)
Definition update_category_where_id (id : string) (u : PartialCategory) : M unit := fun db =>
  if partial_category_is_empty u then (db, Throw NoValuesToSet)
  else ({| categories :=
             map (fun r => if String.eqb (crow_id r) id then set_category u r else r)
                 (categories db);
           notes := notes db |}, Ok tt).

(** The object [updateForDb] of updateNote, as it reaches the table. *)
Record NoteSet : Type := {
  ns_updated_at : Z;
  ns_title : option string;
  ns_content : option string;
  ns_category_id : option string;
  ns_tags : option string
}.

Definition set_note (u : NoteSet) (r : NoteRow) : NoteRow :=
  {| nrow_id := nrow_id r;
     nrow_title := default (nrow_title r) (ns_title u);
     nrow_content := default (nrow_content r) (ns_content u);
     nrow_category_id := default (nrow_category_id r) (ns_category_id u);
     nrow_tags := default (nrow_tags r) (ns_tags u);
     nrow_created_at := nrow_created_at r;
     nrow_updated_at := ns_updated_at u |}.

(** [db.update(notes).set(u).where(eq(notes.id, id)).run()]: a new
    category_id of a row that is rewritten must have its parent row. *)
Definition update_note_where_id (id : string) (u : NoteSet) : M unit := fun db =>
  match ns_category_id u with
  | Some c =>
      if has_note id db && negb (has_category c db)
      then (db, Throw ForeignKeyConstraint)
      else ({| categories := categories db;
               notes := map (fun r => if String.eqb (nrow_id r) id then set_note u r else r)
                            (notes db) |}, Ok tt)
  | None =>
      ({| categories := categories db;
          notes := map (fun r => if String.eqb (nrow_id r) id then set_note u r else r)
                       (notes db) |}, Ok tt)
  end.

(** DELETE FROM notes WHERE category_id = ?; returns [changes]. *)
Definition delete_notes_where_category (id : string) : M nat := fun db =>
  ({| categories := categories db;
      notes := List.filter (fun n => negb (String.eqb (nrow_category_id n) id)) (notes db) |},
   Ok (length (List.filter (fun n => String.eqb (nrow_category_id n) id) (notes db)))).

(** DELETE FROM notes WHERE id = ?; returns [changes]. *)
Definition delete_notes_where_id (id : string) : M nat := fun db =>
  ({| categories := categories db;
      notes := List.filter (fun n => negb (String.eqb (nrow_id n) id)) (notes db) |},
   Ok (length (List.filter (fun n => String.eqb (nrow_id n) id) (notes db)))).

(** DELETE FROM categories WHERE id = ?, with ON DELETE CASCADE on
    notes.category_id; [changes] counts the category rows only. *)
Definition delete_categories_where_id (id : string) : M nat := fun db =>
  let hit := List.filter (fun c => String.eqb (crow_id c) id) (categories db) in
  ({| categories := List.filter (fun c => negb (String.eqb (crow_id c) id)) (categories db);
      notes := match hit with
               | [] => notes db
               | _ :: _ => List.filter (fun n => negb (String.eqb (nrow_category_id n) id)) (notes db)
               end |},
   Ok (length hit)).

(** ** SqliteStorage (server/storage.ts) *)

(** [a || fallback] on an optional string. *)
Definition or_else (o : option string) (fallback : string) : string :=
  default fallback (truthy o).

Definition first_where {A} (p : A -> bool) (rows : list A) : option A :=
  head (List.filter p rows).

Definition getCategories : M (list Category) :=
  read (fun db => map category_fromDriver (merge_sort by_created_at (categories db))).

Definition getCategory (id : string) : M (option Category) :=
  read (fun db =>
          category_fromDriver <$> first_where (fun c => String.eqb (crow_id c) id) (categories db)).

Definition createCategory (insertCategory : InsertCategory) (id : string) (now : Z) : M Category :=
  let category :=
    {| cat_id := id;
       cat_name := ic_name insertCategory;
       cat_color := or_else (ic_color insertCategory) "#3b82f6";
       cat_createdAt := now |} in
  insert_category (category_toDriver category) ;>
  ret category.

Definition updateCategory (id : string) (categoryUpdate : PartialCategory) : M (option Category) :=
  existing <~ getCategory id ;
  match existing with
  | None => ret None
  | Some existing =>
      let updated :=
        {| cat_id := cat_id existing;
           cat_name := default (cat_name existing) (pc_name categoryUpdate);
           cat_color := default (cat_color existing) (pc_color categoryUpdate);
           cat_createdAt := cat_createdAt existing |} in
      update_category_where_id id categoryUpdate ;>
      ret (Some updated)
  end.

Definition deleteCategory (id : string) : M bool :=
  delete_notes_where_category id ;>
  (changes <~ delete_categories_where_id id ;
   ret (0 <? changes)%nat).

(** A WHERE condition on notes. *)
Definition eq_categoryId (categoryId : string) (n : NoteRow) : bool :=
  String.eqb (nrow_category_id n) categoryId.

Definition like_any (searchLower : string) (n : NoteRow) : bool :=
  like_contains searchLower (nrow_title n)
  || like_contains searchLower (nrow_content n)
  || like_contains searchLower (nrow_tags n).

Definition whereConditions (categoryId search : option string) : list (NoteRow -> bool) :=
  match truthy categoryId with
  | Some c => [eq_categoryId c]
  | None => []
  end ++
  match truthy search with
  | Some s => [like_any (toLowerCase s)]
  | None => []
  end.

Definition and_all (conds : list (NoteRow -> bool)) (n : NoteRow) : bool :=
  forallb (fun cond => cond n) conds.

(** The rows of [db.select().from(notes).where(and(...)).orderBy(notes.updatedAt)],
    when the statement runs to its end. *)
Definition select_notes (categoryId search : option string) (db : Db) : list NoteRow :=
  merge_sort by_updated_at
    (List.filter (and_all (whereConditions categoryId search)) (notes db)).

(** A row reaches the LIKE conditions when it satisfied what stands before
    them in the WHERE clause, the categoryId condition if there is one: the
    engine evaluates the conditions joined by AND from left to right and
    leaves the row at the first that fails. *)
Definition reaches_like (categoryId : option string) (n : NoteRow) : bool :=
  match truthy categoryId with
  | Some c => eq_categoryId c n
  | None => true
  end.

(** The statement fails when a LIKE is evaluated with a pattern over the
    limit, that is on the first row that reaches the LIKE conditions. *)
Definition like_too_complex (categoryId search : option string) (db : Db) : bool :=
  match truthy search with
  | Some s =>
      like_refused ("%" +:+ toLowerCase s +:+ "%")
      && existsb (reaches_like categoryId) (notes db)
  | None => false
  end.

(** [.all()] on the SELECT. *)
Definition all_notes (categoryId search : option string) : M (list NoteRow) :=
  fun db =>
    if like_too_complex categoryId search db
    then (db, Throw LikePatternTooComplex)
    else (db, Ok (select_notes categoryId search db)).

Definition getNotes (categoryId search : option string) : M (list Note) :=
  result <~ all_notes categoryId search ;
  parsed <~ lift (notes_fromDriver result) ;
  ret (rev parsed).

Definition getNote (id : string) : M (option Note) :=
  result <~ read (fun db => first_where (fun n => String.eqb (nrow_id n) id) (notes db)) ;
  match result with
  | None => ret None
  | Some row => note <~ lift (note_fromDriver row) ; ret (Some note)
  end.

Definition createNote (insertNote : InsertNote) (id : string) (now : Z) : M Note :=
  let note :=
    {| note_id := id;
       note_title := in_title insertNote;
       note_content := or_else (in_content insertNote) "";
       note_categoryId := in_categoryId insertNote;
       note_tags := default [] (in_tags insertNote);
       note_createdAt := now;
       note_updatedAt := now |} in
  let noteForDb :=
    {| nrow_id := note_id note;
       nrow_title := note_title note;
       nrow_content := note_content note;
       nrow_category_id := note_categoryId note;
       nrow_tags := tags_toDriver (note_tags note);
       nrow_created_at := timestamp_toDriver (note_createdAt note);
       nrow_updated_at := timestamp_toDriver (note_updatedAt note) |} in
  insert_note noteForDb ;>
  ret note.

Definition updateNote (id : string) (noteUpdate : UpdateNote) (now : Z) : M (option Note) :=
  existing <~ getNote id ;
  match existing with
  | None => ret None
  | Some existing =>
      let updated :=
        {| note_id := note_id existing;
           note_title := default (note_title existing) (un_title noteUpdate);
           note_content := default (note_content existing) (un_content noteUpdate);
           note_categoryId := default (note_categoryId existing) (un_categoryId noteUpdate);
           note_tags := default (note_tags existing) (un_tags noteUpdate);
           note_createdAt := note_createdAt existing;
           note_updatedAt := now |} in
      let updateForDb :=
        {| ns_updated_at := timestamp_toDriver (note_updatedAt updated);
           ns_title := un_title noteUpdate;
           ns_content := un_content noteUpdate;
           ns_category_id := un_categoryId noteUpdate;
           ns_tags := tags_toDriver <$> un_tags noteUpdate |} in
      update_note_where_id id updateForDb ;>
      ret (Some updated)
  end.

Definition deleteNote (id : string) : M bool :=
  changes <~ delete_notes_where_id id ;
  ret (0 <? changes)%nat.

(** [counts[note.categoryId] = (counts[note.categoryId] || 0) + 1] over all
    notes.  Category ids are UUIDs, never a property name inherited from
    Object.prototype, so the object is a finite map. *)
Definition count_note (counts : gmap string nat) (note : NoteRow) : gmap string nat :=
  <[nrow_category_id note := (default 0 (counts !! nrow_category_id note) + 1)%nat]> counts.

Definition getCategoryNoteCounts : M (gmap string nat) :=
  read (fun db => foldl count_note ∅ (notes db)).

(** ** seedDatabase (server/database.ts) *)

Fixpoint for_each {A} (body : A -> M unit) (items : list A) : M unit :=
  match items with
  | [] => ret tt
  | x :: items' => body x ;> for_each body items'
  end.

(** The default categories; each carries the reading of the clock taken
    when it is inserted. *)
Definition defaultCategories (uuid1 uuid2 uuid3 uuid4 : string) (now1 now2 now3 now4 : Z)
  : list Category :=
  [ {| cat_id := uuid1; cat_name := "Work Notes"; cat_color := "#3b82f6"; cat_createdAt := now1 |};
    {| cat_id := uuid2; cat_name := "Personal"; cat_color := "#10b981"; cat_createdAt := now2 |};
    {| cat_id := uuid3; cat_name := "Ideas"; cat_color := "#ef4444"; cat_createdAt := now3 |};
    {| cat_id := uuid4; cat_name := "Prompts"; cat_color := "#8b5cf6"; cat_createdAt := now4 |} ].

Definition seedDatabase (uuid1 uuid2 uuid3 uuid4 : string) (now1 now2 now3 now4 : Z) : M unit :=
  existingCategories <~ read categories ;
  if (length existingCategories =? 0)%nat
  then for_each (fun category => insert_category (category_toDriver category))
                (defaultCategories uuid1 uuid2 uuid3 uuid4 now1 now2 now3 now4)
  else ret tt.

(** ** GET /api/categories (server/routes.ts) *)

Definition noteCount (counts : gmap string nat) (id : string) : nat :=
  default 0%nat (counts !! id).


(** ** A worked scenario *)

Definition demo_seeded : Db :=
  fst (seedDatabase "u1" "u2" "u3" "u4" 1000 1000 1001 1001 empty_db).

Definition demo_note : InsertNote :=
  {| in_title := "T"; in_content := None; in_categoryId := "u1"; in_tags := Some ["a"; "b"] |}.

Definition demo_db : Db := fst (createNote demo_note "n1" 5000 demo_seeded).

(** ** Vocabulary of the statements *)

(** [String.prototype.startsWith] and [String.prototype.includes]. *)
Fixpoint starts_with (needle hay : string) : bool :=
  match needle, hay with
  | EmptyString, _ => true
  | String _ _, EmptyString => false
  | String a needle', String b hay' => Ascii.eqb a b && starts_with needle' hay'
  end.

Fixpoint includes (needle hay : string) : bool :=
  starts_with needle hay
  || match hay with
     | EmptyString => false
     | String _ hay' => includes needle hay'
     end.




(** The character U+0000 does not occur in the string. *)
Fixpoint nul_free (s : string) : bool :=
  match s with
  | EmptyString => true
  | String c s' => negb (Ascii.eqb c NUL) && nul_free s'
  end.



(** The search filter in the words of the specification: the search string
    is a case-insensitive substring of the title, the content or the
    serialized tags. *)
Definition ci_substring (needle hay : string) : bool :=
  includes (toLowerCase needle) (toLowerCase hay).

Definition spec_passes (categoryId search : option string) (n : NoteRow) : bool :=
  match categoryId with
  | Some c => String.eqb (nrow_category_id n) c
  | None => true
  end
  && match search with
     | Some s =>
         ci_substring s (nrow_title n)
         || ci_substring s (nrow_content n)
         || ci_substring s (nrow_tags n)
     | None => true
     end.

(** The two filters as the code applies them. *)
Definition passes (categoryId search : option string) (n : NoteRow) : bool :=
  match truthy categoryId with
  | Some c => String.eqb (nrow_category_id n) c
  | None => true
  end
  && match truthy search with
     | Some s => like_any (toLowerCase s) n
     | None => true
     end.


(** Every note has its parent category. *)
Definition fk_ok (db : Db) : bool :=
  forallb (fun n => has_category (nrow_category_id n) db) (notes db).

(** Every tags cell decodes to an array of strings. *)
Definition tags_ok (db : Db) : bool :=
  forallb (fun n => match tags_fromDriver (nrow_tags n) with Ok _ => true | Throw _ => false end)
          (notes db).

(** The number of notes that reference a category. *)
Definition referencing (id : string) (rows : list NoteRow) : nat :=
  length (List.filter (fun n => String.eqb (nrow_category_id n) id) rows).

Definition notes_in (id : string) (db : Db) : nat := referencing id (notes db).

Definition sum_counts (counts : gmap string nat) : nat :=
  map_fold (fun _ k acc => (k + acc)%nat) 0%nat counts.

Definition sum_over_categories (counts : gmap string nat) (db : Db) : nat :=
  foldr (fun c acc => (noteCount counts (crow_id c) + acc)%nat) 0%nat (categories db).

Definition title_only (title : string) : UpdateNote :=
  {| un_title := Some title; un_content := None; un_categoryId := None; un_tags := None |}.

(** [{ ...existing, ...noteUpdate, updatedAt }]. *)
Definition merge_note (existing : Note) (noteUpdate : UpdateNote) (updatedAt : Z) : Note :=
  {| note_id := note_id existing;
     note_title := default (note_title existing) (un_title noteUpdate);
     note_content := default (note_content existing) (un_content noteUpdate);
     note_categoryId := default (note_categoryId existing) (un_categoryId noteUpdate);
     note_tags := default (note_tags existing) (un_tags noteUpdate);
     note_createdAt := note_createdAt existing;
     note_updatedAt := updatedAt |}.

(** A timestamp as it reads after a trip through the table. *)
Definition whole_seconds (ms : Z) : Z := timestamp_fromDriver (timestamp_toDriver ms).

Definition empty_partial : PartialCategory := {| pc_name := None; pc_color := None |}.

(** [preserves I m]: whatever [m] returns or throws, it leaves a store that
    satisfies [I] if it found one. *)
Definition preserves {A} (I : Db -> Prop) (m : M A) : Prop :=
  forall db, I db -> I (fst (m db)).

Definition FkOk (db : Db) : Prop := fk_ok db = true.
Definition TagsOk (db : Db) : Prop := tags_ok db = true.
Definition CategoryIdsUnique (db : Db) : Prop := NoDup (map crow_id (categories db)).

(** ** Histories of repository calls *)

Inductive call : Type :=
| Seed (uuid1 uuid2 uuid3 uuid4 : string) (now1 now2 now3 now4 : Z)
| CreateCategory (c : InsertCategory) (id : string) (now : Z)
| UpdateCategory (id : string) (u : PartialCategory)
| DeleteCategory (id : string)
| CreateNote (n : InsertNote) (id : string) (now : Z)
| UpdateNoteCall (id : string) (u : UpdateNote) (now : Z)
| DeleteNote (id : string).

(** The database a call leaves behind, whether it returns or throws. *)
Definition run (c : call) (db : Db) : Db :=
  match c with
  | Seed u1 u2 u3 u4 t1 t2 t3 t4 => fst (seedDatabase u1 u2 u3 u4 t1 t2 t3 t4 db)
  | CreateCategory c id now => fst (createCategory c id now db)
  | UpdateCategory id u => fst (updateCategory id u db)
  | DeleteCategory id => fst (deleteCategory id db)
  | CreateNote n id now => fst (createNote n id now db)
  | UpdateNoteCall id u now => fst (updateNote id u now db)
  | DeleteNote id => fst (deleteNote id db)
  end.

(** The states of a store that was created empty, seeded at start-up and
    then only touched through the repository. *)
Inductive reachable : Db -> Prop :=
| reachable_seeded (uuid1 uuid2 uuid3 uuid4 : string) (now1 now2 now3 now4 : Z) :
    reachable (fst (seedDatabase uuid1 uuid2 uuid3 uuid4 now1 now2 now3 now4 empty_db))
| reachable_step (c : call) (db : Db) :
    reachable db -> reachable (run c db).


(** Two notes created within one second. *)
Definition two_notes_db : Db := fst (createNote demo_note "n2" 5400 demo_db).

(** ** More vocabulary *)

Definition NoteIdsUnique (db : Db) : Prop := NoDup (map nrow_id (notes db)).

(** Oldest category first. *)
Definition oldest_first (a b : Category) : Prop := cat_createdAt a <= cat_createdAt b.

(** A category or a note as it reads after a trip through the table. *)
Definition stored_category (c : Category) : Category :=
  category_fromDriver (category_toDriver c).

Definition stored_note (n : Note) : Note :=
  {| note_id := note_id n; note_title := note_title n; note_content := note_content n;
     note_categoryId := note_categoryId n; note_tags := note_tags n;
     note_createdAt := whole_seconds (note_createdAt n);
     note_updatedAt := whole_seconds (note_updatedAt n) |}.

Definition is_ok {A} (r : res A) : bool :=
  match r with Ok _ => true | Throw _ => false end.

(** ** The REST handlers (server/routes.ts) *)

(** What [schema.parse(req.body)] gives: the validated value, or a thrown
    ZodError with its issues. *)
Inductive zod (A : Type) : Type :=
| Parsed (data : A)
| ZodError (errors : list string).
Arguments Parsed {A} data.
Arguments ZodError {A} errors.

Inductive payload : Type :=
| CategoriesJson (cs : list (Category * nat))
| CategoryJson (c : Category)
| NotesJson (ns : list Note)
| NoteJson (n : Note)
| MessageJson (message : string)
| InvalidJson (message : string) (errors : list string)
| NoBody.

Record response : Type := {
  status : nat;
  body : payload
}.

Definition handler : Type := Db -> Db * response.

(** [res.status(code).json(p)]; [res.json(p)] answers 200. *)
Definition status_json (code : nat) (p : payload) : response :=
  {| status := code; body := p |}.

Definition json (p : payload) : response := status_json 200 p.

(** [try { ... } catch (error) { res.status(500).json({ message }) }] around
    a repository call. *)
Definition try_catch {A} (m : M A) (respond : A -> response) (message : string) : handler :=
  fun db =>
    match m db with
    | (db', Ok a) => (db', respond a)
    | (db', Throw _) => (db', status_json 500 (MessageJson message))
    end.

(** The [error instanceof z.ZodError] branch of the catch. *)
Definition try_parse {A} (parsed : zod A) (message : string) (k : A -> handler) : handler :=
  match parsed with
  | ZodError errors => fun db => (db, status_json 400 (InvalidJson message errors))
  | Parsed data => k data
  end.


Definition post_categories (parsed : zod InsertCategory) (id : string) (now : Z) : handler :=
  try_parse parsed "Invalid category data" (fun validatedData =>
    try_catch (createCategory validatedData id now)
              (fun category => status_json 201 (CategoryJson category))
              "Failed to create category").

Definition put_category (id : string) (parsed : zod PartialCategory) : handler :=
  try_parse parsed "Invalid category data" (fun validatedData =>
    try_catch (updateCategory id validatedData)
              (fun category =>
                 match category with
                 | None => status_json 404 (MessageJson "Category not found")
                 | Some c => json (CategoryJson c)
                 end)
              "Failed to update category").

Definition delete_category (id : string) : handler :=
  try_catch (deleteCategory id)
            (fun deleted : bool =>
               if deleted then status_json 204 NoBody
               else status_json 404 (MessageJson "Category not found"))
            "Failed to delete category".




Definition get_note (id : string) : handler :=
  try_catch (getNote id)
            (fun note =>
               match note with
               | None => status_json 404 (MessageJson "Note not found")
               | Some n => json (NoteJson n)
               end)
            "Failed to fetch note".

Definition post_notes (parsed : zod InsertNote) (id : string) (now : Z) : handler :=
  try_parse parsed "Invalid note data" (fun validatedData =>
    try_catch (createNote validatedData id now)
              (fun note => status_json 201 (NoteJson note))
              "Failed to create note").

Definition put_note (id : string) (parsed : zod UpdateNote) (now : Z) : handler :=
  try_parse parsed "Invalid note data" (fun validatedData =>
    try_catch (updateNote id validatedData now)
              (fun note =>
                 match note with
                 | None => status_json 404 (MessageJson "Note not found")
                 | Some n => json (NoteJson n)
                 end)
              "Failed to update note").

Definition delete_note (id : string) : handler :=
  try_catch (deleteNote id)
            (fun deleted : bool =>
               if deleted then status_json 204 NoBody
               else status_json 404 (MessageJson "Note not found"))
            "Failed to delete note".

(** ** The client (client/src) *)

(** White space of [String.prototype.trim] and of the regular expression
    class [\s], among the characters of the model. *)
Definition is_whitespace (c : ascii) : bool :=
  let n := Char.code c in
  (((9 <=? n) && (n <=? 13)) || (n =? 32) || (n =? 160))%N.

Fixpoint trimStart (s : string) : string :=
  match s with
  | String c s' => if is_whitespace c then trimStart s' else s
  | EmptyString => EmptyString
  end.

Fixpoint trimEnd (s : string) : string :=
  match s with
  | EmptyString => EmptyString
  | String c s' =>
      match trimEnd s' with
      | EmptyString => if is_whitespace c then EmptyString else String c EmptyString
      | rest => String c rest
      end
  end.

Definition trim (s : string) : string := trimEnd (trimStart s).

Definition is_empty (s : string) : bool :=
  match s with EmptyString => true | String _ _ => false end.

(** *** hooks/use-notes.ts: the URL of the notes query *)

Definition is_url_safe (c : ascii) : bool :=
  let n := Char.code c in
  (((48 <=? n) && (n <=? 57)) || ((65 <=? n) && (n <=? 90)) || ((97 <=? n) && (n <=? 122))
   || (n =? 42) || (n =? 45) || (n =? 46) || (n =? 95))%N.

Definition hex_upper (n : N) : ascii :=
  if (n <? 10)%N then ascii_of_N (48 + n) else ascii_of_N (55 + n).

Definition percent_byte (byte : N) : string :=
  String "%" (String (hex_upper (byte / 16)) (String (hex_upper (byte mod 16)) EmptyString)).

(** The UTF-8 bytes of a character of the model. *)
Definition utf8 (c : ascii) : list N :=
  let n := Char.code c in
  if (n <? 128)%N then [n] else [(192 + n / 64)%N; (128 + n mod 64)%N].

(** The application/x-www-form-urlencoded serializer of URLSearchParams. *)
Definition urlencode_char (c : ascii) : string :=
  if (Char.code c =? 32)%N then "+"
  else if is_url_safe c then String c EmptyString
  else foldr (fun byte acc => percent_byte byte +:+ acc) EmptyString (utf8 c).

Fixpoint urlencode (s : string) : string :=
  match s with
  | EmptyString => EmptyString
  | String c s' => urlencode_char c +:+ urlencode s'
  end.

Fixpoint URLSearchParams_toString (params : list (string * string)) : string :=
  match params with
  | [] => EmptyString
  | [(name, value)] => urlencode name +:+ "=" +:+ urlencode value
  | (name, value) :: rest =>
      urlencode name +:+ "=" +:+ urlencode value +:+ "&" +:+ URLSearchParams_toString rest
  end.

Definition useNotes_params (categoryId search : option string) : list (string * string) :=
  match truthy categoryId with
  | Some c => [("categoryId", c)]
  | None => []
  end ++
  match truthy search with
  | Some s => [("search", s)]
  | None => []
  end.

Definition useNotes_url (categoryId search : option string) : string :=
  let queryString := URLSearchParams_toString (useNotes_params categoryId search) in
  "/api/notes" +:+ (if is_empty queryString then "" else "?" +:+ queryString).

(** *** components/notes-panel.tsx: getPreviewText *)

Fixpoint contains_gt (s : string) : bool :=
  match s with
  | EmptyString => false
  | String c s' => Ascii.eqb c ">" || contains_gt s'
  end.

(** [content.replace(/<[^>]*>/g, '')]: [inside] says that the scan is within
    a match, which began at a less-than sign with a greater-than sign
    somewhere after it. *)
Fixpoint strip_from (inside : bool) (s : string) : string :=
  match s with
  | EmptyString => EmptyString
  | String c s' =>
      if inside then strip_from (negb (Ascii.eqb c ">")) s'
      else if Ascii.eqb c "<" && contains_gt s' then strip_from true s'
      else String c (strip_from false s')
  end.

Definition strip_tags (content : string) : string := strip_from false content.

Definition getPreviewText (content : string) : string :=
  let stripped := strip_tags content in
  if (100 <? String.length stripped)%nat
  then String.substring 0 100 stripped +:+ "..."
  else stripped.

(** *** components/editor.tsx: tags and auto-save *)

Definition handleAddTag (tags : list string) (newTag : string) : list string * string :=
  if negb (is_empty (trim newTag)) && negb (existsb (String.eqb (trim newTag)) tags)
  then ((tags ++ [trim newTag])%list, "")
  else (tags, newTag).

Definition handleRemoveTag (tags : list string) (tagToRemove : string) : list string :=
  List.filter (fun tag => negb (String.eqb tag tagToRemove)) tags.

Inductive save_action : Type :=
| NoRequest
| PutNote (id : string) (updates : UpdateNote)
| PostNote (data : InsertNote).

Definition autoSave (title content : string) (tags : list string)
           (noteId categoryId : option string) (currentNote : option Note) : save_action :=
  if is_empty (trim title) && is_empty (trim content) then NoRequest
  else
    match truthy noteId, currentNote with
    | Some id, Some _ =>
        PutNote id {| un_title := Some (trim title); un_content := Some content;
                      un_categoryId := None; un_tags := Some tags |}
    | _, _ =>
        match truthy categoryId with
        | Some c =>
            PostNote {| in_title := or_else (Some (trim title)) "Untitled";
                        in_content := Some content;
                        in_categoryId := c;
                        in_tags := Some tags |}
        | None => NoRequest
        end
    end.

(** *** components/category-dialog.tsx: handleSubmit *)

Inductive dialog_action : Type :=
| Toast (title description : string)
| PutCategory (id : string) (data : PartialCategory)
| PostCategory (data : InsertCategory).

Definition handleSubmit (name color : string) (categoryId : option string) : dialog_action :=
  if is_empty (trim name) then Toast "Error" "Category name is required"
  else
    match truthy categoryId with
    | Some id => PutCategory id {| pc_name := Some (trim name); pc_color := Some color |}
    | None => PostCategory {| ic_name := trim name; ic_color := Some color |}
    end.

(** *** Vocabulary for the client *)

(** A less-than sign with a greater-than sign somewhere after it: what the
    regular expression of getPreviewText matches. *)
Fixpoint has_tag (s : string) : bool :=
  match s with
  | EmptyString => false
  | String c s' => (Ascii.eqb c "<" && contains_gt s') || has_tag s'
  end.

Fixpoint count_char (x : ascii) (s : string) : nat :=
  match s with
  | EmptyString => 0%nat
  | String c s' => ((if Ascii.eqb c x then 1 else 0) + count_char x s')%nat
  end.




(** Tags as the editor keeps them: no duplicate, none empty, none with
    white space around it. *)
Definition tidy_tags (tags : list string) : Prop :=
  NoDup tags /\ forall tag, In tag tags -> tag <> "" /\ trim tag = tag.

(** The reading of a urlencoded text, character by character; it serves to
    show that [urlencode] loses nothing. *)
Definition unhex (c : ascii) : option N :=
  let n := Char.code c in
  if ((48 <=? n) && (n <=? 57))%N then Some (n - 48)%N
  else if ((65 <=? n) && (n <=? 70))%N then Some (n - 55)%N
  else None.

Definition unhex2 (a b : ascii) : option N :=
  match unhex a, unhex b with
  | Some x, Some y => Some (16 * x + y)%N
  | _, _ => None
  end.

Fixpoint urldecode (s : string) : option string :=
  match s with
  | EmptyString => Some EmptyString
  | String c rest =>
      if (Char.code c =? 43)%N then option_map (String " ") (urldecode rest)
      else if (Char.code c =? 37)%N then
        match rest with
        | String a (String b rest1) =>
            match unhex2 a b with
            | Some byte =>
                if (byte <? 128)%N
                then option_map (String (ascii_of_N byte)) (urldecode rest1)
                else
                  match rest1 with
                  | String p (String a' (String b' rest2)) =>
                      match unhex2 a' b' with
                      | Some byte' =>
                          if (Char.code p =? 37)%N
                          then option_map
                                 (String (ascii_of_N ((byte - 192) * 64 + (byte' - 128))))
                                 (urldecode rest2)
                          else None
                      | None => None
                      end
                  | _ => None
                  end
            | None => None
            end
        | _ => None
        end
      else option_map (String c) (urldecode rest)
  end.

Example preview_strips : getPreviewText "<p>Hello <b>world</b></p> 1 < 2" = "Hello world 1 < 2".
Proof. reflexivity. Qed.

Example url_both : useNotes_url (Some "u1") (Some "a b&c=%") = "/api/notes?categoryId=u1&search=a+b%26c%3D%25".
Proof. reflexivity. Qed.

Example url_none : useNotes_url None (Some "") = "/api/notes".
Proof. reflexivity. Qed.

Example trim_both : trim "  a b  " = "a b".
Proof. reflexivity. Qed.

(** * Strings *)

#[local] Arguments String.append !_ _ / : simpl nomatch.

Section string_facts.

Lemma append_assoc (a b c : string) : (a +:+ b) +:+ c = a +:+ (b +:+ c).
Proof. induction a as [|x a IH]; cbn; [reflexivity | f_equal; exact IH]. Qed.

Lemma append_empty_r (a : string) : a +:+ "" = a.
Proof. induction a as [|x a IH]; cbn; [reflexivity | f_equal; exact IH]. Qed.

Lemma length_append (a b : string) :
  String.length (a +:+ b) = (String.length a + String.length b)%nat.
Proof. induction a as [|x a IH]; cbn; [reflexivity | f_equal; exact IH]. Qed.

End string_facts.

(** * JSON: parsing undoes stringifying *)

Module JSONFacts.
Import JSON.

Lemma parse_chars_quote_char (c : ascii) (t : string) :
  parse_chars (quote_char c +:+ t) = prepend c (parse_chars t).
Proof. destruct c as [[] [] [] [] [] [] [] []]; reflexivity. Qed.

Lemma parse_chars_quote_body (s t : string) :
  parse_chars (quote_body s +:+ String dquote t) = Some (s, t).
Proof.
  induction s as [|c s IH]; simpl.
  - reflexivity.
  - rewrite append_assoc, parse_chars_quote_char, IH. reflexivity.
Qed.

Lemma quote_append (s t : string) :
  quote s +:+ t = String dquote (quote_body s +:+ String dquote t).
Proof. unfold quote. simpl. now rewrite append_assoc. Qed.

Lemma parse_quote (s : string) : parse (quote s) = Some (Str s).
Proof.
  rewrite <- (append_empty_r (quote s)), quote_append.
  unfold parse. simpl. now rewrite parse_chars_quote_body.
Qed.

Lemma join_quoted_cons (x y : string) (xs : list string) :
  join_quoted (x :: y :: xs) = quote x +:+ "," +:+ join_quoted (y :: xs).
Proof. reflexivity. Qed.

Lemma parse_elems_join (xs : list string) :
  forall (x : string) (fuel : nat) (t : string),
    (length xs < fuel)%nat ->
    parse_elems fuel (join_quoted (x :: xs) +:+ String "]" t) = Some (x :: xs, t).
Proof.
  induction xs as [|y xs IH]; intros x fuel t Hfuel.
  - destruct fuel as [|fuel]; [simpl in Hfuel; lia|].
    change (join_quoted [x]) with (quote x). rewrite quote_append.
    simpl. now rewrite parse_chars_quote_body.
  - destruct fuel as [|fuel]; [simpl in Hfuel; lia|].
    pose proof (IH y fuel t ltac:(simpl in Hfuel; lia)) as IHy.
    rewrite join_quoted_cons, !append_assoc, quote_append.
    set (tail := join_quoted (y :: xs) +:+ String "]" t) in *.
    simpl. rewrite parse_chars_quote_body. simpl.
    now rewrite IHy.
Qed.

Lemma join_quoted_length (xs : list string) :
  (length xs <= String.length (join_quoted xs))%nat.
Proof.
  induction xs as [|x xs IH]; [simpl; lia|].
  destruct xs as [|y xs]; [simpl; lia|].
  rewrite join_quoted_cons. unfold quote at 1.
  cbn [String.append String.length]. rewrite !length_append.
  cbn [length String.length] in *. lia.
Qed.

Lemma join_quoted_head (x : string) (xs : list string) (t : string) :
  exists rest, join_quoted (x :: xs) +:+ t = String dquote rest.
Proof.
  destruct xs as [|y xs].
  - change (join_quoted [x]) with (quote x). rewrite quote_append. eauto.
  - rewrite join_quoted_cons, append_assoc, quote_append. eauto.
Qed.

Lemma parse_bracket (body rest : string) :
  body = String dquote rest ->
  parse (String "[" body) =
    match parse_elems (String.length body) body with
    | Some (xs, rest2) => if at_end rest2 then Some (Arr xs) else None
    | None => None
    end.
Proof. intros ->. reflexivity. Qed.

Lemma parse_stringify_array (xs : list string) :
  parse (stringify (Arr xs)) = Some (Arr xs).
Proof.
  destruct xs as [|x xs]; [reflexivity|].
  destruct (join_quoted_head x xs "]") as [rest Hrest].
  change (stringify (Arr (x :: xs))) with (String "[" (join_quoted (x :: xs) +:+ "]")).
  rewrite (parse_bracket _ rest Hrest), parse_elems_join; [reflexivity|].
  rewrite length_append. pose proof (join_quoted_length (x :: xs)).
  cbn [length String.length] in *. lia.
Qed.

Theorem parse_stringify (v : value) : parse (stringify v) = Some v.
Proof. destruct v; [apply parse_quote | apply parse_stringify_array]. Qed.

End JSONFacts.

(** * LIKE *)

Section like_facts.

Lemma tags_roundtrip (tags : list string) :
  tags_fromDriver (tags_toDriver tags) = Ok tags.
Proof.
  unfold tags_fromDriver, tags_toDriver, json_toDriver.
  now rewrite !JSONFacts.parse_stringify.
Qed.

(** A leading percent sign either matches nothing or swallows one more
    character. *)
Lemma patternCompare_percent (pat s : string) :
  patternCompare (String "%" pat) s =
    patternCompare pat s
    || match s with
       | EmptyString => false
       | String _ s' => patternCompare (String "%" pat) s'
       end.
Proof. destruct s; reflexivity. Qed.



(** A pattern starting with two percent signs matches everything. *)
Lemma patternCompare_percent_any (pat s : string) :
  patternCompare pat "" = true -> patternCompare (String "%" pat) s = true.
Proof.
  intros Hpat. induction s as [|c s IH].
  - rewrite patternCompare_percent, Hpat. reflexivity.
  - rewrite patternCompare_percent, IH. apply orb_true_r.
Qed.

Lemma like_contains_percent (field : string) : like_contains "%" field = true.
Proof.
  unfold like_contains, like_match.
  change (c_str ("%" +:+ "%" +:+ "%")) with "%%%".
  apply patternCompare_percent_any. reflexivity.
Qed.





Lemma c_str_nul_free (s : string) : nul_free (c_str s) = true.
Proof.
  induction s as [|c s IH]; [reflexivity|].
  cbn [c_str]. destruct (Ascii.eqb c NUL) eqn:Hc; [reflexivity|].
  cbn [nul_free]. now rewrite Hc, IH.
Qed.





Lemma like_any_percent (n : NoteRow) : like_any (toLowerCase "%") n = true.
Proof. unfold like_any. simpl. now rewrite like_contains_percent. Qed.







End like_facts.

(** * Rows and statements *)

Section statement_facts.

Context {A : Type}.
Implicit Types (p : A -> bool) (rows : list A).

Lemma filter_keeps_all p rows :
  existsb (fun x => negb (p x)) rows = false -> List.filter p rows = rows.
Proof.
  induction rows as [|x rows IH]; [reflexivity|].
  cbn [existsb List.filter]. intros H.
  apply orb_false_iff in H as [Hx Hrows].
  apply negb_false_iff in Hx. rewrite Hx, IH; auto.
Qed.

Lemma filter_negb_miss p rows :
  existsb p rows = false -> List.filter (fun x => negb (p x)) rows = rows.
Proof.
  intros H. apply filter_keeps_all. rewrite <- H.
  clear H. induction rows as [|x rows IH]; [reflexivity|].
  cbn [existsb]. now rewrite negb_involutive, IH.
Qed.

Lemma filter_miss p rows : existsb p rows = false -> List.filter p rows = [].
Proof.
  induction rows as [|x rows IH]; [reflexivity|].
  cbn [existsb List.filter]. intros H.
  apply orb_false_iff in H as [Hx Hrows]. rewrite Hx. auto.
Qed.

Lemma changes_positive p rows :
  (0 <? length (List.filter p rows))%nat = existsb p rows.
Proof.
  induction rows as [|x rows IH]; [reflexivity|].
  cbn [existsb List.filter]. destruct (p x); [reflexivity | exact IH].
Qed.

Lemma first_where_miss p rows : existsb p rows = false -> first_where p rows = None.
Proof. intros H. unfold first_where. now rewrite filter_miss. Qed.

Lemma first_where_hit p rows :
  existsb p rows = true -> exists x, first_where p rows = Some x /\ In x rows /\ p x = true.
Proof.
  unfold first_where. induction rows as [|x rows IH]; [discriminate|].
  cbn [existsb List.filter]. destruct (p x) eqn:Hx.
  - intros _. exists x. cbn. auto.
  - intros H. destruct (IH H) as (y & Hy & Hin & Hp). exists y. cbn. auto.
Qed.

Lemma first_where_Some p rows x :
  first_where p rows = Some x -> In x rows /\ p x = true.
Proof.
  unfold first_where. intros H.
  assert (Hin : In x (List.filter p rows)).
  { destruct (List.filter p rows); [discriminate|]. injection H as ->. now left. }
  now apply filter_In in Hin.
Qed.

Lemma first_where_appended p rows x :
  existsb p rows = false -> p x = true -> first_where p (rows ++ [x]) = Some x.
Proof.
  intros Hrows Hx. unfold first_where.
  rewrite List.filter_app, filter_miss by assumption. cbn. now rewrite Hx.
Qed.

(** An UPDATE ... WHERE rewrites the first matching row as well. *)
Lemma first_where_updated p (f : A -> A) rows :
  (forall x, p (f x) = p x) ->
  first_where p (map (fun x => if p x then f x else x) rows) = f <$> first_where p rows.
Proof.
  intros Hf. unfold first_where. induction rows as [|x rows IH]; [reflexivity|].
  cbn [map List.filter]. destruct (p x) eqn:Hx.
  - rewrite Hf, Hx. reflexivity.
  - rewrite Hx. exact IH.
Qed.

Lemma update_miss p (f : A -> A) rows :
  existsb p rows = false -> map (fun x => if p x then f x else x) rows = rows.
Proof.
  induction rows as [|x rows IH]; [reflexivity|].
  cbn [existsb map]. intros H. apply orb_false_iff in H as [Hx Hrows].
  rewrite Hx, IH; auto.
Qed.

End statement_facts.

Section db_facts.

Implicit Types (db : Db) (id : string).

Lemma db_eta db : {| categories := categories db; notes := notes db |} = db.
Proof. now destruct db. Qed.

Lemma has_category_In id db :
  has_category id db = true <-> exists c, In c (categories db) /\ crow_id c = id.
Proof.
  unfold has_category. rewrite existsb_exists.
  split; intros (c & Hin & Hc); exists c; split; auto; now apply String.eqb_eq.
Qed.

Lemma has_note_In id db :
  has_note id db = true <-> exists n, In n (notes db) /\ nrow_id n = id.
Proof.
  unfold has_note. rewrite existsb_exists.
  split; intros (c & Hin & Hc); exists c; split; auto; now apply String.eqb_eq.
Qed.

Lemma getCategory_absent id db :
  has_category id db = false -> getCategory id db = (db, Ok None).
Proof.
  intros H. unfold getCategory, read. now rewrite first_where_miss.
Qed.

Lemma getCategory_present id db :
  has_category id db = true ->
  exists row,
    first_where (fun c => String.eqb (crow_id c) id) (categories db) = Some row
    /\ In row (categories db) /\ crow_id row = id
    /\ getCategory id db = (db, Ok (Some (category_fromDriver row))).
Proof.
  intros H. apply first_where_hit in H as (row & Hrow & Hin & Hid).
  exists row. apply String.eqb_eq in Hid.
  unfold getCategory, read. rewrite Hrow. auto.
Qed.

Lemma getNote_absent id db :
  has_note id db = false -> getNote id db = (db, Ok None).
Proof.
  intros H. unfold getNote, bind, read, ret. now rewrite first_where_miss.
Qed.

(** No note references a category that does not exist. *)
Lemma fk_ok_no_orphans id db :
  fk_ok db = true -> has_category id db = false ->
  existsb (fun n => String.eqb (nrow_category_id n) id) (notes db) = false.
Proof.
  intros Hfk Hid. apply not_true_iff_false. intros Hex.
  apply existsb_exists in Hex as (n & Hin & Hn). apply String.eqb_eq in Hn.
  unfold fk_ok in Hfk. rewrite forallb_forall in Hfk.
  specialize (Hfk n Hin). congruence.
Qed.

End db_facts.

(** * deleteCategory *)

(** C2. deleteCategory(C) removes every note whose categoryId is C and then
    the category itself; it returns true exactly when a category with id C
    existed, whatever notes there were; afterwards getCategory(C) is
    not-found. *)
Theorem C2_deleteCategory_cascade (id : string) (db : Db) :
  exists db',
    deleteCategory id db = (db', Ok (has_category id db))
    /\ (forall n, In n (notes db') <-> In n (notes db) /\ nrow_category_id n <> id)
    /\ (forall c, In c (categories db') <-> In c (categories db) /\ crow_id c <> id)
    /\ notes db' = List.filter (fun n => negb (String.eqb (nrow_category_id n) id)) (notes db)
    /\ has_category id db' = false
    /\ getCategory id db' = (db', Ok None).
Proof.
  eexists. split.
  { unfold deleteCategory, bind, delete_notes_where_category, delete_categories_where_id, ret.
    cbn [categories notes]. rewrite changes_positive. reflexivity. }
  cbn [categories notes].
  assert (Hnotes :
    match List.filter (fun c => String.eqb (crow_id c) id) (categories db) with
    | [] => List.filter (fun n => negb (String.eqb (nrow_category_id n) id)) (notes db)
    | _ :: _ =>
        List.filter (fun n => negb (String.eqb (nrow_category_id n) id))
          (List.filter (fun n => negb (String.eqb (nrow_category_id n) id)) (notes db))
    end = List.filter (fun n => negb (String.eqb (nrow_category_id n) id)) (notes db)).
  { destruct (List.filter _ (categories db)); [reflexivity|].
    apply filter_keeps_all. apply not_true_iff_false. intros H.
    apply existsb_exists in H as (n & Hin & Hn).
    apply filter_In in Hin as [_ Hin]. rewrite Hin in Hn. discriminate. }
  rewrite Hnotes.
  assert (Hgone : has_category id
            {| categories := List.filter (fun c => negb (String.eqb (crow_id c) id)) (categories db);
               notes := List.filter (fun n => negb (String.eqb (nrow_category_id n) id)) (notes db) |}
          = false).
  { apply not_true_iff_false. intros H. apply has_category_In in H as (c & Hin & Hc).
    cbn [categories] in Hin. apply filter_In in Hin as [_ Hin].
    apply negb_true_iff, String.eqb_neq in Hin. contradiction. }
  repeat split.
  - now apply filter_In in H.
  - apply filter_In in H as [_ H]. now apply negb_true_iff, String.eqb_neq in H.
  - intros [Hin Hne]. apply filter_In. split; [assumption|].
    now apply negb_true_iff, String.eqb_neq.
  - now apply filter_In in H.
  - apply filter_In in H as [_ H]. now apply negb_true_iff, String.eqb_neq in H.
  - intros [Hin Hne]. apply filter_In. split; [assumption|].
    now apply negb_true_iff, String.eqb_neq.
  - exact Hgone.
  - now apply getCategory_absent.
Qed.

(** * Absent ids *)

Lemma filter_drops {A} (p : A -> bool) (rows : list A) (x : A) :
  In x rows -> p x = false -> (length (List.filter p rows) < length rows)%nat.
Proof.
  induction rows as [|y rows IH]; [contradiction|].
  intros [->|Hin] Hx; cbn [List.filter].
  - rewrite Hx. pose proof (List.filter_length_le p rows). cbn [length]. lia.
  - specialize (IH Hin Hx). destruct (p y); cbn [length]; lia.
Qed.

Section absent_ids.

Variables (db : Db) (id : string).

Lemma updateCategory_absent (u : PartialCategory) :
  has_category id db = false -> updateCategory id u db = (db, Ok None).
Proof.
  intros H. unfold updateCategory, bind. now rewrite getCategory_absent.
Qed.

Lemma updateNote_absent (u : UpdateNote) (now : Z) :
  has_note id db = false -> updateNote id u now db = (db, Ok None).
Proof.
  intros H. unfold updateNote, bind. now rewrite getNote_absent.
Qed.

Lemma deleteNote_result :
  exists db',
    deleteNote id db = (db', Ok (has_note id db))
    /\ categories db' = categories db
    /\ notes db' = List.filter (fun n => negb (String.eqb (nrow_id n) id)) (notes db).
Proof.
  eexists. split.
  - unfold deleteNote, bind, delete_notes_where_id, ret.
    rewrite changes_positive. reflexivity.
  - split; reflexivity.
Qed.

Lemma deleteNote_absent :
  has_note id db = false -> deleteNote id db = (db, Ok false).
Proof.
  intros H. destruct deleteNote_result as (db' & Hrun & Hcats & Hnotes).
  rewrite Hrun, H. f_equal.
  rewrite filter_negb_miss in Hnotes by exact H.
  destruct db, db'; cbn in *; congruence.
Qed.

Lemma deleteCategory_absent :
  fk_ok db = true -> has_category id db = false ->
  deleteCategory id db = (db, Ok false).
Proof.
  intros Hfk H.
  pose proof (fk_ok_no_orphans id db Hfk H) as Horphans.
  unfold deleteCategory, bind, delete_notes_where_category, delete_categories_where_id, ret.
  cbn [categories notes]. unfold has_category in H.
  rewrite (filter_miss _ _ H), (filter_negb_miss _ _ H), (filter_negb_miss _ _ Horphans).
  now rewrite db_eta.
Qed.

(** A row goes away exactly when deleteNote answers true. *)
Lemma deleteNote_removed :
  snd (deleteNote id db) = Ok true <->
  (length (notes (fst (deleteNote id db))) < length (notes db))%nat.
Proof.
  destruct deleteNote_result as (db' & Hrun & _ & Hnotes).
  rewrite Hrun. cbn [fst snd]. rewrite Hnotes.
  destruct (has_note id db) eqn:H.
  - split; [intros _|reflexivity].
    apply has_note_In in H as (n & Hin & Hn).
    apply (filter_drops _ _ n Hin).
    apply String.eqb_eq in Hn. now rewrite Hn.
  - rewrite filter_negb_miss by exact H. split; [discriminate|lia].
Qed.

End absent_ids.

(** C6. For an id that is not in the store the by-id operations return the
    absent value and never throw: getNote, getCategory, updateNote and
    updateCategory answer not-found, deleteNote and deleteCategory answer
    false, and the store is left as it was; deleteNote answers true exactly
    when a row was removed. *)
Theorem C6_absent_id_is_harmless (db : Db) (id : string) :
  fk_ok db = true ->
  (has_note id db = false ->
     getNote id db = (db, Ok None)
     /\ (forall u now, updateNote id u now db = (db, Ok None))
     /\ deleteNote id db = (db, Ok false))
  /\ (has_category id db = false ->
        getCategory id db = (db, Ok None)
        /\ (forall u, updateCategory id u db = (db, Ok None))
        /\ deleteCategory id db = (db, Ok false))
  /\ (snd (deleteNote id db) = Ok true <->
      (length (notes (fst (deleteNote id db))) < length (notes db))%nat).
Proof.
  intros Hfk. split; [|split].
  - intros H. split; [|split].
    + now apply getNote_absent.
    + intros u now. now apply updateNote_absent.
    + now apply deleteNote_absent.
  - intros H. split; [|split].
    + now apply getCategory_absent.
    + intros u. now apply updateCategory_absent.
    + now apply deleteCategory_absent.
  - apply deleteNote_removed.
Qed.

Lemma C6_absent_id_witness :
  fk_ok demo_db = true
  /\ getNote "nope" demo_db = (demo_db, Ok None)
  /\ deleteCategory "nope" demo_db = (demo_db, Ok false).
Proof.
  pose proof (C6_absent_id_is_harmless demo_db "nope" eq_refl) as (Hn & Hc & _).
  split; [reflexivity|]. split.
  - apply (Hn eq_refl).
  - apply (Hc eq_refl).
Defined.

(** * updateCategory *)

Lemma updateCategory_merge (db : Db) (id : string) (u : PartialCategory) :
  has_category id db = true ->
  partial_category_is_empty u = false ->
  exists db' old,
    getCategory id db = (db, Ok (Some old))
    /\ updateCategory id u db =
         (db', Ok (Some {| cat_id := cat_id old;
                           cat_name := default (cat_name old) (pc_name u);
                           cat_color := default (cat_color old) (pc_color u);
                           cat_createdAt := cat_createdAt old |}))
    /\ getCategory id db' =
         (db', Ok (Some {| cat_id := cat_id old;
                           cat_name := default (cat_name old) (pc_name u);
                           cat_color := default (cat_color old) (pc_color u);
                           cat_createdAt := cat_createdAt old |}))
    /\ notes db' = notes db.
Proof.
  intros Hid Hu.
  destruct (getCategory_present id db Hid) as (row & Hfirst & Hin & Hrow & Hget).
  eexists. exists (category_fromDriver row). split; [exact Hget|].
  unfold updateCategory, bind. rewrite Hget.
  unfold update_category_where_id, ret. rewrite Hu. split; [reflexivity|].
  split; [|reflexivity].
  unfold getCategory, read. f_equal. f_equal. cbn [categories].
  rewrite (first_where_updated (fun c => String.eqb (crow_id c) id) (set_category u))
    by reflexivity.
  rewrite Hfirst. reflexivity.
Qed.

(** C7, at the empty partial. updateCategory computes the merged record and
    then hands the empty object to [db.update(categories).set(...)], which
    throws: for an existing id the call faults instead of returning the
    record, and the store is unchanged. *)
Theorem C7_updateCategory_empty_partial_throws (db : Db) (id : string) :
  has_category id db = true ->
  updateCategory id empty_partial db = (db, Throw NoValuesToSet).
Proof.
  intros Hid.
  destruct (getCategory_present id db Hid) as (row & _ & _ & _ & Hget).
  unfold updateCategory, bind. now rewrite Hget.
Qed.

Lemma C7_empty_partial_witness :
  has_category "u1" demo_db = true
  /\ updateCategory "u1" empty_partial demo_db = (demo_db, Throw NoValuesToSet).
Proof.
  split; [reflexivity|].
  apply (C7_updateCategory_empty_partial_throws demo_db "u1"). reflexivity.
Defined.

(** * createNote, getNote, updateNote *)

Section note_facts.

Implicit Types (db : Db) (id : string) (row : NoteRow) (note : Note).

Lemma getNote_present id db :
  has_note id db = true ->
  exists row,
    first_where (fun n => String.eqb (nrow_id n) id) (notes db) = Some row
    /\ In row (notes db) /\ nrow_id row = id
    /\ getNote id db =
         (db, match note_fromDriver row with
              | Ok note => Ok (Some note)
              | Throw e => Throw e
              end).
Proof.
  intros H. apply first_where_hit in H as (row & Hrow & Hin & Hid).
  exists row. apply String.eqb_eq in Hid.
  unfold getNote, bind, read, lift, ret. rewrite Hrow.
  repeat split; auto. now destruct (note_fromDriver row).
Qed.

(** What getNote found is a decoded row of the table. *)
Lemma getNote_Some id db note :
  getNote id db = (db, Ok (Some note)) ->
  exists row,
    first_where (fun n => String.eqb (nrow_id n) id) (notes db) = Some row
    /\ nrow_id row = id
    /\ note_fromDriver row = Ok note.
Proof.
  unfold getNote, bind, read, lift, ret.
  destruct (first_where _ (notes db)) as [row|] eqn:Hrow; [|discriminate].
  intros H. exists row. split; [reflexivity|].
  apply first_where_Some in Hrow as [_ Hid]. apply String.eqb_eq in Hid.
  split; [assumption|].
  destruct (note_fromDriver row); [|discriminate]. now injection H as ->.
Qed.

Lemma createNote_ok (ins : InsertNote) id (now : Z) db :
  has_note id db = false ->
  has_category (in_categoryId ins) db = true ->
  createNote ins id now db =
    ({| categories := categories db;
        notes := notes db ++
          [{| nrow_id := id;
              nrow_title := in_title ins;
              nrow_content := or_else (in_content ins) "";
              nrow_category_id := in_categoryId ins;
              nrow_tags := tags_toDriver (default [] (in_tags ins));
              nrow_created_at := timestamp_toDriver now;
              nrow_updated_at := timestamp_toDriver now |}] |},
     Ok {| note_id := id;
           note_title := in_title ins;
           note_content := or_else (in_content ins) "";
           note_categoryId := in_categoryId ins;
           note_tags := default [] (in_tags ins);
           note_createdAt := now;
           note_updatedAt := now |}).
Proof.
  intros Hid Hcat. unfold createNote, bind, insert_note, ret.
  cbn [nrow_id nrow_category_id note_id note_categoryId]. now rewrite Hid, Hcat.
Qed.

End note_facts.

(** C4. Tags survive the round trip through the table: a note created with
    tags L (any list of strings, duplicates and all) is read back by getNote
    with tags L, in the same order. *)
Theorem C4_tags_round_trip (db : Db) (ins : InsertNote) (id : string) (now : Z) :
  has_note id db = false ->
  has_category (in_categoryId ins) db = true ->
  exists db' created stored,
    createNote ins id now db = (db', Ok created)
    /\ getNote id db' = (db', Ok (Some stored))
    /\ note_tags created = default [] (in_tags ins)
    /\ note_tags stored = default [] (in_tags ins)
    /\ note_id stored = id
    /\ note_title stored = in_title ins
    /\ note_categoryId stored = in_categoryId ins.
Proof.
  intros Hid Hcat. do 3 eexists. split; [now apply createNote_ok|].
  split.
  - unfold getNote, bind, read. cbn [notes].
    rewrite first_where_appended.
    + unfold lift, note_fromDriver. cbn [nrow_tags]. rewrite tags_roundtrip. reflexivity.
    + exact Hid.
    + apply String.eqb_refl.
  - repeat split.
Qed.

Lemma C4_tags_round_trip_witness :
  exists db' stored,
    fst (createNote demo_note "n2" 7000 demo_db) = db'
    /\ getNote "n2" db' = (db', Ok (Some stored))
    /\ note_tags stored = ["a"; "b"].
Proof.
  destruct (C4_tags_round_trip demo_db demo_note "n2" 7000 eq_refl eq_refl)
    as (db' & created & stored & Hcreate & Hget & _ & Htags & _).
  exists db', stored. rewrite Hcreate. auto.
Defined.

Section updateNote_facts.

Variables (db : Db) (id : string) (existing : Note) (u : UpdateNote) (now : Z).
Hypothesis Hget : getNote id db = (db, Ok (Some existing)).
Hypothesis Hparent : forall c, un_categoryId u = Some c -> has_category c db = true.

Let updateForDb : NoteSet :=
  {| ns_updated_at := timestamp_toDriver now;
     ns_title := un_title u;
     ns_content := un_content u;
     ns_category_id := un_categoryId u;
     ns_tags := tags_toDriver <$> un_tags u |}.

Let updated_db : Db :=
  {| categories := categories db;
     notes := map (fun r => if String.eqb (nrow_id r) id then set_note updateForDb r else r)
                  (notes db) |}.

Lemma updateNote_run :
  updateNote id u now db = (updated_db, Ok (Some (merge_note existing u now))).
Proof.
  unfold updateNote, bind. rewrite Hget.
  unfold update_note_where_id, ret, merge_note, updated_db, updateForDb.
  cbn [ns_category_id note_updatedAt].
  destruct (un_categoryId u) as [c|] eqn:Hc; [|reflexivity].
  rewrite (Hparent c eq_refl), andb_false_r. reflexivity.
Qed.

Lemma updateNote_stored :
  getNote id updated_db = (updated_db, Ok (Some (merge_note existing u (whole_seconds now)))).
Proof.
  destruct (getNote_Some _ _ _ Hget) as (row & Hrow & Hid & Hdec).
  unfold getNote, bind, read. cbn [notes updated_db].
  rewrite (first_where_updated (fun n => String.eqb (nrow_id n) id) (set_note updateForDb))
    by reflexivity.
  rewrite Hrow. cbn [fmap option_fmap option_map].
  unfold lift, ret. f_equal.
  unfold note_fromDriver in *. cbn [set_note nrow_tags updateForDb ns_tags].
  destruct (tags_fromDriver (nrow_tags row)) as [tags|] eqn:Htags; [|discriminate].
  injection Hdec as <-.
  unfold merge_note.
  destruct (un_tags u) as [t|];
    cbv [default from_option Datatypes.id fmap option_fmap option_map].
  - rewrite tags_roundtrip. reflexivity.
  - rewrite Htags. reflexivity.
Qed.

Lemma existing_whole_seconds : exists sec, note_updatedAt existing = sec * 1000.
Proof.
  destruct (getNote_Some _ _ _ Hget) as (row & _ & _ & Hdec).
  unfold note_fromDriver in Hdec. destruct (tags_fromDriver _); [|discriminate].
  injection Hdec as <-. now exists (nrow_updated_at row).
Qed.

End updateNote_facts.

(** C3, as the code has it. A title-only update of an existing note leaves
    content, categoryId and tags as they were, in the returned record and in
    the store. The returned record carries the current instant as updatedAt;
    the table keeps whole seconds, so the stored updatedAt is that instant
    rounded down to the second: it does not go back when the clock has not,
    and it grows strictly once a full second separates the update from the
    previous value. Whatever the partial input, a field that is present
    replaces the old value and a field that is absent keeps it. An absent id
    gives not-found. *)
Theorem C3_updateNote_title_only (db : Db) (id title : string) (now : Z) :
  (forall existing,
      getNote id db = (db, Ok (Some existing)) ->
      exists db' returned stored,
        updateNote id (title_only title) now db = (db', Ok (Some returned))
        /\ getNote id db' = (db', Ok (Some stored))
        /\ returned = merge_note existing (title_only title) now
        /\ stored = merge_note existing (title_only title) (whole_seconds now)
        /\ note_title stored = title
        /\ note_content stored = note_content existing
        /\ note_categoryId stored = note_categoryId existing
        /\ note_tags stored = note_tags existing
        /\ note_updatedAt returned = now
        /\ (note_updatedAt existing <= now ->
            note_updatedAt existing <= note_updatedAt stored)
        /\ (note_updatedAt existing + 1000 <= now ->
            note_updatedAt existing < note_updatedAt stored))
  /\ (forall u existing,
        getNote id db = (db, Ok (Some existing)) ->
        (forall c, un_categoryId u = Some c -> has_category c db = true) ->
        exists db',
          updateNote id u now db = (db', Ok (Some (merge_note existing u now)))
          /\ getNote id db' = (db', Ok (Some (merge_note existing u (whole_seconds now)))))
  /\ (forall u, has_note id db = false -> updateNote id u now db = (db, Ok None)).
Proof.
  split; [|split].
  - intros existing Hget.
    assert (Hparent : forall c, un_categoryId (title_only title) = Some c ->
                                has_category c db = true) by discriminate.
    do 3 eexists.
    split; [exact (updateNote_run db id existing _ now Hget Hparent)|].
    split; [exact (updateNote_stored db id existing _ now Hget)|].
    repeat split.
    + destruct (existing_whole_seconds db id existing Hget) as [sec Hsec].
      cbn [merge_note note_updatedAt]. unfold whole_seconds, timestamp_fromDriver, timestamp_toDriver.
      rewrite Hsec. intros Hle.
      apply Z.mul_le_mono_nonneg_r; [lia|]. apply Z.div_le_lower_bound; lia.
    + destruct (existing_whole_seconds db id existing Hget) as [sec Hsec].
      cbn [merge_note note_updatedAt]. unfold whole_seconds, timestamp_fromDriver, timestamp_toDriver.
      rewrite Hsec. intros Hle.
      assert (sec + 1 <= now / 1000) by (apply Z.div_le_lower_bound; lia). lia.
  - intros u existing Hget Hparent. eexists. split.
    + exact (updateNote_run db id existing u now Hget Hparent).
    + exact (updateNote_stored db id existing u now Hget).
  - intros u. apply updateNote_absent.
Qed.

Lemma C3_updateNote_title_only_witness :
  exists db' stored,
    getNote "n1" db' = (db', Ok (Some stored))
    /\ note_title stored = "X"
    /\ note_tags stored = ["a"; "b"]
    /\ note_updatedAt stored = 9000.
Proof.
  destruct (C3_updateNote_title_only demo_db "n1" "X" 9500) as [Hpresent _].
  destruct (Hpresent _ eq_refl)
    as (db' & returned & stored & _ & Hget & _ & Hstored & Htitle & _).
  exists db', stored. split; [exact Hget|]. rewrite Hstored. repeat split.
Defined.

(** C3, as stated, fails: half a second after its creation the note is
    updated with only a title, and the updatedAt read back is the one it had. *)
Lemma C3_updatedAt_not_strict :
  exists before after,
    snd (getNote "n1" demo_db) = Ok (Some before)
    /\ snd (getNote "n1" (fst (updateNote "n1" (title_only "X") 5500 demo_db))) = Ok (Some after)
    /\ note_updatedAt before < 5500
    /\ ~ (note_updatedAt before < note_updatedAt after).
Proof.
  do 2 eexists. split; [vm_compute; reflexivity|]. split; [vm_compute; reflexivity|].
  cbn. lia.
Qed.

(** * Invariants of the store *)

Section preserves_facts.

Context (I : Db -> Prop).

Lemma preserves_ret {A} (a : A) : preserves I (ret a).
Proof. intros db H. exact H. Qed.

Lemma preserves_read {A} (f : Db -> A) : preserves I (read f).
Proof. intros db H. exact H. Qed.

Lemma preserves_lift {A} (r : res A) : preserves I (lift r).
Proof. intros db H. exact H. Qed.

Lemma preserves_bind {A B} (m : M A) (k : A -> M B) :
  preserves I m -> (forall a, preserves I (k a)) -> preserves I (bind m k).
Proof.
  intros Hm Hk db H. unfold bind. specialize (Hm db H).
  destruct (m db) as [db' [a|e]]; cbn [fst] in *.
  - now apply Hk.
  - exact Hm.
Qed.

Lemma preserves_for_each {A} (body : A -> M unit) (items : list A) :
  (forall x, preserves I (body x)) -> preserves I (for_each body items).
Proof.
  intros Hbody. induction items as [|x items IH]; cbn [for_each].
  - apply preserves_ret.
  - apply preserves_bind; auto.
Qed.

End preserves_facts.

Section foreign_key.

Lemma fk_ok_forall (db : Db) :
  fk_ok db = true <->
  forall n, In n (notes db) -> has_category (nrow_category_id n) db = true.
Proof. unfold fk_ok. apply forallb_forall. Qed.

Lemma has_category_updated (id id' : string) (u : PartialCategory) (rows : list CategoryRow) (ns : list NoteRow) :
  has_category id'
    {| categories := map (fun r => if String.eqb (crow_id r) id then set_category u r else r) rows;
       notes := ns |}
  = existsb (fun c => String.eqb (crow_id c) id') rows.
Proof.
  unfold has_category. cbn [categories].
  induction rows as [|r rows IH]; [reflexivity|].
  cbn [map existsb]. rewrite IH. f_equal.
  now destruct (String.eqb (crow_id r) id).
Qed.

Lemma fk_insert_category (r : CategoryRow) : preserves FkOk (insert_category r).
Proof.
  intros db H. unfold insert_category.
  destruct (has_category (crow_id r) db); [exact H|].
  cbn [fst]. apply fk_ok_forall. intros n Hn. cbn [notes] in Hn.
  apply (proj1 (fk_ok_forall db) H) in Hn.
  unfold has_category in *. cbn [categories]. rewrite existsb_app, Hn. reflexivity.
Qed.

Lemma fk_update_category (id : string) (u : PartialCategory) :
  preserves FkOk (update_category_where_id id u).
Proof.
  intros db H. unfold update_category_where_id.
  destruct (partial_category_is_empty u); [exact H|].
  cbn [fst]. apply fk_ok_forall. intros n Hn. cbn [notes] in Hn.
  rewrite has_category_updated. now apply (proj1 (fk_ok_forall db) H).
Qed.

Lemma fk_delete_notes_where_category (id : string) :
  preserves FkOk (delete_notes_where_category id).
Proof.
  intros db H. cbn [fst delete_notes_where_category].
  apply fk_ok_forall. intros n Hn. cbn [notes] in Hn.
  apply filter_In in Hn as [Hn _]. now apply (proj1 (fk_ok_forall db) H).
Qed.

Lemma fk_delete_notes_where_id (id : string) :
  preserves FkOk (delete_notes_where_id id).
Proof.
  intros db H. cbn [fst delete_notes_where_id].
  apply fk_ok_forall. intros n Hn. cbn [notes] in Hn.
  apply filter_In in Hn as [Hn _]. now apply (proj1 (fk_ok_forall db) H).
Qed.

(** The cascade is what keeps the foreign key when a category goes. *)
Lemma fk_delete_categories_where_id (id : string) :
  preserves FkOk (delete_categories_where_id id).
Proof.
  intros db H. cbn [fst delete_categories_where_id].
  apply fk_ok_forall. intros n Hn. cbn [notes] in Hn.
  assert (Hparent : In n (notes db) /\ (nrow_category_id n <> id \/ has_category id db = false)).
  { destruct (List.filter _ (categories db)) as [|c hit] eqn:Hhit.
    - split; [exact Hn|]. right. apply not_true_iff_false. intros Hex.
      apply has_category_In in Hex as (c & Hc & Hid).
      assert (Hin : In c (List.filter (fun c => String.eqb (crow_id c) id) (categories db))).
      { apply filter_In. split; [exact Hc|]. now apply String.eqb_eq. }
      rewrite Hhit in Hin. contradiction.
    - apply filter_In in Hn as [Hn Hne]. split; [exact Hn|]. left.
      now apply negb_true_iff, String.eqb_neq in Hne. }
  destruct Hparent as [Hin Hne].
  apply (proj1 (fk_ok_forall db) H) in Hin.
  apply has_category_In in Hin as (c & Hc & Hid).
  apply has_category_In. exists c. split; [|exact Hid].
  cbn [categories]. apply filter_In. split; [exact Hc|].
  apply negb_true_iff, String.eqb_neq. intros Heq.
  destruct Hne as [Hne|Hne].
  - congruence.
  - assert (has_category id db = true) by (apply has_category_In; eauto). congruence.
Qed.

Lemma fk_insert_note (r : NoteRow) : preserves FkOk (insert_note r).
Proof.
  intros db H. unfold insert_note.
  destruct (has_note (nrow_id r) db); [exact H|].
  destruct (has_category (nrow_category_id r) db) eqn:Hcat; [|exact H].
  cbn [fst negb]. apply fk_ok_forall. intros n Hn. cbn [notes] in Hn.
  apply in_app_iff in Hn as [Hn|[<-|[]]].
  - now apply (proj1 (fk_ok_forall db) H).
  - exact Hcat.
Qed.

Lemma fk_update_note (id : string) (u : NoteSet) :
  preserves FkOk (update_note_where_id id u).
Proof.
  intros db H. unfold update_note_where_id.
  assert (Hkeep : forall c,
             ns_category_id u = Some c -> has_note id db && negb (has_category c db) = false ->
             FkOk {| categories := categories db;
                     notes := map (fun r => if String.eqb (nrow_id r) id then set_note u r else r)
                                  (notes db) |}).
  { intros c Hc Hguard. apply fk_ok_forall. intros n Hn. cbn [notes] in Hn.
    apply in_map_iff in Hn as (r & <- & Hr).
    pose proof (proj1 (fk_ok_forall db) H r Hr) as Hparent.
    destruct (String.eqb (nrow_id r) id) eqn:Hid; [|exact Hparent].
    cbn [set_note nrow_category_id]. rewrite Hc. cbn.
    assert (Hnote : has_note id db = true).
    { apply has_note_In. exists r. split; [exact Hr|]. now apply String.eqb_eq. }
    rewrite Hnote in Hguard. now apply negb_false_iff in Hguard. }
  destruct (ns_category_id u) as [c|] eqn:Hc.
  - destruct (has_note id db && negb (has_category c db)) eqn:Hguard; [exact H|].
    cbn [fst]. now apply (Hkeep c).
  - cbn [fst]. apply fk_ok_forall. intros n Hn. cbn [notes] in Hn.
    apply in_map_iff in Hn as (r & <- & Hr).
    pose proof (proj1 (fk_ok_forall db) H r Hr) as Hparent.
    destruct (String.eqb (nrow_id r) id); [|exact Hparent].
    cbn [set_note nrow_category_id]. rewrite Hc. exact Hparent.
Qed.

Lemma fk_seedDatabase u1 u2 u3 u4 t1 t2 t3 t4 :
  preserves FkOk (seedDatabase u1 u2 u3 u4 t1 t2 t3 t4).
Proof.
  unfold seedDatabase. apply preserves_bind; [apply preserves_read|].
  intros existing. destruct (length existing =? 0)%nat.
  - apply preserves_for_each. intros c. apply fk_insert_category.
  - apply preserves_ret.
Qed.

Lemma fk_createCategory c id now : preserves FkOk (createCategory c id now).
Proof.
  unfold createCategory. apply preserves_bind; [apply fk_insert_category|].
  intros _. apply preserves_ret.
Qed.

Lemma fk_updateCategory id u : preserves FkOk (updateCategory id u).
Proof.
  unfold updateCategory, getCategory. apply preserves_bind; [apply preserves_read|].
  intros [existing|]; [|apply preserves_ret].
  apply preserves_bind; [apply fk_update_category|]. intros _. apply preserves_ret.
Qed.

Lemma fk_deleteCategory id : preserves FkOk (deleteCategory id).
Proof.
  unfold deleteCategory.
  apply preserves_bind; [apply fk_delete_notes_where_category|]. intros _.
  apply preserves_bind; [apply fk_delete_categories_where_id|]. intros changes.
  apply preserves_ret.
Qed.

Lemma fk_createNote n id now : preserves FkOk (createNote n id now).
Proof.
  unfold createNote. apply preserves_bind; [apply fk_insert_note|].
  intros _. apply preserves_ret.
Qed.

Lemma fk_getNote id : preserves FkOk (getNote id).
Proof.
  unfold getNote. apply preserves_bind; [apply preserves_read|].
  intros [row|]; [|apply preserves_ret].
  apply preserves_bind; [apply preserves_lift|]. intros note. apply preserves_ret.
Qed.

Lemma fk_updateNote id u now : preserves FkOk (updateNote id u now).
Proof.
  unfold updateNote. apply preserves_bind; [apply fk_getNote|].
  intros [existing|]; [|apply preserves_ret].
  apply preserves_bind; [apply fk_update_note|]. intros _. apply preserves_ret.
Qed.

Lemma fk_deleteNote id : preserves FkOk (deleteNote id).
Proof.
  unfold deleteNote. apply preserves_bind; [apply fk_delete_notes_where_id|].
  intros changes. apply preserves_ret.
Qed.

Lemma fk_run (c : call) : forall db, fk_ok db = true -> fk_ok (run c db) = true.
Proof.
  destruct c; cbn [run].
  - apply fk_seedDatabase.
  - apply fk_createCategory.
  - apply fk_updateCategory.
  - apply fk_deleteCategory.
  - apply fk_createNote.
  - apply fk_updateNote.
  - apply fk_deleteNote.
Qed.

End foreign_key.

(** C5. In every state reached from a seeded store through the repository,
    every note's categoryId names an existing category; each call, the
    writes createNote, updateNote and deleteCategory among them, keeps it so
    whether it returns or throws. *)
Theorem C5_no_orphan_notes :
  (forall db, reachable db ->
     forall n, In n (notes db) ->
       exists c, In c (categories db) /\ crow_id c = nrow_category_id n)
  /\ (forall c db, fk_ok db = true -> fk_ok (run c db) = true).
Proof.
  split; [|exact fk_run].
  intros db Hreach.
  assert (Hfk : fk_ok db = true).
  { induction Hreach as [u1 u2 u3 u4 t1 t2 t3 t4|c db _ IH].
    - now apply fk_seedDatabase.
    - now apply fk_run. }
  intros n Hn. apply has_category_In. now apply (proj1 (fk_ok_forall db) Hfk).
Qed.

Lemma demo_db_reachable : reachable demo_db.
Proof.
  apply (reachable_step (CreateNote demo_note "n1" 5000)).
  apply reachable_seeded.
Qed.

Lemma C5_no_orphan_notes_witness :
  exists c, In c (categories demo_db) /\ crow_id c = "u1".
Proof.
  destruct (notes demo_db) as [|n rest] eqn:Hnotes; [discriminate Hnotes|].
  injection Hnotes as Hn _.
  assert (Hin : In n (notes demo_db)) by (rewrite <- Hn; left; reflexivity).
  destruct (proj1 C5_no_orphan_notes demo_db demo_db_reachable n Hin) as (c & Hc & Hid).
  exists c. split; [exact Hc|]. rewrite Hid, <- Hn. reflexivity.
Defined.

Section well_formed.

Lemma tags_ok_forall (db : Db) :
  tags_ok db = true <->
  forall n, In n (notes db) -> exists tags, tags_fromDriver (nrow_tags n) = Ok tags.
Proof.
  unfold tags_ok. rewrite forallb_forall. split; intros H n Hn; specialize (H n Hn).
  - destruct (tags_fromDriver (nrow_tags n)) as [tags|]; [eauto|discriminate].
  - destruct H as [tags ->]. reflexivity.
Qed.

(** A call that adds no note row keeps the tags cells decodable. *)
Lemma tags_ok_incl (db db' : Db) :
  (forall n, In n (notes db') -> In n (notes db)) -> TagsOk db -> TagsOk db'.
Proof.
  intros Hincl H. apply tags_ok_forall. intros n Hn.
  apply (proj1 (tags_ok_forall db) H). auto.
Qed.

Lemma tags_insert_category r : preserves TagsOk (insert_category r).
Proof.
  intros db. apply tags_ok_incl. unfold insert_category.
  destruct (has_category (crow_id r) db); auto.
Qed.

Lemma tags_update_category id u : preserves TagsOk (update_category_where_id id u).
Proof.
  intros db. apply tags_ok_incl. unfold update_category_where_id.
  destruct (partial_category_is_empty u); auto.
Qed.

Lemma tags_delete_notes_where_category id : preserves TagsOk (delete_notes_where_category id).
Proof.
  intros db. apply tags_ok_incl. cbn. intros n Hn. now apply filter_In in Hn.
Qed.

Lemma tags_delete_notes_where_id id : preserves TagsOk (delete_notes_where_id id).
Proof.
  intros db. apply tags_ok_incl. cbn. intros n Hn. now apply filter_In in Hn.
Qed.

Lemma tags_delete_categories_where_id id : preserves TagsOk (delete_categories_where_id id).
Proof.
  intros db. apply tags_ok_incl. cbn.
  destruct (List.filter _ (categories db)); [auto|].
  intros n Hn. now apply filter_In in Hn.
Qed.

Lemma tags_insert_note r tags :
  nrow_tags r = tags_toDriver tags -> preserves TagsOk (insert_note r).
Proof.
  intros Hr db H. unfold insert_note.
  destruct (has_note (nrow_id r) db); [exact H|].
  destruct (negb (has_category (nrow_category_id r) db)); [exact H|].
  cbn [fst]. apply tags_ok_forall. intros n Hn. cbn [notes] in Hn.
  apply in_app_iff in Hn as [Hn|[<-|[]]].
  - now apply (proj1 (tags_ok_forall db) H).
  - exists tags. rewrite Hr. apply tags_roundtrip.
Qed.

Lemma tags_update_note id u (tags : option (list string)) :
  ns_tags u = tags_toDriver <$> tags -> preserves TagsOk (update_note_where_id id u).
Proof.
  intros Hu db H.
  assert (Hset : TagsOk {| categories := categories db;
                           notes := map (fun r => if String.eqb (nrow_id r) id
                                                  then set_note u r else r) (notes db) |}).
  { apply tags_ok_forall. intros n Hn. cbn [notes] in Hn.
    apply in_map_iff in Hn as (r & <- & Hr).
    pose proof (proj1 (tags_ok_forall db) H r Hr) as Hold.
    destruct (String.eqb (nrow_id r) id); [|exact Hold].
    cbn [set_note nrow_tags]. rewrite Hu.
    destruct tags as [t|]; cbn; [|exact Hold].
    exists t. apply tags_roundtrip. }
  unfold update_note_where_id.
  destruct (ns_category_id u) as [c|]; [|exact Hset].
  destruct (has_note id db && negb (has_category c db)); [exact H | exact Hset].
Qed.

Lemma tags_run (c : call) : forall db, TagsOk db -> TagsOk (run c db).
Proof.
  destruct c; cbn [run].
  - unfold seedDatabase. apply preserves_bind; [apply preserves_read|].
    intros existing. destruct (length existing =? 0)%nat; [|apply preserves_ret].
    apply preserves_for_each. intros x. apply tags_insert_category.
  - unfold createCategory. apply preserves_bind; [apply tags_insert_category|].
    intros _. apply preserves_ret.
  - unfold updateCategory, getCategory. apply preserves_bind; [apply preserves_read|].
    intros [existing|]; [|apply preserves_ret].
    apply preserves_bind; [apply tags_update_category|]. intros _. apply preserves_ret.
  - unfold deleteCategory.
    apply preserves_bind; [apply tags_delete_notes_where_category|]. intros _.
    apply preserves_bind; [apply tags_delete_categories_where_id|]. intros changes.
    apply preserves_ret.
  - unfold createNote. apply preserves_bind; [|intros _; apply preserves_ret].
    now apply (tags_insert_note _ (default [] (in_tags n))).
  - unfold updateNote, getNote. apply preserves_bind.
    { apply preserves_bind; [apply preserves_read|].
      intros [row|]; [|apply preserves_ret].
      apply preserves_bind; [apply preserves_lift|]. intros note. apply preserves_ret. }
    intros [existing|]; [|apply preserves_ret].
    apply preserves_bind; [|intros _; apply preserves_ret].
    now apply (tags_update_note _ _ (un_tags u)).
  - unfold deleteNote. apply preserves_bind; [apply tags_delete_notes_where_id|].
    intros changes. apply preserves_ret.
Qed.

Lemma map_id_filter (p : CategoryRow -> bool) (rows : list CategoryRow) :
  NoDup (map crow_id rows) -> NoDup (map crow_id (List.filter p rows)).
Proof.
  induction rows as [|r rows IH]; [auto|].
  cbn [map List.filter]. intros H. apply NoDup_cons in H as [Hr H].
  destruct (p r); [|auto]. cbn [map]. apply NoDup_cons. split; [|auto].
  intros Hin. apply Hr. apply list_elem_of_In in Hin. apply list_elem_of_In.
  apply in_map_iff in Hin as (c & Hc & Hin). apply filter_In in Hin as [Hin _].
  apply in_map_iff. eauto.
Qed.

Lemma unique_insert_category r : preserves CategoryIdsUnique (insert_category r).
Proof.
  intros db H. unfold insert_category, CategoryIdsUnique in *.
  destruct (has_category (crow_id r) db) eqn:Hr; [exact H|].
  cbn [fst categories]. rewrite map_app. apply NoDup_app. split; [exact H|].
  split; [|apply NoDup_singleton].
  intros x Hx Hx'. apply list_elem_of_In in Hx, Hx'. destruct Hx' as [<-|[]].
  apply in_map_iff in Hx as (c & Hc & Hin).
  assert (has_category (crow_id r) db = true) by (apply has_category_In; eauto).
  congruence.
Qed.

Lemma unique_update_category id u : preserves CategoryIdsUnique (update_category_where_id id u).
Proof.
  intros db H. unfold update_category_where_id, CategoryIdsUnique in *.
  destruct (partial_category_is_empty u); [exact H|].
  cbn [fst categories]. rewrite map_map.
  erewrite map_ext; [exact H|].
  intros r. now destruct (String.eqb (crow_id r) id).
Qed.

Lemma unique_same_categories {A} (m : M A) :
  (forall db, categories (fst (m db)) = categories db) -> preserves CategoryIdsUnique m.
Proof. intros Hm db H. unfold CategoryIdsUnique. now rewrite Hm. Qed.

Lemma unique_run (c : call) : forall db, CategoryIdsUnique db -> CategoryIdsUnique (run c db).
Proof.
  destruct c; cbn [run].
  - unfold seedDatabase. apply preserves_bind; [apply preserves_read|].
    intros existing. destruct (length existing =? 0)%nat; [|apply preserves_ret].
    apply preserves_for_each. intros x. apply unique_insert_category.
  - unfold createCategory. apply preserves_bind; [apply unique_insert_category|].
    intros _. apply preserves_ret.
  - unfold updateCategory, getCategory. apply preserves_bind; [apply preserves_read|].
    intros [existing|]; [|apply preserves_ret].
    apply preserves_bind; [apply unique_update_category|]. intros _. apply preserves_ret.
  - unfold deleteCategory.
    apply preserves_bind; [now apply unique_same_categories|]. intros _.
    apply preserves_bind; [|intros changes; apply preserves_ret].
    intros db H. cbn. now apply map_id_filter.
  - unfold createNote. apply preserves_bind; [|intros _; apply preserves_ret].
    apply unique_same_categories. intros db. unfold insert_note.
    destruct (has_note _ db); [reflexivity|].
    now destruct (negb (has_category _ db)).
  - unfold updateNote, getNote. apply preserves_bind.
    { apply preserves_bind; [apply preserves_read|].
      intros [row|]; [|apply preserves_ret].
      apply preserves_bind; [apply preserves_lift|]. intros note. apply preserves_ret. }
    intros [existing|]; [|apply preserves_ret].
    apply preserves_bind; [|intros _; apply preserves_ret].
    apply unique_same_categories. intros db. unfold update_note_where_id.
    cbn [ns_category_id]. destruct (un_categoryId u) as [c'|]; [|reflexivity].
    now destruct (has_note id db && negb (has_category c' db)).
  - unfold deleteNote. apply preserves_bind; [now apply unique_same_categories|].
    intros changes. apply preserves_ret.
Qed.

(** What the statements below assume of a store holds of every store the
    repository can produce. *)
Lemma reachable_well_formed (db : Db) :
  reachable db -> FkOk db /\ TagsOk db /\ CategoryIdsUnique db.
Proof.
  induction 1 as [u1 u2 u3 u4 t1 t2 t3 t4|c db _ (Hfk & Htags & Huniq)].
  - split; [|split].
    + now apply fk_seedDatabase.
    + now apply (tags_run (Seed u1 u2 u3 u4 t1 t2 t3 t4) empty_db).
    + apply (unique_run (Seed u1 u2 u3 u4 t1 t2 t3 t4) empty_db). constructor.
  - split; [|split].
    + now apply fk_run.
    + now apply tags_run.
    + now apply unique_run.
Qed.

End well_formed.

(** * getCategoryNoteCounts *)

Section counts.

Implicit Types (counts : gmap string nat) (rows : list NoteRow) (id : string).

Lemma referencing_snoc id rows n :
  referencing id (rows ++ [n]) =
    (referencing id rows + if String.eqb (nrow_category_id n) id then 1 else 0)%nat.
Proof.
  unfold referencing. rewrite List.filter_app, length_app. cbn [List.filter].
  now destruct (String.eqb (nrow_category_id n) id).
Qed.

Lemma foldl_snoc {A B} (f : A -> B -> A) (a : A) (l : list B) (x : B) :
  foldl f a (l ++ [x]) = f (foldl f a l) x.
Proof. revert a. induction l as [|y l IH]; intros a; cbn; [reflexivity | apply IH]. Qed.

(** The object built by the loop holds, under each key that occurs, the
    number of notes with that categoryId, and no other key. *)
Lemma counts_lookup rows id :
  foldl count_note ∅ rows !! id =
    if (referencing id rows =? 0)%nat then None else Some (referencing id rows).
Proof.
  induction rows as [|n rows IH] using rev_ind; [apply lookup_empty|].
  rewrite foldl_snoc, referencing_snoc. unfold count_note at 1.
  destruct (String.eqb_spec (nrow_category_id n) id) as [->|Hne].
  - rewrite lookup_insert_eq, IH.
    destruct (referencing id rows) as [|k] eqn:Hk; cbn.
    + reflexivity.
    + replace (k + 1 =? 0)%nat with false by (symmetry; apply Nat.eqb_neq; lia).
      reflexivity.
  - rewrite lookup_insert_ne by exact Hne. rewrite IH, Nat.add_0_r. reflexivity.
Qed.

Lemma sum_counts_insert counts id k :
  counts !! id = None -> sum_counts (<[id := k]> counts) = (k + sum_counts counts)%nat.
Proof.
  intros H. unfold sum_counts.
  rewrite map_fold_insert_L; [reflexivity | intros; lia | exact H].
Qed.

Lemma sum_counts_step counts n :
  sum_counts (count_note counts n) = S (sum_counts counts).
Proof.
  unfold count_note. set (id := nrow_category_id n).
  destruct (counts !! id) as [k|] eqn:Hk; cbn [default from_option Datatypes.id].
  - rewrite <- (insert_delete_eq counts id (k + 1)%nat).
    rewrite sum_counts_insert by apply lookup_delete_eq.
    rewrite <- (insert_delete_id counts id k Hk) at 2.
    rewrite sum_counts_insert by apply lookup_delete_eq. lia.
  - rewrite sum_counts_insert by exact Hk. lia.
Qed.

Lemma sum_counts_total rows : sum_counts (foldl count_note ∅ rows) = length rows.
Proof.
  induction rows as [|n rows IH] using rev_ind; [reflexivity|].
  rewrite foldl_snoc, sum_counts_step, IH, length_app. cbn. lia.
Qed.

(** Among categories with distinct ids, a note is counted once. *)
Lemma one_parent (cats : list CategoryRow) (x : string) :
  NoDup (map crow_id cats) -> In x (map crow_id cats) ->
  foldr (fun c acc => ((if String.eqb x (crow_id c) then 1 else 0) + acc)%nat) 0%nat cats = 1%nat.
Proof.
  induction cats as [|c cats IH]; [contradiction|].
  cbn [map foldr]. intros Hnd Hin. apply NoDup_cons in Hnd as [Hc Hnd].
  destruct (String.eqb_spec x (crow_id c)) as [->|Hne].
  - assert (Hzero : forall l, ~ In (crow_id c) (map crow_id l) ->
              foldr (fun c' acc => ((if String.eqb (crow_id c) (crow_id c') then 1 else 0) + acc)%nat)
                    0%nat l = 0%nat).
    { induction l as [|c' l IHl]; [reflexivity|]. cbn [map foldr]. intros Hnot.
      destruct (String.eqb_spec (crow_id c) (crow_id c')) as [Heq|_].
      - exfalso. apply Hnot. left. congruence.
      - rewrite IHl; [reflexivity|]. intros H. apply Hnot. now right. }
    rewrite Hzero; [reflexivity|]. intros H. apply Hc. now apply list_elem_of_In.
  - destruct Hin as [Heq|Hin]; [congruence|]. now rewrite IH.
Qed.

Lemma sum_over_parents (cats : list CategoryRow) rows :
  NoDup (map crow_id cats) ->
  (forall n, In n rows -> In (nrow_category_id n) (map crow_id cats)) ->
  foldr (fun c acc => (referencing (crow_id c) rows + acc)%nat) 0%nat cats = length rows.
Proof.
  intros Hnd. induction rows as [|n rows IH]; intros Hparent.
  - clear. induction cats as [|c cats IH]; [reflexivity|]. cbn [foldr]. now rewrite IH.
  - assert (Hsplit : forall l,
              foldr (fun c acc => (referencing (crow_id c) (n :: rows) + acc)%nat) 0%nat l =
              (foldr (fun c acc => ((if String.eqb (nrow_category_id n) (crow_id c) then 1 else 0) + acc)%nat) 0%nat l
               + foldr (fun c acc => (referencing (crow_id c) rows + acc)%nat) 0%nat l)%nat).
    { induction l as [|c l IHl]; [reflexivity|]. cbn [foldr]. rewrite IHl.
      unfold referencing at 1. cbn [List.filter].
      destruct (String.eqb (nrow_category_id n) (crow_id c)); cbn [length];
        fold (referencing (crow_id c) rows); lia. }
    rewrite Hsplit, one_parent, IH; auto.
    + intros n' Hn'. apply Hparent. now right.
    + apply Hparent. now left.
Qed.

End counts.

(** C8. getCategoryNoteCounts scans the notes table and answers, for every
    categoryId that occurs, the number of notes that reference it (and has
    no entry for an id that does not occur); the counts add up to the number
    of notes, and so does the sum taken over the categories table. *)
Theorem C8_category_note_counts (db : Db) :
  exists counts,
    getCategoryNoteCounts db = (db, Ok counts)
    /\ (forall id, counts !! id =
                   if (notes_in id db =? 0)%nat then None else Some (notes_in id db))
    /\ (forall id, noteCount counts id = notes_in id db)
    /\ sum_counts counts = length (notes db)
    /\ (fk_ok db = true -> CategoryIdsUnique db ->
        sum_over_categories counts db = length (notes db)).
Proof.
  exists (foldl count_note ∅ (notes db)).
  assert (Hcount : forall id, noteCount (foldl count_note ∅ (notes db)) id = notes_in id db).
  { intros id. unfold noteCount, notes_in. rewrite counts_lookup.
    now destruct (referencing id (notes db)). }
  split; [reflexivity|]. split; [intros id; apply counts_lookup|].
  split; [exact Hcount|]. split; [apply sum_counts_total|].
  intros Hfk Huniq. unfold sum_over_categories.
  rewrite <- (sum_over_parents (categories db) (notes db) Huniq).
  - clear -Hcount. induction (categories db) as [|c cats IH]; [reflexivity|].
    cbn [foldr]. now rewrite IH, Hcount.
  - intros n Hn. apply (proj1 (fk_ok_forall db) Hfk) in Hn.
    apply has_category_In in Hn as (c & Hc & Hid).
    apply in_map_iff. eauto.
Qed.

Lemma C8_category_note_counts_witness :
  exists counts,
    getCategoryNoteCounts demo_db = (demo_db, Ok counts)
    /\ noteCount counts "u1" = 1%nat
    /\ sum_over_categories counts demo_db = 1%nat.
Proof.
  destruct (C8_category_note_counts demo_db) as (counts & Hrun & _ & Hcount & _ & Hsum).
  exists counts. split; [exact Hrun|]. split.
  - rewrite Hcount. reflexivity.
  - rewrite Hsum; [reflexivity | reflexivity |].
    apply (proj2 (proj2 (reachable_well_formed demo_db demo_db_reachable))).
Defined.

(** * seedDatabase *)

Lemma seedDatabase_nonempty u1 u2 u3 u4 t1 t2 t3 t4 (db : Db) :
  categories db <> [] -> seedDatabase u1 u2 u3 u4 t1 t2 t3 t4 db = (db, Ok tt).
Proof.
  intros H. unfold seedDatabase, bind, read.
  destruct (categories db) as [|c cats]; [contradiction|]. reflexivity.
Qed.

Lemma distinct_eqb (a b : string) : a <> b -> String.eqb a b = false.
Proof. apply String.eqb_neq. Qed.

(** C9. Seeding happens only on a store without categories. Run on the
    empty store it inserts the four default categories, Work Notes,
    Personal, Ideas and Prompts with their colours, and nothing else, so
    every category has note count 0; run on a store that has a category it
    changes nothing. *)
Theorem C9_seed_once (u1 u2 u3 u4 : string) (t1 t2 t3 t4 : Z) :
  NoDup [u1; u2; u3; u4] ->
  (exists db',
      seedDatabase u1 u2 u3 u4 t1 t2 t3 t4 empty_db = (db', Ok tt)
      /\ categories db' =
           map category_toDriver (defaultCategories u1 u2 u3 u4 t1 t2 t3 t4)
      /\ map (fun c => (crow_id c, crow_name c, crow_color c)) (categories db') =
           [ (u1, "Work Notes", "#3b82f6"); (u2, "Personal", "#10b981");
             (u3, "Ideas", "#ef4444"); (u4, "Prompts", "#8b5cf6") ]
      /\ notes db' = []
      /\ (exists counts,
            getCategoryNoteCounts db' = (db', Ok counts)
            /\ forall id, noteCount counts id = 0%nat)
      /\ forall v1 v2 v3 v4 s1 s2 s3 s4,
           seedDatabase v1 v2 v3 v4 s1 s2 s3 s4 db' = (db', Ok tt))
  /\ (forall db, categories db <> [] ->
        seedDatabase u1 u2 u3 u4 t1 t2 t3 t4 db = (db, Ok tt)).
Proof.
  intros Hnd. split; [|intros db; apply seedDatabase_nonempty].
  apply NoDup_cons in Hnd as [H1 Hnd]. apply NoDup_cons in Hnd as [H2 Hnd].
  apply NoDup_cons in Hnd as [H3 _].
  apply not_elem_of_cons in H1 as [H12 H1]. apply not_elem_of_cons in H1 as [H13 H1].
  apply not_elem_of_cons in H1 as [H14 _].
  apply not_elem_of_cons in H2 as [H23 H2]. apply not_elem_of_cons in H2 as [H24 _].
  apply not_elem_of_cons in H3 as [H34 _].
  apply distinct_eqb in H12, H13, H14, H23, H24, H34.
  eexists. split.
  { unfold seedDatabase, bind, read, insert_category, has_category.
    cbn.
    repeat (unfold bind, ret; cbn; rewrite ?H12, ?H13, ?H14, ?H23, ?H24, ?H34; cbn).
    reflexivity. }
  cbn [categories notes].
  split; [reflexivity|]. split; [reflexivity|]. split; [reflexivity|]. split.
  - eexists. split; [reflexivity|]. intros id. reflexivity.
  - intros. now apply seedDatabase_nonempty.
Qed.

Lemma C9_seed_once_witness :
  map (fun c => (crow_name c, crow_color c)) (categories demo_seeded) =
    [ ("Work Notes", "#3b82f6"); ("Personal", "#10b981");
      ("Ideas", "#ef4444"); ("Prompts", "#8b5cf6") ]
  /\ seedDatabase "u5" "u6" "u7" "u8" 2000 2000 2000 2000 demo_seeded = (demo_seeded, Ok tt).
Proof.
  assert (Hnd : NoDup ["u1"; "u2"; "u3"; "u4"]) by compute_done.
  destruct (C9_seed_once "u1" "u2" "u3" "u4" 1000 1000 1001 1001 Hnd)
    as [(db' & Hrun & Hcats & _ & _ & _ & Hagain) _].
  unfold demo_seeded. rewrite Hrun. cbn [fst]. split.
  - rewrite Hcats. reflexivity.
  - apply Hagain.
Defined.

(** * getNotes *)

#[local] Instance by_updated_at_total : Total by_updated_at.
Proof. intros a b. unfold by_updated_at. lia. Qed.

#[local] Instance by_updated_at_trans : Transitive by_updated_at.
Proof. intros a b c. unfold by_updated_at. lia. Qed.

Section getNotes_facts.

Implicit Types (db : Db) (rows : list NoteRow) (ns : list Note).

Lemma filter_true {A} (p : A -> bool) (l : list A) :
  (forall x, p x = true) -> List.filter p l = l.
Proof.
  intros Hp. induction l as [|x l IH]; [reflexivity|].
  cbn [List.filter]. now rewrite Hp, IH.
Qed.

(** The conjunction drizzle builds is the two filters of [passes]. *)
Lemma and_all_passes (categoryId search : option string) (n : NoteRow) :
  and_all (whereConditions categoryId search) n = passes categoryId search n.
Proof.
  unfold and_all, whereConditions, passes.
  destruct (truthy categoryId), (truthy search); cbn [app forallb eq_categoryId];
    rewrite ?andb_true_r; reflexivity.
Qed.

Lemma select_notes_passes categoryId search db :
  select_notes categoryId search db =
    merge_sort by_updated_at (List.filter (passes categoryId search) (notes db)).
Proof.
  unfold select_notes. f_equal. apply List.filter_ext. apply and_all_passes.
Qed.

Lemma select_notes_In categoryId search db (row : NoteRow) :
  In row (select_notes categoryId search db) <->
  In row (notes db) /\ passes categoryId search row = true.
Proof.
  rewrite select_notes_passes, <- filter_In, <- !list_elem_of_In.
  now rewrite merge_sort_Permutation.
Qed.

Lemma select_notes_length categoryId search db :
  length (select_notes categoryId search db) =
    length (List.filter (passes categoryId search) (notes db)).
Proof.
  rewrite select_notes_passes. apply Permutation_length, merge_sort_Permutation.
Qed.


Lemma notes_fromDriver_total rows :
  (forall r, In r rows -> exists tags, tags_fromDriver (nrow_tags r) = Ok tags) ->
  exists ns, notes_fromDriver rows = Ok ns.
Proof.
  induction rows as [|r rows IH]; intros H; [now exists []|].
  destruct (H r (or_introl eq_refl)) as [tags Htags].
  destruct IH as [ns Hns]; [intros r' Hr'; apply H; now right|].
  cbn [notes_fromDriver]. unfold note_fromDriver. rewrite Htags, Hns. eauto.
Qed.

Lemma notes_fromDriver_cons r rows ns :
  notes_fromDriver (r :: rows) = Ok ns ->
  exists n ns', ns = n :: ns' /\ note_fromDriver r = Ok n /\ notes_fromDriver rows = Ok ns'.
Proof.
  cbn [notes_fromDriver].
  destruct (note_fromDriver r) as [n|]; [|discriminate].
  destruct (notes_fromDriver rows) as [ns'|]; [|discriminate].
  intros [= <-]. eauto.
Qed.

Lemma notes_fromDriver_In rows ns :
  notes_fromDriver rows = Ok ns ->
  forall n, In n ns <-> exists r, In r rows /\ note_fromDriver r = Ok n.
Proof.
  revert ns. induction rows as [|r rows IH]; intros ns H n.
  - injection H as <-. split; [contradiction|]. now intros (r & [] & _).
  - apply notes_fromDriver_cons in H as (n0 & ns' & -> & Hr & Hrows).
    cbn [In]. rewrite (IH ns' Hrows n). split.
    + intros [<-|(r' & Hin & Hr')]; eauto.
    + intros (r' & [<-|Hin] & Hr'); [left; congruence | right; eauto].
Qed.

Lemma notes_fromDriver_length rows ns :
  notes_fromDriver rows = Ok ns -> length ns = length rows.
Proof.
  revert ns. induction rows as [|r rows IH]; intros ns H.
  - now injection H as <-.
  - apply notes_fromDriver_cons in H as (n0 & ns' & -> & _ & Hrows).
    cbn [length]. f_equal. auto.
Qed.




(** On a store whose tags cells decode, getNotes returns unless LIKE
    refuses the pattern. *)
Lemma getNotes_ok categoryId search db :
  tags_ok db = true ->
  like_too_complex categoryId search db = false ->
  exists ns,
    notes_fromDriver (select_notes categoryId search db) = Ok ns
    /\ getNotes categoryId search db = (db, Ok (rev ns)).
Proof.
  intros Htags Hlike.
  destruct (notes_fromDriver_total (select_notes categoryId search db)) as [ns Hns].
  { intros r Hr. apply select_notes_In in Hr as [Hr _].
    now apply (proj1 (tags_ok_forall db) Htags). }
  exists ns. split; [exact Hns|].
  unfold getNotes, bind, all_notes, lift, ret. now rewrite Hlike, Hns.
Qed.


Lemma like_too_complex_percent categoryId db :
  like_too_complex categoryId (Some "%") db = false.
Proof. reflexivity. Qed.





End getNotes_facts.




(** The listing is ordered by the stored updatedAt, which holds whole
    seconds. Two histories that differ in which note was updated last, both
    within one second, leave the same store and so the same listing: the
    order cannot follow the instants of the updates more closely than that. *)
Example same_second_updates :
  let u := title_only "x" in
  let first_n1 := fst (updateNote "n2" u 5900 (fst (updateNote "n1" u 5100 two_notes_db))) in
  let first_n2 := fst (updateNote "n1" u 5900 (fst (updateNote "n2" u 5100 two_notes_db))) in
  first_n1 = first_n2
  /\ getNotes None None first_n1 = getNotes None None first_n2
  /\ exists a b, snd (getNotes None None first_n1) = Ok [a; b].
Proof.
  vm_compute. split; [reflexivity|]. split; [reflexivity|]. eauto.
Qed.

(** The search U+0000 asks for LIKE '%': getNotes returns what it returns
    with no search. A field is searched as far as its first U+0000. *)
Example search_nul :
  getNotes None (Some (String NUL "")) demo_db = getNotes None None demo_db
  /\ like_any "b" {| nrow_id := "n"; nrow_title := String "a" (String NUL "b");
                     nrow_content := ""; nrow_category_id := "u1"; nrow_tags := "[]";
                     nrow_created_at := 5; nrow_updated_at := 5 |} = false.
Proof. split; vm_compute; reflexivity. Qed.

(** C10. The search string reaches LIKE unescaped: with the search "%" and
    no categoryId, getNotes does what it does with no filter at all and
    selects every row of the table, whether or not a field of the row
    contains a percent sign. *)
Theorem C10_percent_matches_all (db : Db) :
  getNotes None (Some "%") db = getNotes None None db
  /\ select_notes None (Some "%") db ≡ₚ notes db
  /\ (forall row, In row (notes db) -> In row (select_notes None (Some "%") db))
  /\ (tags_ok db = true ->
      exists result,
        getNotes None (Some "%") db = (db, Ok result)
        /\ length result = length (notes db)
        /\ forall row, In row (notes db) ->
             exists note, note_fromDriver row = Ok note /\ In note result).
Proof.
  assert (Hall : forall row, passes None (Some "%") row = true).
  { intros row. unfold passes. cbn [truthy andb]. apply like_any_percent. }
  assert (Hsel : select_notes None (Some "%") db = select_notes None None db).
  { rewrite !select_notes_passes. now rewrite !filter_true. }
  split; [|split; [|split]].
  - unfold getNotes, bind, all_notes.
    change (like_too_complex None (Some "%") db) with false.
    change (like_too_complex None None db) with false. now rewrite Hsel.
  - rewrite select_notes_passes, filter_true by exact Hall. apply merge_sort_Permutation.
  - intros row Hrow. apply select_notes_In. auto.
  - intros Htags.
    destruct (getNotes_ok None (Some "%") db Htags eq_refl) as (ns & Hns & Hrun).
    exists (rev ns). split; [exact Hrun|]. split.
    + rewrite length_rev, (notes_fromDriver_length _ _ Hns), select_notes_length.
      now rewrite filter_true.
    + intros row Hrow.
      destruct (proj1 (tags_ok_forall db) Htags row Hrow) as [tags Hrowtags].
      eexists. split.
      * unfold note_fromDriver. rewrite Hrowtags. reflexivity.
      * rewrite <- in_rev. apply (notes_fromDriver_In _ _ Hns).
        exists row. split; [apply select_notes_In; auto|].
        unfold note_fromDriver. rewrite Hrowtags. reflexivity.
Qed.

Lemma C10_percent_matches_all_witness :
  exists result,
    getNotes None (Some "%") demo_db = (demo_db, Ok result)
    /\ length result = 1%nat
    /\ List.filter (spec_passes None (Some "%")) (notes demo_db) = [].
Proof.
  destruct (C10_percent_matches_all demo_db) as (_ & _ & _ & Hok).
  destruct (Hok eq_refl) as (result & Hrun & Hlen & _).
  exists result. split; [exact Hrun|]. split; [exact Hlen|]. reflexivity.
Defined.

(** * More of the repository *)

#[local] Instance by_created_at_total : Total by_created_at.
Proof. intros a b. unfold by_created_at. lia. Qed.

#[local] Instance by_created_at_trans : Transitive by_created_at.
Proof. intros a b c. unfold by_created_at. lia. Qed.

Section more_statement_facts.

Context {A : Type}.
Implicit Types (p : A -> bool) (rows : list A).

Lemma first_where_appended_other p rows x :
  p x = false -> first_where p (rows ++ [x]) = first_where p rows.
Proof.
  intros Hx. unfold first_where. rewrite List.filter_app. cbn [List.filter].
  rewrite Hx. now rewrite app_nil_r.
Qed.

(** An UPDATE ... WHERE id = ? leaves the first row of another id alone. *)
Lemma first_where_updated_other p q (f : A -> A) rows :
  (forall x, q (f x) = q x) ->
  (forall x, p x = true -> q x = false) ->
  first_where q (map (fun x => if p x then f x else x) rows) = first_where q rows.
Proof.
  intros Hf Hpq. unfold first_where. induction rows as [|x rows IH]; [reflexivity|].
  cbn [map List.filter]. destruct (p x) eqn:Hx.
  - rewrite Hf, (Hpq x Hx). exact IH.
  - destruct (q x); [reflexivity | exact IH].
Qed.

Lemma first_where_filtered_other p q rows :
  (forall x, q x = true -> p x = true) ->
  first_where q (List.filter p rows) = first_where q rows.
Proof.
  intros Hqp. unfold first_where. induction rows as [|x rows IH]; [reflexivity|].
  cbn [List.filter]. destruct (q x) eqn:Hq.
  - rewrite (Hqp x Hq). cbn [List.filter]. now rewrite Hq.
  - destruct (p x); cbn [List.filter]; rewrite ?Hq; exact IH.
Qed.

End more_statement_facts.

Lemma eqb_two_ids (a b x : string) :
  a <> b -> String.eqb x a = true -> String.eqb x b = false.
Proof.
  intros Hne Ha. apply String.eqb_eq in Ha. subst x. now apply String.eqb_neq.
Qed.

(** X1. createCategory with an unused id succeeds: the record it returns
    carries the given name, the colour #3b82f6 when none or an empty one was
    given and the given colour otherwise; getCategory then reads that record
    back with its creation time in whole seconds, every other category reads
    as before, and no note is touched. *)
Theorem X1_createCategory_fresh (db : Db) (ins : InsertCategory) (id : string) (now : Z) :
  has_category id db = false ->
  exists db' created,
    createCategory ins id now db = (db', Ok created)
    /\ cat_id created = id
    /\ cat_name created = ic_name ins
    /\ cat_createdAt created = now
    /\ (ic_color ins = None \/ ic_color ins = Some "" -> cat_color created = "#3b82f6")
    /\ (forall c, ic_color ins = Some c -> c <> "" -> cat_color created = c)
    /\ getCategory id db' = (db', Ok (Some (stored_category created)))
    /\ (forall id', id' <> id -> snd (getCategory id' db') = snd (getCategory id' db))
    /\ notes db' = notes db.
Proof.
  intros Hid. do 2 eexists. split.
  { unfold createCategory, bind, insert_category, ret. cbn [category_toDriver crow_id cat_id].
    rewrite Hid. reflexivity. }
  cbn [cat_id cat_name cat_createdAt cat_color categories notes].
  split; [reflexivity|]. split; [reflexivity|]. split; [reflexivity|]. split; [|split].
  - intros [H|H]; rewrite H; reflexivity.
  - intros c Hc Hne. rewrite Hc. destruct c; [contradiction|reflexivity].
  - split; [|split; [|reflexivity]].
    + unfold getCategory, read. cbn [categories].
      rewrite first_where_appended; [reflexivity | exact Hid | apply String.eqb_refl].
    + intros id' Hne. unfold getCategory, read. cbn [categories snd].
      rewrite first_where_appended_other; [reflexivity|].
      cbn [crow_id category_toDriver cat_id]. now apply String.eqb_neq.
Qed.

Lemma X1_createCategory_fresh_witness :
  exists db' created,
    createCategory {| ic_name := "Recipes"; ic_color := Some "" |} "u9" 8200 demo_db
      = (db', Ok created)
    /\ cat_color created = "#3b82f6"
    /\ getCategory "u9" db' = (db', Ok (Some (stored_category created))).
Proof.
  destruct (X1_createCategory_fresh demo_db {| ic_name := "Recipes"; ic_color := Some "" |}
              "u9" 8200 eq_refl)
    as (db' & created & Hrun & _ & _ & _ & Hdefault & _ & Hget & _).
  exists db', created. split; [exact Hrun|]. split; [|exact Hget].
  apply Hdefault. now right.
Defined.

(** X2. A create throws exactly when the generated id is already in use
    (UniqueConstraint) or, for a note, when the id is free and the category
    does not exist (ForeignKeyConstraint); a create that throws leaves the
    store as it was, and one that returns appends one row and changes no
    other. *)
Theorem X2_create_faults (db : Db) (id : string) (now : Z) :
  (forall ins,
      (has_category id db = true ->
       createCategory ins id now db = (db, Throw UniqueConstraint))
      /\ (has_category id db = false ->
          is_ok (snd (createCategory ins id now db)) = true
          /\ exists row, categories (fst (createCategory ins id now db)) = (categories db ++ [row])%list))
  /\ (forall ins,
        (has_note id db = true ->
         createNote ins id now db = (db, Throw UniqueConstraint))
        /\ (has_note id db = false -> has_category (in_categoryId ins) db = false ->
            createNote ins id now db = (db, Throw ForeignKeyConstraint))
        /\ (has_note id db = false -> has_category (in_categoryId ins) db = true ->
            is_ok (snd (createNote ins id now db)) = true
            /\ categories (fst (createNote ins id now db)) = categories db
            /\ exists row, notes (fst (createNote ins id now db)) = (notes db ++ [row])%list)).
Proof.
  split; intros ins.
  - unfold createCategory, bind, insert_category, ret.
    cbn [category_toDriver crow_id cat_id]. split; intros H; rewrite H.
    + reflexivity.
    + split; [reflexivity|]. eexists. reflexivity.
  - unfold createNote, bind, insert_note, ret.
    cbn [nrow_id nrow_category_id note_id note_categoryId].
    split; [|split].
    + intros H. now rewrite H.
    + intros H1 H2. now rewrite H1, H2.
    + intros H1 H2. rewrite H1, H2. split; [reflexivity|]. split; [reflexivity|].
      eexists. reflexivity.
Qed.

Lemma X2_create_faults_witness :
  createNote demo_note "n1" 7000 demo_db = (demo_db, Throw UniqueConstraint)
  /\ createNote {| in_title := "T"; in_content := None; in_categoryId := "gone"; in_tags := None |}
                "n2" 7000 demo_db = (demo_db, Throw ForeignKeyConstraint).
Proof.
  destruct (X2_create_faults demo_db "n1" 7000) as [_ H1].
  destruct (X2_create_faults demo_db "n2" 7000) as [_ H2].
  split.
  - apply (proj1 (H1 demo_note)). reflexivity.
  - apply (proj1 (proj2 (H2 _))); reflexivity.
Defined.

Lemma categories_fromDriver_sorted (rows : list CategoryRow) :
  StronglySorted by_created_at rows ->
  StronglySorted oldest_first (map category_fromDriver rows).
Proof.
  induction 1 as [|r rows Hrows IH Hall]; [constructor|].
  cbn [map]. constructor; [exact IH|].
  apply Forall_forall. intros c Hc. apply list_elem_of_In, in_map_iff in Hc as (r' & <- & Hr').
  rewrite Forall_forall in Hall. apply list_elem_of_In, Hall in Hr'.
  unfold oldest_first, by_created_at, category_fromDriver, timestamp_fromDriver in *.
  cbn [cat_createdAt]. lia.
Qed.

(** X3. getCategories never throws and never writes; it returns every
    category of the table exactly once, oldest first. *)
Theorem X3_getCategories_all_oldest_first (db : Db) :
  exists cats,
    getCategories db = (db, Ok cats)
    /\ cats ≡ₚ map category_fromDriver (categories db)
    /\ length cats = length (categories db)
    /\ StronglySorted oldest_first cats.
Proof.
  eexists. split; [reflexivity|].
  assert (Hperm : map category_fromDriver (merge_sort by_created_at (categories db))
                  ≡ₚ map category_fromDriver (categories db)).
  { apply Permutation_map, merge_sort_Permutation. }
  split; [exact Hperm|]. split; [now rewrite Hperm, length_map|].
  apply categories_fromDriver_sorted, StronglySorted_merge_sort; apply _.
Qed.

(** X4. updateCategory with a name or a colour, on an existing id, returns
    the old record with the given fields replaced and stores just that: the
    id and the creation time stay, every other category reads as before, no
    row is added, removed or moved, and no note is touched. *)
Theorem X4_updateCategory_frame (db : Db) (id : string) (u : PartialCategory) :
  has_category id db = true ->
  partial_category_is_empty u = false ->
  exists db' old updated,
    getCategory id db = (db, Ok (Some old))
    /\ updateCategory id u db = (db', Ok (Some updated))
    /\ getCategory id db' = (db', Ok (Some updated))
    /\ cat_id updated = id
    /\ cat_createdAt updated = cat_createdAt old
    /\ cat_name updated = default (cat_name old) (pc_name u)
    /\ cat_color updated = default (cat_color old) (pc_color u)
    /\ (forall id', id' <> id -> snd (getCategory id' db') = snd (getCategory id' db))
    /\ map crow_id (categories db') = map crow_id (categories db)
    /\ notes db' = notes db.
Proof.
  intros Hid Hu.
  destruct (getCategory_present id db Hid) as (row & Hfirst & Hin & Hrow & Hget).
  assert (Hrun : updateCategory id u db =
            ({| categories := map (fun r => if String.eqb (crow_id r) id
                                            then set_category u r else r) (categories db);
                notes := notes db |},
             Ok (Some {| cat_id := cat_id (category_fromDriver row);
                         cat_name := default (cat_name (category_fromDriver row)) (pc_name u);
                         cat_color := default (cat_color (category_fromDriver row)) (pc_color u);
                         cat_createdAt := cat_createdAt (category_fromDriver row) |}))).
  { unfold updateCategory, bind. rewrite Hget.
    unfold update_category_where_id, ret. now rewrite Hu. }
  do 3 eexists. split; [exact Hget|]. split; [exact Hrun|].
  cbn [categories notes cat_id cat_name cat_color cat_createdAt category_fromDriver].
  split; [|split; [exact Hrow|]].
  { unfold getCategory, read. cbn [categories]. f_equal. f_equal.
    rewrite (first_where_updated (fun c => String.eqb (crow_id c) id) (set_category u))
      by reflexivity.
    rewrite Hfirst. reflexivity. }
  split; [reflexivity|]. split; [reflexivity|]. split; [reflexivity|].
  split; [|split; [|reflexivity]].
  - intros id' Hne. unfold getCategory, read. cbn [categories snd]. f_equal. f_equal.
    apply (first_where_updated_other (fun c => String.eqb (crow_id c) id)
             (fun c => String.eqb (crow_id c) id') (set_category u)).
    + reflexivity.
    + intros c. apply eqb_two_ids. congruence.
  - rewrite map_map. apply map_ext. intros r. now destruct (String.eqb (crow_id r) id).
Qed.

Lemma X4_updateCategory_frame_witness :
  exists db' updated,
    updateCategory "u1" {| pc_name := Some "Work"; pc_color := None |} demo_db
      = (db', Ok (Some updated))
    /\ cat_name updated = "Work"
    /\ cat_color updated = "#3b82f6"
    /\ snd (getCategory "u2" db') = snd (getCategory "u2" demo_db).
Proof.
  destruct (X4_updateCategory_frame demo_db "u1" {| pc_name := Some "Work"; pc_color := None |}
              eq_refl eq_refl)
    as (db' & old & updated & Hold & Hrun & _ & _ & _ & Hname & Hcolor & Hother & _).
  exists db', updated. split; [exact Hrun|].
  injection Hold as <-.
  split; [exact Hname|]. split; [exact Hcolor|]. apply Hother. discriminate.
Defined.

(** X5. createNote with an unused id and an existing category returns a note
    whose content is empty when none was given, whose tags are empty when
    none were given, and whose createdAt and updatedAt are the same instant;
    getNote reads that note back with both times in whole seconds, every
    other note reads as before, and no category is touched. *)
Theorem X5_createNote_defaults (db : Db) (ins : InsertNote) (id : string) (now : Z) :
  has_note id db = false ->
  has_category (in_categoryId ins) db = true ->
  exists db' created,
    createNote ins id now db = (db', Ok created)
    /\ note_createdAt created = now
    /\ note_updatedAt created = now
    /\ (in_content ins = None -> note_content created = "")
    /\ (forall c, in_content ins = Some c -> note_content created = c)
    /\ (in_tags ins = None -> note_tags created = [])
    /\ (forall t, in_tags ins = Some t -> note_tags created = t)
    /\ getNote id db' = (db', Ok (Some (stored_note created)))
    /\ (forall id', id' <> id -> snd (getNote id' db') = snd (getNote id' db))
    /\ categories db' = categories db.
Proof.
  intros Hid Hcat. do 2 eexists. split; [now apply createNote_ok|].
  cbn [note_createdAt note_updatedAt note_content note_tags categories].
  split; [reflexivity|]. split; [reflexivity|].
  split; [intros ->; reflexivity|]. split; [intros c ->; now destruct c|].
  split; [intros ->; reflexivity|]. split; [intros t ->; reflexivity|].
  split; [|split; [|reflexivity]].
  - unfold getNote, bind, read. cbn [notes].
    rewrite first_where_appended; [|exact Hid|apply String.eqb_refl].
    unfold lift, note_fromDriver. cbn [nrow_tags]. rewrite tags_roundtrip. reflexivity.
  - intros id' Hne. unfold getNote, bind, read. cbn [notes].
    rewrite first_where_appended_other by (now apply String.eqb_neq).
    destruct (first_where _ (notes db)) as [row|]; [|reflexivity].
    unfold lift, ret. now destruct (note_fromDriver row).
Qed.

Lemma X5_createNote_defaults_witness :
  exists db' created,
    createNote {| in_title := "T2"; in_content := None; in_categoryId := "u2"; in_tags := None |}
               "n2" 7300 demo_db = (db', Ok created)
    /\ note_content created = ""
    /\ note_tags created = []
    /\ getNote "n2" db' = (db', Ok (Some (stored_note created))).
Proof.
  destruct (X5_createNote_defaults demo_db
              {| in_title := "T2"; in_content := None; in_categoryId := "u2"; in_tags := None |}
              "n2" 7300 eq_refl eq_refl)
    as (db' & created & Hrun & _ & _ & Hcontent & _ & Htags & _ & Hget & _).
  exists db', created. split; [exact Hrun|]. split; [now apply Hcontent|].
  split; [now apply Htags | exact Hget].
Defined.

Lemma updateNote_missing_category
      (db : Db) (id : string) (u : UpdateNote) (now : Z) (existing : Note) (c : string) :
  getNote id db = (db, Ok (Some existing)) ->
  un_categoryId u = Some c ->
  has_category c db = false ->
  updateNote id u now db = (db, Throw ForeignKeyConstraint).
Proof.
  intros Hget Hc Hmissing.
  destruct (getNote_Some _ _ _ Hget) as (row & Hrow & Hid & _).
  assert (Hnote : has_note id db = true).
  { apply first_where_Some in Hrow as [Hin Hp]. apply has_note_In.
    exists row. split; [exact Hin|]. now apply String.eqb_eq. }
  unfold updateNote, bind. rewrite Hget.
  unfold update_note_where_id. cbn [ns_category_id]. now rewrite Hc, Hnote, Hmissing.
Qed.

(** X6. updateNote that names a categoryId with no category throws the
    foreign-key fault and writes nothing: the note keeps its fields and its
    updatedAt, and getNote reads what it read before. *)
Theorem X6_updateNote_missing_category
        (db : Db) (id : string) (u : UpdateNote) (now : Z) (existing : Note) (c : string) :
  getNote id db = (db, Ok (Some existing)) ->
  un_categoryId u = Some c ->
  has_category c db = false ->
  updateNote id u now db = (db, Throw ForeignKeyConstraint)
  /\ getNote id (fst (updateNote id u now db)) = (db, Ok (Some existing)).
Proof.
  intros Hget Hc Hmissing.
  rewrite (updateNote_missing_category db id u now existing c Hget Hc Hmissing).
  split; [reflexivity | exact Hget].
Qed.

Lemma X6_updateNote_missing_category_witness :
  updateNote "n1" {| un_title := None; un_content := None; un_categoryId := Some "gone";
                     un_tags := None |} 9000 demo_db
  = (demo_db, Throw ForeignKeyConstraint).
Proof.
  eapply proj1. eapply X6_updateNote_missing_category; reflexivity.
Defined.

(** X7. updateNote, whatever it is given and however it ends, adds,
    removes and moves no row: the ids and the creation times of the notes
    table stay as they were, a row with another id stays as it was, and the
    categories table is untouched. *)
Theorem X7_updateNote_frame (db : Db) (id : string) (u : UpdateNote) (now : Z) :
  let db' := fst (updateNote id u now db) in
  categories db' = categories db
  /\ map nrow_id (notes db') = map nrow_id (notes db)
  /\ map nrow_created_at (notes db') = map nrow_created_at (notes db)
  /\ (forall row, In row (notes db) -> nrow_id row <> id -> In row (notes db'))
  /\ (forall id', id' <> id -> snd (getNote id' db') = snd (getNote id' db)).
Proof.
  set (rewritten := fun s : NoteSet =>
         {| categories := categories db;
            notes := map (fun r => if String.eqb (nrow_id r) id then set_note s r else r)
                         (notes db) |}).
  assert (Hframe : forall s,
             categories (rewritten s) = categories db
             /\ map nrow_id (notes (rewritten s)) = map nrow_id (notes db)
             /\ map nrow_created_at (notes (rewritten s)) = map nrow_created_at (notes db)
             /\ (forall row, In row (notes db) -> nrow_id row <> id -> In row (notes (rewritten s)))
             /\ (forall id', id' <> id ->
                   snd (getNote id' (rewritten s)) = snd (getNote id' db))).
  { intros s. unfold rewritten at 1 2 3 4. cbn [categories notes]. split; [reflexivity|].
    split; [|split; [|split]].
    - rewrite map_map. apply map_ext. intros r. now destruct (String.eqb (nrow_id r) id).
    - rewrite map_map. apply map_ext. intros r. now destruct (String.eqb (nrow_id r) id).
    - intros row Hin Hne. apply in_map_iff. exists row. split; [|exact Hin].
      apply String.eqb_neq in Hne. now rewrite Hne.
    - intros id' Hne. unfold getNote, bind, read, rewritten. cbn [notes].
      rewrite (first_where_updated_other (fun n => String.eqb (nrow_id n) id)
                 (fun n => String.eqb (nrow_id n) id') (set_note s)).
      + destruct (first_where _ (notes db)) as [row|]; [|reflexivity].
        unfold lift, ret. now destruct (note_fromDriver row).
      + reflexivity.
      + intros n. apply eqb_two_ids. congruence. }
  assert (Hsame : categories db = categories db
             /\ map nrow_id (notes db) = map nrow_id (notes db)
             /\ map nrow_created_at (notes db) = map nrow_created_at (notes db)
             /\ (forall row, In row (notes db) -> nrow_id row <> id -> In row (notes db))
             /\ (forall id', id' <> id -> snd (getNote id' db) = snd (getNote id' db)))
    by (repeat split; auto).
  unfold updateNote, bind.
  destruct (getNote id db) as [db0 [[existing|]|e]] eqn:Hget; cbn zeta.
  - assert (db0 = db) as ->.
    { unfold getNote, bind, read in Hget.
      destruct (first_where _ (notes db)); [|now injection Hget].
      unfold lift, ret in Hget. destruct (note_fromDriver n); now injection Hget. }
    unfold update_note_where_id, ret. cbn [ns_category_id].
    destruct (un_categoryId u) as [c|]; [|apply Hframe].
    destruct (has_note id db && negb (has_category c db)); [exact Hsame | apply Hframe].
  - assert (db0 = db) as ->; [|exact Hsame].
    unfold getNote, bind, read in Hget.
    destruct (first_where _ (notes db)); [|now injection Hget].
    unfold lift, ret in Hget. destruct (note_fromDriver n); now injection Hget.
  - assert (db0 = db) as ->; [|exact Hsame].
    unfold getNote, bind, read in Hget.
    destruct (first_where _ (notes db)); [|now injection Hget].
    unfold lift, ret in Hget. destruct (note_fromDriver n); now injection Hget.
Qed.

(** X8. deleteNote removes the rows with the given id and nothing else: it
    answers whether there was one, the other notes and all categories stay,
    getNote of the id is then not-found, and a second deleteNote answers
    false and changes nothing. *)
Theorem X8_deleteNote_exact (db : Db) (id : string) :
  exists db',
    deleteNote id db = (db', Ok (has_note id db))
    /\ categories db' = categories db
    /\ (forall row, In row (notes db') <-> In row (notes db) /\ nrow_id row <> id)
    /\ getNote id db' = (db', Ok None)
    /\ (forall id', id' <> id -> snd (getNote id' db') = snd (getNote id' db))
    /\ deleteNote id db' = (db', Ok false).
Proof.
  destruct (deleteNote_result db id) as (db' & Hrun & Hcats & Hnotes).
  exists db'. split; [exact Hrun|]. split; [exact Hcats|].
  assert (Hgone : has_note id db' = false).
  { apply not_true_iff_false. intros H. apply has_note_In in H as (n & Hin & Hn).
    rewrite Hnotes in Hin. apply filter_In in Hin as [_ Hin].
    apply negb_true_iff, String.eqb_neq in Hin. contradiction. }
  split; [|split; [|split]].
  - intros row. rewrite Hnotes, filter_In, negb_true_iff, String.eqb_neq. reflexivity.
  - now apply getNote_absent.
  - intros id' Hne. unfold getNote, bind, read. rewrite Hnotes.
    rewrite first_where_filtered_other.
    + destruct (first_where _ (notes db)) as [row|]; [|reflexivity].
      unfold lift, ret. now destruct (note_fromDriver row).
    + intros n Hn. apply negb_true_iff. apply (eqb_two_ids id' id); [exact Hne | exact Hn].
  - now apply deleteNote_absent.
Qed.

(** * Primary keys *)

Section primary_keys.

Lemma NoDup_map_filter {A B} (f : A -> B) (p : A -> bool) (rows : list A) :
  NoDup (map f rows) -> NoDup (map f (List.filter p rows)).
Proof.
  induction rows as [|r rows IH]; [auto|].
  cbn [map List.filter]. intros H. apply NoDup_cons in H as [Hr H].
  destruct (p r); [|auto]. cbn [map]. apply NoDup_cons. split; [|auto].
  intros Hin. apply Hr. apply list_elem_of_In in Hin. apply list_elem_of_In.
  apply in_map_iff in Hin as (c & Hc & Hin). apply filter_In in Hin as [Hin _].
  apply in_map_iff. eauto.
Qed.

Lemma note_ids_same_notes {A} (m : M A) :
  (forall db, notes (fst (m db)) = notes db) -> preserves NoteIdsUnique m.
Proof. intros Hm db H. unfold NoteIdsUnique. now rewrite Hm. Qed.

Lemma note_ids_insert_note r : preserves NoteIdsUnique (insert_note r).
Proof.
  intros db H. unfold insert_note, NoteIdsUnique in *.
  destruct (has_note (nrow_id r) db) eqn:Hr; [exact H|].
  destruct (negb (has_category (nrow_category_id r) db)); [exact H|].
  cbn [fst notes]. rewrite map_app. apply NoDup_app. split; [exact H|].
  split; [|apply NoDup_singleton].
  intros x Hx Hx'. apply list_elem_of_In in Hx, Hx'. destruct Hx' as [<-|[]].
  apply in_map_iff in Hx as (c & Hc & Hin).
  assert (has_note (nrow_id r) db = true) by (apply has_note_In; eauto).
  congruence.
Qed.

Lemma note_ids_update_note id u : preserves NoteIdsUnique (update_note_where_id id u).
Proof.
  intros db H. unfold NoteIdsUnique in *.
  assert (Hmap : map nrow_id (map (fun r => if String.eqb (nrow_id r) id then set_note u r else r)
                                  (notes db)) = map nrow_id (notes db)).
  { rewrite map_map. apply map_ext. intros r. now destruct (String.eqb (nrow_id r) id). }
  unfold update_note_where_id. destruct (ns_category_id u) as [c|].
  - destruct (has_note id db && negb (has_category c db)); [exact H|].
    cbn [fst notes]. now rewrite Hmap.
  - cbn [fst notes]. now rewrite Hmap.
Qed.

Lemma note_ids_run (c : call) : forall db, NoteIdsUnique db -> NoteIdsUnique (run c db).
Proof.
  destruct c; cbn [run].
  - unfold seedDatabase. apply preserves_bind; [apply preserves_read|].
    intros existing. destruct (length existing =? 0)%nat; [|apply preserves_ret].
    apply preserves_for_each. intros x. apply note_ids_same_notes.
    intros db. unfold insert_category. now destruct (has_category _ db).
  - unfold createCategory. apply preserves_bind; [|intros _; apply preserves_ret].
    apply note_ids_same_notes.
    intros db. unfold insert_category. now destruct (has_category _ db).
  - unfold updateCategory, getCategory. apply preserves_bind; [apply preserves_read|].
    intros [existing|]; [|apply preserves_ret].
    apply preserves_bind; [|intros _; apply preserves_ret].
    apply note_ids_same_notes. intros db. unfold update_category_where_id.
    now destruct (partial_category_is_empty u).
  - unfold deleteCategory.
    apply preserves_bind; [intros db H; now apply NoDup_map_filter|]. intros _.
    apply preserves_bind; [|intros changes; apply preserves_ret].
    intros db H. unfold NoteIdsUnique in *. cbn [delete_categories_where_id fst notes].
    destruct (List.filter (fun c => String.eqb (crow_id c) id) (categories db)); [exact H|].
    now apply NoDup_map_filter.
  - unfold createNote. apply preserves_bind; [apply note_ids_insert_note|].
    intros _. apply preserves_ret.
  - unfold updateNote, getNote. apply preserves_bind.
    { apply preserves_bind; [apply preserves_read|].
      intros [row|]; [|apply preserves_ret].
      apply preserves_bind; [apply preserves_lift|]. intros note. apply preserves_ret. }
    intros [existing|]; [|apply preserves_ret].
    apply preserves_bind; [apply note_ids_update_note|]. intros _. apply preserves_ret.
  - unfold deleteNote. apply preserves_bind; [|intros changes; apply preserves_ret].
    intros db H. now apply NoDup_map_filter.
Qed.

Lemma reachable_note_ids (db : Db) : reachable db -> NoteIdsUnique db.
Proof.
  induction 1 as [u1 u2 u3 u4 t1 t2 t3 t4|c db _ IH].
  - apply (note_ids_run (Seed u1 u2 u3 u4 t1 t2 t3 t4) empty_db). constructor.
  - now apply note_ids_run.
Qed.

(** With distinct keys, the first row of a given key is the only one. *)
Lemma first_where_unique {A} (key : A -> string) (rows : list A) (row : A) :
  NoDup (map key rows) -> In row rows ->
  first_where (fun r => String.eqb (key r) (key row)) rows = Some row.
Proof.
  unfold first_where. induction rows as [|r rows IH]; [contradiction|].
  cbn [map List.filter]. intros Hnd Hin. apply NoDup_cons in Hnd as [Hr Hnd].
  destruct Hin as [->|Hin]; [now rewrite String.eqb_refl|].
  destruct (String.eqb_spec (key r) (key row)) as [Heq|_]; [|auto].
  exfalso. apply Hr. rewrite Heq. apply list_elem_of_In, in_map_iff. eauto.
Qed.

End primary_keys.

(** X9. The ids are keys in every store the repository can produce: no two
    categories and no two notes share an id, so getCategory and getNote find
    every stored row under its id, and deleteNote removes exactly one row
    when it answers true. *)
Theorem X9_ids_are_keys (db : Db) :
  reachable db ->
  NoDup (map crow_id (categories db))
  /\ NoDup (map nrow_id (notes db))
  /\ (forall row, In row (categories db) ->
        getCategory (crow_id row) db = (db, Ok (Some (category_fromDriver row))))
  /\ (forall row, In row (notes db) ->
        exists note, note_fromDriver row = Ok note
                     /\ getNote (nrow_id row) db = (db, Ok (Some note)))
  /\ (forall id, has_note id db = true ->
        length (notes db) = S (length (notes (fst (deleteNote id db))))).
Proof.
  intros Hreach.
  destruct (reachable_well_formed db Hreach) as (_ & Htags & Hcats).
  pose proof (reachable_note_ids db Hreach) as Hnotes.
  split; [exact Hcats|]. split; [exact Hnotes|]. split; [|split].
  - intros row Hin. unfold getCategory, read.
    now rewrite (first_where_unique crow_id _ row Hcats Hin).
  - intros row Hin.
    destruct (proj1 (tags_ok_forall db) Htags row Hin) as [tags Hrow].
    eexists. split; [unfold note_fromDriver; rewrite Hrow; reflexivity|].
    unfold getNote, bind, read.
    rewrite (first_where_unique nrow_id _ row Hnotes Hin).
    unfold lift, ret, note_fromDriver. rewrite Hrow. reflexivity.
  - intros id Hid. cbn [deleteNote bind delete_notes_where_id fst notes].
    unfold deleteNote, bind, delete_notes_where_id, ret. cbn [fst notes].
    unfold NoteIdsUnique in Hnotes. clear -Hnotes Hid.
    unfold has_note in Hid. induction (notes db) as [|r rows IH]; [discriminate|].
    cbn [map] in Hnotes. apply NoDup_cons in Hnotes as [Hr Hnd].
    cbn [List.filter existsb length] in *.
    destruct (String.eqb_spec (nrow_id r) id) as [Heq|Hne]; cbn [negb orb length] in *.
    + f_equal. symmetry. f_equal. apply filter_negb_miss.
      apply not_true_iff_false. intros Hex. apply existsb_exists in Hex as (n & Hn & Hnid).
      apply String.eqb_eq in Hnid. apply Hr. rewrite Heq, <- Hnid.
      apply list_elem_of_In, in_map_iff. eauto.
    + f_equal. now apply IH.
Qed.

Lemma X9_ids_are_keys_witness :
  exists note, getNote "n1" demo_db = (demo_db, Ok (Some note)) /\ note_title note = "T".
Proof.
  destruct (notes demo_db) as [|row rest] eqn:Hnotes; [discriminate Hnotes|].
  injection Hnotes as Hrow _.
  assert (Hin : In row (notes demo_db)) by (rewrite <- Hrow; left; reflexivity).
  destruct (X9_ids_are_keys demo_db demo_db_reachable) as (_ & _ & _ & Hget & _).
  destruct (Hget row Hin) as (note & Hdec & Hnote).
  exists note. rewrite <- Hrow in Hnote, Hdec. cbn [nrow_id] in Hnote.
  split; [exact Hnote|]. injection Hdec as <-. reflexivity.
Defined.

(** * Counts and listings follow the writes *)

Lemma noteCount_referencing (rows : list NoteRow) (id : string) :
  noteCount (foldl count_note ∅ rows) id = referencing id rows.
Proof.
  unfold noteCount. rewrite counts_lookup. now destruct (referencing id rows).
Qed.

Lemma getCategoryNoteCounts_noteCount (db : Db) (id : string) :
  exists counts,
    getCategoryNoteCounts db = (db, Ok counts) /\ noteCount counts id = notes_in id db.
Proof. eexists. split; [reflexivity|]. apply noteCount_referencing. Qed.

(** X10. A note that createNote stores is counted once: afterwards the note
    count of its category is one more than before and every other count is
    what it was. *)
Theorem X10_createNote_counts (db : Db) (ins : InsertNote) (id : string) (now : Z) :
  has_note id db = false ->
  has_category (in_categoryId ins) db = true ->
  exists db' before after,
    fst (createNote ins id now db) = db'
    /\ getCategoryNoteCounts db = (db, Ok before)
    /\ getCategoryNoteCounts db' = (db', Ok after)
    /\ noteCount after (in_categoryId ins) = S (noteCount before (in_categoryId ins))
    /\ (forall c, c <> in_categoryId ins -> noteCount after c = noteCount before c)
    /\ sum_counts after = S (sum_counts before).
Proof.
  intros Hid Hcat. rewrite (createNote_ok ins id now db Hid Hcat). cbn [fst].
  do 3 eexists. split; [reflexivity|]. split; [reflexivity|]. split; [reflexivity|].
  cbn [notes]. rewrite !sum_counts_total, length_app. cbn [length].
  split; [|split; [|lia]].
  - rewrite !noteCount_referencing, referencing_snoc. cbn [nrow_category_id].
    rewrite String.eqb_refl. lia.
  - intros c Hne. rewrite !noteCount_referencing, referencing_snoc. cbn [nrow_category_id].
    replace (String.eqb (in_categoryId ins) c) with false; [lia|].
    symmetry. apply String.eqb_neq. congruence.
Qed.

Lemma X10_createNote_counts_witness :
  exists db' after,
    fst (createNote demo_note "n2" 7000 demo_db) = db'
    /\ getCategoryNoteCounts db' = (db', Ok after)
    /\ noteCount after "u1" = 2%nat
    /\ noteCount after "u2" = 0%nat.
Proof.
  destruct (X10_createNote_counts demo_db demo_note "n2" 7000 eq_refl eq_refl)
    as (db' & before & after & Hrun & Hbefore & Hafter & Hone & Hother & _).
  exists db', after. split; [exact Hrun|]. split; [exact Hafter|].
  injection Hbefore as <-. split.
  - etrans; [exact Hone | reflexivity].
  - rewrite (Hother "u2") by discriminate. reflexivity.
Defined.

Lemma deleteCategory_store (db : Db) (id : string) :
  fst (deleteCategory id db) =
    {| categories := List.filter (fun c => negb (String.eqb (crow_id c) id)) (categories db);
       notes := List.filter (fun n => negb (String.eqb (nrow_category_id n) id)) (notes db) |}.
Proof.
  unfold deleteCategory, bind, delete_notes_where_category, delete_categories_where_id, ret.
  cbn [fst categories notes]. f_equal.
  destruct (List.filter (fun c => String.eqb (crow_id c) id) (categories db)); [reflexivity|].
  apply filter_keeps_all. apply not_true_iff_false. intros H.
  apply existsb_exists in H as (n & Hin & Hn).
  apply filter_In in Hin as [_ Hin]. rewrite Hin in Hn. discriminate.
Qed.

Section referencing_facts.

Variables (id : string) (rows : list NoteRow).

Lemma referencing_deleted :
  referencing id (List.filter (fun n => negb (String.eqb (nrow_category_id n) id)) rows) = 0%nat.
Proof.
  unfold referencing. induction rows as [|n l IH]; [reflexivity|].
  cbn [List.filter]. destruct (String.eqb (nrow_category_id n) id) eqn:Hn; cbn [negb]; [exact IH|].
  cbn [List.filter]. now rewrite Hn.
Qed.

Lemma referencing_kept (c : string) :
  c <> id ->
  referencing c (List.filter (fun n => negb (String.eqb (nrow_category_id n) id)) rows) = referencing c rows.
Proof.
  intros Hne. unfold referencing. induction rows as [|n l IH]; [reflexivity|].
  cbn [List.filter]. destruct (String.eqb_spec (nrow_category_id n) id) as [Hn|Hn]; cbn [negb].
  - replace (String.eqb (nrow_category_id n) c) with false; [exact IH|].
    symmetry. apply String.eqb_neq. congruence.
  - cbn [List.filter]. destruct (String.eqb (nrow_category_id n) c); cbn [length]; now rewrite IH.
Qed.

Lemma referencing_split :
  (length (List.filter (fun n => negb (String.eqb (nrow_category_id n) id)) rows) + referencing id rows = length rows)%nat.
Proof.
  unfold referencing. induction rows as [|n l IH]; [reflexivity|].
  cbn [List.filter]. destruct (String.eqb (nrow_category_id n) id); cbn [negb length].
  - lia.
  - lia.
Qed.

End referencing_facts.

(** X11. After deleteCategory the deleted id has note count 0 and no entry
    in the counts, every other category keeps its count, and the number of
    notes has gone down by the count the category had. *)
Theorem X11_deleteCategory_counts (db : Db) (id : string) :
  exists db' before after,
    fst (deleteCategory id db) = db'
    /\ getCategoryNoteCounts db = (db, Ok before)
    /\ getCategoryNoteCounts db' = (db', Ok after)
    /\ after !! id = None
    /\ noteCount after id = 0%nat
    /\ (forall c, c <> id -> noteCount after c = noteCount before c)
    /\ (length (notes db') + noteCount before id = length (notes db))%nat.
Proof.
  do 3 eexists. split; [apply deleteCategory_store|]. split; [reflexivity|].
  split; [reflexivity|]. cbn [notes]. split; [|split; [|split]].
  - rewrite counts_lookup, referencing_deleted. reflexivity.
  - now rewrite noteCount_referencing, referencing_deleted.
  - intros c Hne. rewrite !noteCount_referencing. now apply referencing_kept.
  - rewrite noteCount_referencing. apply referencing_split.
Qed.

Lemma getNotes_snd (categoryId : option string) (db : Db) :
  snd (getNotes categoryId None db) =
    match notes_fromDriver (select_notes categoryId None db) with
    | Ok ns => Ok (rev ns)
    | Throw e => Throw e
    end.
Proof.
  unfold getNotes, bind, all_notes, lift, ret.
  change (like_too_complex categoryId None db) with false. cbv iota.
  now destruct (notes_fromDriver (select_notes categoryId None db)).
Qed.

Lemma passes_category_only (c : string) (n : NoteRow) :
  c <> "" -> passes (Some c) None n = String.eqb (nrow_category_id n) c.
Proof.
  intros Hc. unfold passes. destruct c; [contradiction|]. cbn [truthy]. apply andb_true_r.
Qed.

(** X12. The list and the counter agree: for a category id that is not the
    empty string, getNotes with that categoryId returns as many notes as
    getCategoryNoteCounts counts for it, and each of them carries that
    categoryId. *)
Theorem X12_listing_matches_count (db : Db) (c : string) :
  c <> "" ->
  tags_ok db = true ->
  exists listing counts,
    getNotes (Some c) None db = (db, Ok listing)
    /\ getCategoryNoteCounts db = (db, Ok counts)
    /\ length listing = noteCount counts c
    /\ (forall note, In note listing -> note_categoryId note = c).
Proof.
  intros Hc Htags.
  destruct (getNotes_ok (Some c) None db Htags eq_refl) as (ns & Hns & Hrun).
  exists (rev ns). eexists. split; [exact Hrun|]. split; [reflexivity|]. split.
  - rewrite length_rev, (notes_fromDriver_length _ _ Hns), select_notes_length.
    rewrite noteCount_referencing. unfold referencing. f_equal.
    apply List.filter_ext. intros n. now apply passes_category_only.
  - intros note Hin. apply in_rev in Hin.
    apply (notes_fromDriver_In _ _ Hns) in Hin as (row & Hrow & Hdec).
    apply select_notes_In in Hrow as [_ Hpass].
    rewrite passes_category_only in Hpass by exact Hc. apply String.eqb_eq in Hpass.
    unfold note_fromDriver in Hdec. destruct (tags_fromDriver _); [|discriminate].
    injection Hdec as <-. exact Hpass.
Qed.

Lemma X12_listing_matches_count_witness :
  exists listing, getNotes (Some "u1") None demo_db = (demo_db, Ok listing)
                  /\ length listing = 1%nat.
Proof.
  assert (Hc : "u1" <> "") by discriminate.
  destruct (X12_listing_matches_count demo_db "u1" Hc eq_refl)
    as (listing & counts & Hrun & Hcounts & Hlen & _).
  exists listing. split; [exact Hrun|]. rewrite Hlen.
  injection Hcounts as <-. reflexivity.
Defined.

(** X13. A note that createNote stores shows up, as it reads from the
    table, in the listing of its category and in the unfiltered listing, and
    the listing of every other category is what it was. *)
Theorem X13_created_note_is_listed (db : Db) (ins : InsertNote) (id : string) (now : Z) :
  has_note id db = false ->
  has_category (in_categoryId ins) db = true ->
  tags_ok db = true ->
  exists db' created listing all,
    createNote ins id now db = (db', Ok created)
    /\ getNotes (Some (in_categoryId ins)) None db' = (db', Ok listing)
    /\ In (stored_note created) listing
    /\ getNotes None None db' = (db', Ok all)
    /\ In (stored_note created) all
    /\ length all = S (length (notes db))
    /\ (forall c, c <> "" -> c <> in_categoryId ins ->
          snd (getNotes (Some c) None db') = snd (getNotes (Some c) None db)).
Proof.
  intros Hid Hcat Htags.
  pose proof (createNote_ok ins id now db Hid Hcat) as Hrun.
  pose proof (tags_run (CreateNote ins id now) db Htags) as Htags'.
  cbn [run] in Htags'. rewrite Hrun in Htags'. cbn [fst] in Htags'.
  set (row := {| nrow_id := id; nrow_title := in_title ins;
                 nrow_content := or_else (in_content ins) "";
                 nrow_category_id := in_categoryId ins;
                 nrow_tags := tags_toDriver (default [] (in_tags ins));
                 nrow_created_at := timestamp_toDriver now;
                 nrow_updated_at := timestamp_toDriver now |}) in *.
  set (db' := {| categories := categories db; notes := (notes db ++ [row])%list |}) in *.
  set (created := {| note_id := id; note_title := in_title ins;
                     note_content := or_else (in_content ins) "";
                     note_categoryId := in_categoryId ins;
                     note_tags := default [] (in_tags ins);
                     note_createdAt := now; note_updatedAt := now |}) in *.
  assert (Hdec : note_fromDriver row = Ok (stored_note created)).
  { unfold note_fromDriver, row. cbn [nrow_tags]. now rewrite tags_roundtrip. }
  assert (Hrow : In row (notes db')).
  { unfold db'. cbn [notes]. apply in_app_iff. right. now left. }
  destruct (getNotes_ok (Some (in_categoryId ins)) None db' Htags' eq_refl) as (ns & Hns & Hlist).
  destruct (getNotes_ok None None db' Htags' eq_refl) as (ns0 & Hns0 & Hall).
  exists db', created, (rev ns), (rev ns0).
  split; [exact Hrun|]. split; [exact Hlist|]. split; [|split; [exact Hall|split; [|split]]].
  - rewrite <- in_rev. apply (notes_fromDriver_In _ _ Hns). exists row.
    split; [|exact Hdec]. apply select_notes_In. split; [exact Hrow|].
    unfold passes. destruct (truthy (Some (in_categoryId ins))) as [c|] eqn:Hc; [|reflexivity].
    cbn [truthy andb]. destruct (in_categoryId ins); [discriminate|].
    injection Hc as <-. unfold row. cbn [nrow_category_id]. now rewrite String.eqb_refl.
  - rewrite <- in_rev. apply (notes_fromDriver_In _ _ Hns0). exists row.
    split; [|exact Hdec]. apply select_notes_In. split; [exact Hrow | reflexivity].
  - rewrite length_rev, (notes_fromDriver_length _ _ Hns0), select_notes_length.
    rewrite filter_true by reflexivity. unfold db'. cbn [notes].
    rewrite length_app. cbn [length]. lia.
  - intros c Hc Hne. rewrite !getNotes_snd, !select_notes_passes.
    unfold db'. cbn [notes]. rewrite List.filter_app. cbn [List.filter].
    rewrite passes_category_only by exact Hc. unfold row at 1. cbn [nrow_category_id].
    replace (String.eqb (in_categoryId ins) c) with false.
    + now rewrite app_nil_r.
    + symmetry. apply String.eqb_neq. congruence.
Qed.

Lemma X13_created_note_is_listed_witness :
  exists db' created listing,
    createNote demo_note "n2" 7000 demo_db = (db', Ok created)
    /\ getNotes (Some "u1") None db' = (db', Ok listing)
    /\ In (stored_note created) listing.
Proof.
  destruct (X13_created_note_is_listed demo_db demo_note "n2" 7000 eq_refl eq_refl eq_refl)
    as (db' & created & listing & all & Hrun & Hlist & Hin & _).
  exists db', created, listing. auto.
Defined.

(** * The REST handlers *)

Lemma getNote_decodable (db : Db) (id : string) :
  tags_ok db = true -> has_note id db = true ->
  exists existing, getNote id db = (db, Ok (Some existing)).
Proof.
  intros Htags Hid.
  destruct (getNote_present id db Hid) as (row & _ & Hin & _ & Hget).
  destruct (proj1 (tags_ok_forall db) Htags row Hin) as [tags Hrow].
  rewrite Hget. unfold note_fromDriver. rewrite Hrow. eauto.
Qed.



(** X15. The DELETE routes never answer 500. DELETE /api/notes/:id answers
    204 when a note had the id, and the note is then gone, and 404 with the
    store untouched when none had. DELETE /api/categories/:id answers 204
    when a category had the id, and then neither the category nor a note of
    it is left, and 404 when none had. *)
Theorem X15_delete_routes (db : Db) (id : string) :
  (has_note id db = true ->
   exists db', delete_note id db = (db', status_json 204 NoBody)
               /\ has_note id db' = false
               /\ get_note id db' = (db', status_json 404 (MessageJson "Note not found")))
  /\ (has_note id db = false ->
      delete_note id db = (db, status_json 404 (MessageJson "Note not found")))
  /\ (has_category id db = true ->
      exists db', delete_category id db = (db', status_json 204 NoBody)
                  /\ has_category id db' = false
                  /\ notes_in id db' = 0%nat)
  /\ (has_category id db = false ->
      snd (delete_category id db) = status_json 404 (MessageJson "Category not found")).
Proof.
  split; [|split; [|split]].
  - intros Hid. destruct (deleteNote_result db id) as (db' & Hrun & _ & Hnotes).
    exists db'. unfold delete_note, try_catch. rewrite Hrun, Hid.
    assert (Hgone : has_note id db' = false).
    { apply not_true_iff_false. intros H. apply has_note_In in H as (n & Hin & Hn).
      rewrite Hnotes in Hin. apply filter_In in Hin as [_ Hin].
      apply negb_true_iff, String.eqb_neq in Hin. contradiction. }
    split; [reflexivity|]. split; [exact Hgone|].
    unfold get_note, try_catch. now rewrite getNote_absent.
  - intros Hid. unfold delete_note, try_catch. now rewrite deleteNote_absent.
  - intros Hid.
    assert (Hrun : deleteCategory id db = (fst (deleteCategory id db), Ok true)).
    { unfold deleteCategory, bind, delete_notes_where_category, delete_categories_where_id, ret.
      cbn [categories notes fst]. rewrite changes_positive.
      unfold has_category in Hid. now rewrite Hid. }
    eexists. unfold delete_category, try_catch. rewrite Hrun. split; [reflexivity|].
    rewrite deleteCategory_store. split.
    + apply not_true_iff_false. intros H. apply has_category_In in H as (c & Hin & Hc).
      cbn [categories] in Hin. apply filter_In in Hin as [_ Hin].
      apply negb_true_iff, String.eqb_neq in Hin. contradiction.
    + unfold notes_in. cbn [notes]. apply referencing_deleted.
  - intros Hid. unfold delete_category, try_catch.
    unfold deleteCategory, bind, delete_notes_where_category, delete_categories_where_id, ret.
    cbn [categories notes]. rewrite changes_positive.
    unfold has_category in Hid. now rewrite Hid.
Qed.

Lemma X15_delete_routes_witness :
  exists db', delete_note "n1" demo_db = (db', status_json 204 NoBody)
              /\ has_note "n1" db' = false.
Proof.
  destruct (X15_delete_routes demo_db "n1") as (Hdel & _).
  destruct (Hdel eq_refl) as (db' & Hrun & Hgone & _).
  exists db'. auto.
Defined.

(** X16. PUT /api/categories/:id answers 400 to a body that fails
    validation, 404 to an id that is not stored, 200 with the merged
    category to a body with a name or a colour, and 500 to the empty body on
    a stored id; only the 200 writes. *)
Theorem X16_put_category_status (db : Db) (id : string) :
  (forall errors,
      put_category id (ZodError errors) db =
        (db, status_json 400 (InvalidJson "Invalid category data" errors)))
  /\ (forall u, has_category id db = false ->
        put_category id (Parsed u) db =
          (db, status_json 404 (MessageJson "Category not found")))
  /\ (has_category id db = true ->
      put_category id (Parsed empty_partial) db =
        (db, status_json 500 (MessageJson "Failed to update category")))
  /\ (forall u, has_category id db = true -> partial_category_is_empty u = false ->
        exists db' c,
          put_category id (Parsed u) db = (db', json (CategoryJson c))
          /\ getCategory id db' = (db', Ok (Some c))).
Proof.
  split; [reflexivity|]. split; [|split].
  - intros u Hid. unfold put_category, try_parse, try_catch.
    now rewrite updateCategory_absent.
  - intros Hid. destruct (getCategory_present id db Hid) as (row & _ & _ & _ & Hget).
    unfold put_category, try_parse, try_catch, updateCategory, bind. now rewrite Hget.
  - intros u Hid Hu.
    destruct (updateCategory_merge db id u Hid Hu) as (db' & old & _ & Hrun & Hget & _).
    do 2 eexists. unfold put_category, try_parse, try_catch. rewrite Hrun.
    split; [reflexivity | exact Hget].
Qed.

Lemma X16_put_category_status_witness :
  put_category "u1" (Parsed empty_partial) demo_db =
    (demo_db, status_json 500 (MessageJson "Failed to update category"))
  /\ put_category "u0" (Parsed empty_partial) demo_db =
       (demo_db, status_json 404 (MessageJson "Category not found")).
Proof.
  split.
  - apply (proj1 (proj2 (proj2 (X16_put_category_status demo_db "u1")))). reflexivity.
  - apply (proj1 (proj2 (X16_put_category_status demo_db "u0"))). reflexivity.
Defined.

(** X17. POST /api/notes answers 400 to a body that fails validation, 201
    with the note to a valid body whose category exists, and 500, not 400 or
    404, to a valid body whose categoryId names no category; only the 201
    writes. *)
Theorem X17_post_notes_status (db : Db) (id : string) (now : Z) :
  has_note id db = false ->
  (forall errors,
      post_notes (ZodError errors) id now db =
        (db, status_json 400 (InvalidJson "Invalid note data" errors)))
  /\ (forall ins, has_category (in_categoryId ins) db = false ->
        post_notes (Parsed ins) id now db =
          (db, status_json 500 (MessageJson "Failed to create note")))
  /\ (forall ins, has_category (in_categoryId ins) db = true ->
        exists db' created,
          post_notes (Parsed ins) id now db = (db', status_json 201 (NoteJson created))
          /\ note_id created = id
          /\ has_note id db' = true
          /\ length (notes db') = S (length (notes db))).
Proof.
  intros Hid. split; [reflexivity|]. split.
  - intros ins Hcat. unfold post_notes, try_parse, try_catch.
    unfold createNote, bind, insert_note. cbn [nrow_id nrow_category_id note_id note_categoryId].
    now rewrite Hid, Hcat.
  - intros ins Hcat. do 2 eexists. unfold post_notes, try_parse, try_catch.
    rewrite (createNote_ok ins id now db Hid Hcat).
    split; [reflexivity|]. split; [reflexivity|]. split.
    + apply has_note_In. eexists. split; [cbn [notes]; apply in_app_iff; right; now left|].
      reflexivity.
    + cbn [notes]. rewrite length_app. cbn [length]. lia.
Qed.

Lemma X17_post_notes_status_witness :
  post_notes (Parsed {| in_title := "T"; in_content := None; in_categoryId := "gone";
                        in_tags := None |}) "n2" 7000 demo_db
  = (demo_db, status_json 500 (MessageJson "Failed to create note")).
Proof.
  apply (proj1 (proj2 (X17_post_notes_status demo_db "n2" 7000 eq_refl))). reflexivity.
Defined.

(** X18. On a store whose tags cells decode, PUT /api/notes/:id answers 400
    to a body that fails validation, 404 to an id that is not stored, 200
    with the merged note, its updatedAt the current instant, to a valid body
    that names no category or an existing one, and 500 with nothing written
    to a valid body that names a category that does not exist. *)
Theorem X18_put_note_status (db : Db) (id : string) (now : Z) :
  tags_ok db = true ->
  (forall errors,
      put_note id (ZodError errors) now db =
        (db, status_json 400 (InvalidJson "Invalid note data" errors)))
  /\ (forall u, has_note id db = false ->
        put_note id (Parsed u) now db =
          (db, status_json 404 (MessageJson "Note not found")))
  /\ (forall u, has_note id db = true ->
        (forall c, un_categoryId u = Some c -> has_category c db = true) ->
        exists db' existing,
          getNote id db = (db, Ok (Some existing))
          /\ put_note id (Parsed u) now db =
               (db', json (NoteJson (merge_note existing u now)))
          /\ getNote id db' = (db', Ok (Some (merge_note existing u (whole_seconds now)))))
  /\ (forall u c, has_note id db = true ->
        un_categoryId u = Some c -> has_category c db = false ->
        put_note id (Parsed u) now db =
          (db, status_json 500 (MessageJson "Failed to update note"))).
Proof.
  intros Htags. split; [reflexivity|]. split; [|split].
  - intros u Hid. unfold put_note, try_parse, try_catch. now rewrite updateNote_absent.
  - intros u Hid Hparent. destruct (getNote_decodable db id Htags Hid) as [existing Hget].
    eexists. exists existing. split; [exact Hget|].
    unfold put_note, try_parse, try_catch.
    rewrite (updateNote_run db id existing u now Hget Hparent).
    split; [reflexivity|]. exact (updateNote_stored db id existing u now Hget).
  - intros u c Hid Hc Hmissing. destruct (getNote_decodable db id Htags Hid) as [existing Hget].
    unfold put_note, try_parse, try_catch.
    now rewrite (updateNote_missing_category db id u now existing c Hget Hc Hmissing).
Qed.

Lemma X18_put_note_status_witness :
  put_note "n1" (Parsed {| un_title := None; un_content := None; un_categoryId := Some "gone";
                           un_tags := None |}) 9000 demo_db
  = (demo_db, status_json 500 (MessageJson "Failed to update note")).
Proof.
  destruct (X18_put_note_status demo_db "n1" 9000 eq_refl) as (_ & _ & _ & Hbad).
  now apply (Hbad _ "gone").
Defined.

(** * The client *)

Section trim_facts.

Lemma trimStart_head (s : string) :
  match trimStart s with
  | EmptyString => True
  | String c _ => is_whitespace c = false
  end.
Proof.
  induction s as [|c s IH]; [exact I|].
  cbn [trimStart]. destruct (is_whitespace c) eqn:Hc; [exact IH | exact Hc].
Qed.

Lemma trimEnd_cons (c : ascii) (s : string) :
  is_whitespace c = false -> trimEnd (String c s) = String c (trimEnd s).
Proof.
  intros Hc. cbn [trimEnd]. rewrite Hc. now destruct (trimEnd s).
Qed.

Lemma trimEnd_idem (s : string) : trimEnd (trimEnd s) = trimEnd s.
Proof.
  induction s as [|c s IH]; [reflexivity|].
  cbn [trimEnd]. destruct (trimEnd s) as [|d r] eqn:Hs.
  - destruct (is_whitespace c) eqn:Hc; [reflexivity|]. cbn [trimEnd]. now rewrite Hc.
  - change (trimEnd (String c (String d r))) with
      (match trimEnd (String d r) with
       | EmptyString => if is_whitespace c then EmptyString else String c EmptyString
       | rest => String c rest
       end).
    now rewrite IH.
Qed.

(** Trimming the end leaves a clean start clean. *)
Lemma trimStart_trimEnd (s : string) :
  match s with EmptyString => True | String c _ => is_whitespace c = false end ->
  trimStart (trimEnd s) = trimEnd s.
Proof.
  destruct s as [|c s]; [reflexivity|]. intros Hc.
  rewrite trimEnd_cons by exact Hc. cbn [trimStart]. now rewrite Hc.
Qed.

Lemma trim_idem (s : string) : trim (trim s) = trim s.
Proof.
  unfold trim. rewrite trimStart_trimEnd by apply trimStart_head. apply trimEnd_idem.
Qed.

Lemma is_empty_true (s : string) : is_empty s = true <-> s = "".
Proof. destruct s; split; (reflexivity || discriminate). Qed.

Lemma is_empty_false (s : string) : is_empty s = false <-> s <> "".
Proof. destruct s; split; intros H; (reflexivity || discriminate || congruence). Qed.

End trim_facts.

(** X19. The category dialog submits exactly the names that are not blank.
    A name of white space only raises the error toast and sends nothing.
    Every other name is sent, trimmed and together with the colour: as a PUT
    to the category being edited, as a POST when none is. A PUT it sends
    therefore always carries both fields, so updateCategory never throws on
    it: it answers the merged record or not-found. *)
Theorem X19_handleSubmit (name color : string) (categoryId : option string) :
  (trim name = "" ->
   handleSubmit name color categoryId = Toast "Error" "Category name is required")
  /\ (trim name <> "" ->
      forall id, categoryId = Some id -> id <> "" ->
        handleSubmit name color categoryId
          = PutCategory id {| pc_name := Some (trim name); pc_color := Some color |})
  /\ (trim name <> "" ->
      categoryId = None \/ categoryId = Some "" ->
      handleSubmit name color categoryId
        = PostCategory {| ic_name := trim name; ic_color := Some color |})
  /\ (forall data, handleSubmit name color categoryId = PostCategory data ->
        truthy categoryId = None
        /\ ic_name data = trim name /\ ic_name data <> "" /\ trim (ic_name data) = ic_name data
        /\ ic_color data = Some color)
  /\ (forall id data, handleSubmit name color categoryId = PutCategory id data ->
        categoryId = Some id /\ id <> ""
        /\ pc_name data = Some (trim name) /\ trim name <> ""
        /\ pc_color data = Some color
        /\ forall db,
             (has_category id db = false /\ updateCategory id data db = (db, Ok None))
             \/ (has_category id db = true
                 /\ exists db' c, updateCategory id data db = (db', Ok (Some c))
                                  /\ cat_name c = trim name /\ cat_color c = color)).
Proof.
  unfold handleSubmit. split; [|split; [|split; [|split]]].
  - intros ->. reflexivity.
  - intros Hname id -> Hid. apply is_empty_false in Hname. rewrite Hname.
    destruct id as [|a id]; [contradiction|]. reflexivity.
  - intros Hname Hcat. apply is_empty_false in Hname. rewrite Hname.
    destruct Hcat as [->| ->]; reflexivity.
  - intros data. destruct (is_empty (trim name)) eqn:Hname; [discriminate|].
    apply is_empty_false in Hname.
    destruct (truthy categoryId) as [id|] eqn:Hid; [discriminate|].
    intros [= <-]. cbn [ic_name ic_color]. repeat split; auto. apply trim_idem.
  - intros id data. destruct (is_empty (trim name)) eqn:Hname; [discriminate|].
    apply is_empty_false in Hname.
    destruct (truthy categoryId) as [id'|] eqn:Hid; [|discriminate].
    intros [= <- <-]. cbn [pc_name pc_color].
    assert (Hcat : categoryId = Some id' /\ id' <> "").
    { destruct categoryId as [[|a c]|]; cbn [truthy] in Hid; try discriminate.
      injection Hid as <-. split; [reflexivity | discriminate]. }
    destruct Hcat as [Hcat Hne]. repeat split; auto.
    intros db. destruct (has_category id' db) eqn:Hhas.
    + right. split; [reflexivity|].
      destruct (updateCategory_merge db id' {| pc_name := Some (trim name); pc_color := Some color |}
                  Hhas eq_refl) as (db' & old & _ & Hrun & _).
      eexists. eexists. split; [exact Hrun|]. split; reflexivity.
    + left. split; [reflexivity|]. now apply updateCategory_absent.
Qed.

Lemma X19_handleSubmit_witness :
  handleSubmit "   " "#10b981" (Some "u1") = Toast "Error" "Category name is required"
  /\ handleSubmit " Work " "#10b981" (Some "u1")
       = PutCategory "u1" {| pc_name := Some "Work"; pc_color := Some "#10b981" |}
  /\ handleSubmit " Work " "#10b981" None
       = PostCategory {| ic_name := "Work"; ic_color := Some "#10b981" |}
  /\ exists db' c,
       updateCategory "u1" {| pc_name := Some "Work"; pc_color := Some "#10b981" |} demo_db
         = (db', Ok (Some c))
       /\ cat_name c = "Work".
Proof.
  destruct (X19_handleSubmit "   " "#10b981" (Some "u1")) as [Hblank _].
  split; [apply Hblank; reflexivity|].
  destruct (X19_handleSubmit " Work " "#10b981" (Some "u1")) as (_ & Hsent & _ & _ & Hput).
  assert (Hname : trim " Work " <> "") by discriminate.
  assert (Hid : "u1" <> "") by discriminate.
  split; [exact (Hsent Hname "u1" eq_refl Hid)|].
  destruct (X19_handleSubmit " Work " "#10b981" None) as (_ & _ & Hpost & _).
  split; [exact (Hpost Hname (or_introl eq_refl))|].
  destruct (Hput "u1" _ eq_refl) as (_ & _ & _ & _ & _ & Hrun).
  destruct (Hrun demo_db) as [[Habsent _]|[_ (db' & c & Hupd & Hname' & _)]].
  - discriminate Habsent.
  - exists db', c. split; [exact Hupd | exact Hname'].
Defined.

(** X20. Auto-save sends nothing while title and content are both blank. A
    PUT it sends goes to the selected note, carries title, content and tags
    and never a categoryId, so updateNote cannot hit the foreign key with
    it: on a readable note it returns the merged record, in the same
    category. A POST it sends never has an empty title (a blank title
    becomes Untitled) and names the selected, non-empty category. *)
Theorem X20_autoSave (title content : string) (tags : list string)
        (noteId categoryId : option string) (currentNote : option Note) :
  (trim title = "" -> trim content = "" ->
   autoSave title content tags noteId categoryId currentNote = NoRequest)
  /\ (forall id u,
        autoSave title content tags noteId categoryId currentNote = PutNote id u ->
        noteId = Some id /\ currentNote <> None
        /\ u = {| un_title := Some (trim title); un_content := Some content;
                  un_categoryId := None; un_tags := Some tags |}
        /\ forall db now existing,
             getNote id db = (db, Ok (Some existing)) ->
             exists db' updated,
               updateNote id u now db = (db', Ok (Some updated))
               /\ note_categoryId updated = note_categoryId existing
               /\ note_content updated = content
               /\ note_tags updated = tags)
  /\ (forall data,
        autoSave title content tags noteId categoryId currentNote = PostNote data ->
        in_title data <> ""
        /\ (trim title <> "" -> in_title data = trim title)
        /\ (trim title = "" -> in_title data = "Untitled")
        /\ categoryId = Some (in_categoryId data) /\ in_categoryId data <> ""
        /\ in_content data = Some content /\ in_tags data = Some tags).
Proof.
  unfold autoSave. split; [|split].
  - intros -> ->. reflexivity.
  - intros id u. destruct (is_empty (trim title) && is_empty (trim content)); [discriminate|].
    destruct (truthy noteId) as [id'|] eqn:Hid.
    + destruct currentNote as [note|].
      * intros [= <- <-].
        assert (Hnote : noteId = Some id').
        { destruct noteId as [[|a c]|]; cbn [truthy] in Hid; try discriminate. exact Hid. }
        split; [exact Hnote|]. split; [discriminate|]. split; [reflexivity|].
        intros db now existing Hget. do 2 eexists. split.
        { apply (updateNote_run db id' existing _ now Hget). discriminate. }
        repeat split.
      * destruct (truthy categoryId); discriminate.
    + destruct (truthy categoryId); discriminate.
  - intros data. destruct (is_empty (trim title) && is_empty (trim content)); [discriminate|].
    assert (Hpost : forall c, truthy categoryId = Some c ->
              PostNote {| in_title := or_else (Some (trim title)) "Untitled";
                          in_content := Some content; in_categoryId := c;
                          in_tags := Some tags |} = PostNote data ->
              in_title data <> ""
              /\ (trim title <> "" -> in_title data = trim title)
              /\ (trim title = "" -> in_title data = "Untitled")
              /\ categoryId = Some (in_categoryId data) /\ in_categoryId data <> ""
              /\ in_content data = Some content /\ in_tags data = Some tags).
    { intros c Hc [= <-]. cbn [in_title in_categoryId in_content in_tags].
      assert (Hcat : categoryId = Some c /\ c <> "").
      { destruct categoryId as [[|a c']|]; cbn [truthy] in Hc; try discriminate.
        injection Hc as <-. split; [reflexivity | discriminate]. }
      destruct Hcat as [Hcat Hne]. unfold or_else.
      destruct (trim title) as [|a t] eqn:Ht; cbn [truthy default from_option Datatypes.id].
      - repeat split; auto; try discriminate. intros H. now destruct H.
      - repeat split; auto; discriminate. }
    destruct (truthy noteId) as [id'|]; [destruct currentNote as [note|]|].
    + discriminate.
    + destruct (truthy categoryId) as [c|] eqn:Hc; [now apply Hpost | discriminate].
    + destruct (truthy categoryId) as [c|] eqn:Hc; [now apply Hpost | discriminate].
Qed.

Lemma X20_autoSave_witness :
  autoSave "  " " " ["a"] (Some "n1") (Some "u1") None = NoRequest
  /\ exists data, autoSave "  " "text" ["a"] None (Some "u1") None = PostNote data
                  /\ in_title data = "Untitled".
Proof.
  split.
  - apply (proj1 (X20_autoSave "  " " " ["a"] (Some "n1") (Some "u1") None)); reflexivity.
  - eexists. split; [reflexivity|].
    destruct (X20_autoSave "  " "text" ["a"] None (Some "u1") None) as (_ & _ & Hpost).
    destruct (Hpost _ eq_refl) as (_ & _ & Htitle & _). now apply Htitle.
Defined.

(** X21. The tag editor keeps its list tidy: adding through handleAddTag
    and removing through handleRemoveTag never produce a duplicate, an empty
    tag or a tag with white space around it. A tag is added, trimmed and at
    the end, exactly when it is not blank and not yet in the list, and the
    input is cleared only then; removing a tag leaves no occurrence of it
    and keeps all others. *)
Theorem X21_tag_editing (tags : list string) (newTag x : string) :
  tidy_tags tags ->
  tidy_tags (fst (handleAddTag tags newTag))
  /\ tidy_tags (handleRemoveTag tags x)
  /\ (trim newTag <> "" -> In (trim newTag) (fst (handleAddTag tags newTag)))
  /\ (trim newTag <> "" -> ~ In (trim newTag) tags ->
      handleAddTag tags newTag = ((tags ++ [trim newTag])%list, ""))
  /\ (trim newTag = "" \/ In (trim newTag) tags ->
      handleAddTag tags newTag = (tags, newTag))
  /\ (forall tag, In tag (handleRemoveTag tags x) <-> In tag tags /\ tag <> x).
Proof.
  intros [Hnd Htidy].
  assert (Hincl : existsb (String.eqb (trim newTag)) tags = true <-> In (trim newTag) tags).
  { rewrite existsb_exists. split.
    - intros (t & Hin & Heq). apply String.eqb_eq in Heq. now subst.
    - intros Hin. exists (trim newTag). split; [exact Hin | apply String.eqb_refl]. }
  assert (Hremove : forall tag, In tag (handleRemoveTag tags x) <-> In tag tags /\ tag <> x).
  { intros tag. unfold handleRemoveTag.
    now rewrite filter_In, negb_true_iff, String.eqb_neq. }
  split; [|split; [|split; [|split; [|split]]]].
  - unfold handleAddTag.
    destruct (is_empty (trim newTag)) eqn:Hblank; cbn [negb andb fst]; [now split|].
    destruct (existsb (String.eqb (trim newTag)) tags) eqn:Hin; cbn [negb fst]; [now split|].
    apply is_empty_false in Hblank. split.
    + apply NoDup_app. split; [exact Hnd|]. split; [|apply NoDup_singleton].
      intros t Ht Ht'. apply list_elem_of_In in Ht, Ht'. destruct Ht' as [<-|[]].
      apply Hincl in Ht. discriminate Ht.
    + intros tag Htag. apply in_app_iff in Htag as [Htag|[<-|[]]]; [now apply Htidy|].
      split; [exact Hblank | apply trim_idem].
  - split.
    + unfold handleRemoveTag. clear -Hnd. induction tags as [|t l IH]; [constructor|].
      apply NoDup_cons in Hnd as [Ht Hnd]. cbn [List.filter].
      destruct (negb (String.eqb t x)); [|auto].
      apply NoDup_cons. split; [|auto]. intros Hin. apply Ht.
      apply list_elem_of_In in Hin. apply filter_In in Hin as [Hin _].
      now apply list_elem_of_In.
    + intros tag Htag. apply Hremove in Htag as [Htag _]. now apply Htidy.
  - intros Hblank. unfold handleAddTag. apply is_empty_false in Hblank. rewrite Hblank.
    destruct (existsb (String.eqb (trim newTag)) tags) eqn:Hin; cbn [negb andb fst].
    + now apply Hincl.
    + apply in_app_iff. right. now left.
  - intros Hblank Hnew. unfold handleAddTag. apply is_empty_false in Hblank. rewrite Hblank.
    destruct (existsb (String.eqb (trim newTag)) tags) eqn:Hin; [|reflexivity].
    exfalso. apply Hnew, Hincl. reflexivity.
  - intros [Hblank|Hin]; unfold handleAddTag.
    + rewrite Hblank. reflexivity.
    + apply Hincl in Hin. rewrite Hin. now rewrite andb_false_r.
  - exact Hremove.
Qed.

Lemma X21_tag_editing_witness :
  handleAddTag ["a"; "b"] " c " = (["a"; "b"; "c"], "")
  /\ handleAddTag ["a"; "b"] " a " = (["a"; "b"], " a ").
Proof.
  assert (Htidy : tidy_tags ["a"; "b"]).
  { split; [compute_done|]. intros tag [<-|[<-|[]]]; split; (discriminate || reflexivity). }
  destruct (X21_tag_editing ["a"; "b"] " c " "a" Htidy) as (_ & _ & _ & Hadd & _).
  destruct (X21_tag_editing ["a"; "b"] " a " "a" Htidy) as (_ & _ & _ & _ & Hkeep & _).
  split.
  - apply Hadd; [discriminate|]. intros [H|[H|[]]]; discriminate.
  - apply Hkeep. right. now left.
Defined.

Section preview_facts.

Lemma contains_gt_strip (inside : bool) (s : string) :
  contains_gt s = false -> contains_gt (strip_from inside s) = false.
Proof.
  revert inside. induction s as [|c s IH]; intros inside; [reflexivity|].
  cbn [contains_gt]. intros H. apply orb_false_iff in H as [Hc Hs].
  cbn [strip_from]. rewrite Hs, andb_false_r, Hc. cbn [negb].
  destruct inside; [now apply IH|].
  cbn [contains_gt]. rewrite Hc. now apply IH.
Qed.

Lemma has_tag_strip (inside : bool) (s : string) :
  has_tag (strip_from inside s) = false.
Proof.
  revert inside. induction s as [|c s IH]; intros inside; [reflexivity|].
  cbn [strip_from]. destruct inside; [apply IH|].
  destruct (Ascii.eqb c "<") eqn:Hc; cbn [andb].
  - destruct (contains_gt s) eqn:Hs; [apply IH|].
    cbn [has_tag]. rewrite IH, contains_gt_strip by exact Hs. now rewrite andb_false_r.
  - cbn [has_tag]. rewrite Hc, IH. reflexivity.
Qed.

Lemma strip_no_tag (s : string) : has_tag s = false -> strip_from false s = s.
Proof.
  induction s as [|c s IH]; [reflexivity|].
  cbn [has_tag strip_from]. intros H. apply orb_false_iff in H as [Hc Hs].
  rewrite Hc. now rewrite IH.
Qed.

Lemma length_strip (inside : bool) (s : string) :
  (String.length (strip_from inside s) <= String.length s)%nat.
Proof.
  revert inside. induction s as [|c s IH]; intros inside; [reflexivity|].
  cbn [strip_from]. destruct inside.
  - specialize (IH (negb (Ascii.eqb c ">"))). cbn [String.length]. lia.
  - destruct (Ascii.eqb c "<" && contains_gt s).
    + specialize (IH true). cbn [String.length]. lia.
    + specialize (IH false). cbn [String.length]. lia.
Qed.

Lemma length_substring_0 (n : nat) (s : string) :
  String.length (String.substring 0 n s) = Nat.min n (String.length s).
Proof.
  revert s. induction n as [|n IH]; intros s.
  - now destruct s.
  - destruct s as [|c s]; [reflexivity|]. cbn [String.substring String.length].
    now rewrite IH.
Qed.

End preview_facts.

(** X22. The preview of a note carries no markup and is short: what
    getPreviewText returns is at most 103 characters long; the text it cuts
    from contains no less-than sign with a greater-than sign after it (so
    stripping it again changes nothing), is never longer than the content,
    and is the content itself when that holds no such pair; and a text of at
    most 100 characters is shown whole. *)
Theorem X22_getPreviewText (content : string) :
  (String.length (getPreviewText content) <= 103)%nat
  /\ has_tag (strip_tags content) = false
  /\ strip_tags (strip_tags content) = strip_tags content
  /\ (String.length (strip_tags content) <= String.length content)%nat
  /\ (has_tag content = false -> strip_tags content = content)
  /\ ((String.length (strip_tags content) <= 100)%nat ->
      getPreviewText content = strip_tags content)
  /\ ((100 < String.length (strip_tags content))%nat ->
      getPreviewText content = String.substring 0 100 (strip_tags content) +:+ "..."
      /\ String.length (getPreviewText content) = 103%nat).
Proof.
  assert (Hlong : (100 < String.length (strip_tags content))%nat ->
            getPreviewText content = String.substring 0 100 (strip_tags content) +:+ "..."
            /\ String.length (getPreviewText content) = 103%nat).
  { intros H. unfold getPreviewText. apply Nat.ltb_lt in H as Hb. rewrite Hb.
    split; [reflexivity|]. rewrite length_append, length_substring_0.
    cbn [String.length]. lia. }
  assert (Hshort : (String.length (strip_tags content) <= 100)%nat ->
            getPreviewText content = strip_tags content).
  { intros H. unfold getPreviewText. apply Nat.ltb_ge in H. now rewrite H. }
  split; [|split; [|split; [|split; [|split; [|split]]]]].
  - destruct (Nat.le_gt_cases (String.length (strip_tags content)) 100) as [H|H].
    + rewrite Hshort by exact H. lia.
    + destruct (Hlong H) as [_ ->]. lia.
  - apply has_tag_strip.
  - apply strip_no_tag, has_tag_strip.
  - apply length_strip.
  - apply strip_no_tag.
  - exact Hshort.
  - exact Hlong.
Qed.

Lemma X22_getPreviewText_witness :
  getPreviewText "<p>Hello <b>world</b></p> 1 < 2" = "Hello world 1 < 2".
Proof.
  destruct (X22_getPreviewText "<p>Hello <b>world</b></p> 1 < 2") as (_ & _ & _ & _ & _ & H & _).
  rewrite H; [reflexivity|]. vm_compute. lia.
Defined.

Section url_facts.

Lemma count_char_append (x : ascii) (a b : string) :
  count_char x (a +:+ b) = (count_char x a + count_char x b)%nat.
Proof.
  induction a as [|c a IH]; [reflexivity|].
  cbn [String.append count_char]. rewrite IH. lia.
Qed.

(** The encoding of a character holds no separator of a URL's query. *)
Lemma urlencode_char_clean (c : ascii) :
  count_char "=" (urlencode_char c) = 0%nat
  /\ count_char "&" (urlencode_char c) = 0%nat
  /\ count_char "?" (urlencode_char c) = 0%nat
  /\ count_char "#" (urlencode_char c) = 0%nat
  /\ count_char " " (urlencode_char c) = 0%nat.
Proof. destruct c as [[] [] [] [] [] [] [] []]; repeat split; reflexivity. Qed.

Lemma urlencode_clean (s : string) :
  count_char "=" (urlencode s) = 0%nat
  /\ count_char "&" (urlencode s) = 0%nat
  /\ count_char "?" (urlencode s) = 0%nat
  /\ count_char "#" (urlencode s) = 0%nat
  /\ count_char " " (urlencode s) = 0%nat.
Proof.
  induction s as [|c s (H1 & H2 & H3 & H4 & H5)]; [repeat split; reflexivity|].
  cbn [urlencode]. rewrite !count_char_append, H1, H2, H3, H4, H5.
  destruct (urlencode_char_clean c) as (-> & -> & -> & -> & ->). repeat split; reflexivity.
Qed.

Lemma urldecode_char (c : ascii) (t : string) :
  urldecode (urlencode_char c +:+ t) = option_map (String c) (urldecode t).
Proof. destruct c as [[] [] [] [] [] [] [] []]; reflexivity. Qed.

Lemma urldecode_urlencode (s : string) : urldecode (urlencode s) = Some s.
Proof.
  induction s as [|c s IH]; [reflexivity|].
  cbn [urlencode]. now rewrite urldecode_char, IH.
Qed.

Lemma urlencode_inj (a b : string) : urlencode a = urlencode b -> a = b.
Proof.
  intros H. apply (f_equal urldecode) in H. rewrite !urldecode_urlencode in H.
  now injection H.
Qed.

Lemma app_cancel_l (p a b : string) : p +:+ a = p +:+ b -> a = b.
Proof. induction p as [|c p IH]; cbn; [auto | intros [= H]; auto]. Qed.

(** Two texts without ampersand, each followed by an ampersand and a rest. *)
Lemma split_at_ampersand (x1 x2 r1 r2 : string) :
  count_char "&" x1 = 0%nat -> count_char "&" x2 = 0%nat ->
  x1 +:+ String "&" r1 = x2 +:+ String "&" r2 -> x1 = x2 /\ r1 = r2.
Proof.
  revert x2. induction x1 as [|c x1 IH]; intros [|d x2]; cbn [String.append count_char].
  - intros _ _ [= ->]. auto.
  - intros _ Hd [= <- _]. discriminate Hd.
  - intros Hc _ [= -> _]. discriminate Hc.
  - intros Hc Hd [= -> H].
    destruct (IH x2) as [-> ->]; auto.
    + destruct (Ascii.eqb d "&"); [discriminate | exact Hc].
    + destruct (Ascii.eqb d "&"); [discriminate | exact Hd].
Qed.

Lemma query_suffix_inj (q1 q2 : string) :
  (if is_empty q1 then "" else "?" +:+ q1) = (if is_empty q2 then "" else "?" +:+ q2) ->
  q1 = q2.
Proof.
  destruct q1, q2; cbn [is_empty String.append]; intros H;
    (reflexivity || discriminate || (injection H as -> ->; reflexivity)).
Qed.

End url_facts.

(** X23. The notes query is well formed whatever is typed into the search
    box: the URL is /api/notes alone exactly when neither a categoryId nor a
    search is set, and otherwise has one question mark, one equals sign per
    parameter, an ampersand only between the two parameters, and no blank
    and no hash sign. *)
Theorem X23_useNotes_url_shape (categoryId search : option string) :
  (useNotes_url categoryId search = "/api/notes" <->
   truthy categoryId = None /\ truthy search = None)
  /\ count_char "=" (useNotes_url categoryId search)
     = length (useNotes_params categoryId search)
  /\ count_char "&" (useNotes_url categoryId search)
     = pred (length (useNotes_params categoryId search))
  /\ count_char "?" (useNotes_url categoryId search)
     = (if (length (useNotes_params categoryId search) =? 0)%nat then 0 else 1)%nat
  /\ count_char "#" (useNotes_url categoryId search) = 0%nat
  /\ count_char " " (useNotes_url categoryId search) = 0%nat.
Proof.
  assert (Hcounts :
    count_char "=" (useNotes_url categoryId search)
      = length (useNotes_params categoryId search)
    /\ count_char "&" (useNotes_url categoryId search)
       = pred (length (useNotes_params categoryId search))
    /\ count_char "?" (useNotes_url categoryId search)
       = (if (length (useNotes_params categoryId search) =? 0)%nat then 0 else 1)%nat
    /\ count_char "#" (useNotes_url categoryId search) = 0%nat
    /\ count_char " " (useNotes_url categoryId search) = 0%nat).
  { unfold useNotes_url, useNotes_params.
    destruct (truthy categoryId) as [c|], (truthy search) as [s|];
      cbn [app URLSearchParams_toString length pred Nat.eqb];
      try change (urlencode "categoryId") with "categoryId";
      try change (urlencode "search") with "search";
      try destruct (urlencode_clean c) as (C1 & C2 & C3 & C4 & C5);
      try destruct (urlencode_clean s) as (S1 & S2 & S3 & S4 & S5);
      cbn [String.append is_empty];
      repeat (cbn [count_char]; rewrite ?count_char_append);
      rewrite ?C1, ?C2, ?C3, ?C4, ?C5, ?S1, ?S2, ?S3, ?S4, ?S5;
      repeat split; reflexivity. }
  split; [|exact Hcounts].
  destruct Hcounts as (_ & _ & Hq & _). split.
  - intros H. rewrite H in Hq. unfold useNotes_params in Hq.
    destruct (truthy categoryId), (truthy search); cbn in Hq; try discriminate Hq. auto.
  - intros [Hc Hs]. unfold useNotes_url, useNotes_params. rewrite Hc, Hs. reflexivity.
Qed.

(** X24. The notes query loses nothing: two requests with the same URL have
    the same category filter and the same search text, an unset or empty one
    counting as none. *)
Theorem X24_useNotes_url_injective (c1 s1 c2 s2 : option string) :
  useNotes_url c1 s1 = useNotes_url c2 s2 ->
  truthy c1 = truthy c2 /\ truthy s1 = truthy s2.
Proof.
  unfold useNotes_url, useNotes_params. intros H.
  apply app_cancel_l, query_suffix_inj in H.
  destruct (truthy c1) as [a1|], (truthy s1) as [b1|],
           (truthy c2) as [a2|], (truthy s2) as [b2|];
    cbn [app URLSearchParams_toString] in H;
    try change (urlencode "categoryId") with "categoryId" in H;
    try change (urlencode "search") with "search" in H;
    cbn [String.append] in H;
    try discriminate H;
    try (injection H as H);
    try (split; reflexivity).
  - (* both parameters on both sides *)
    apply split_at_ampersand in H as [Ha Hb]; try apply urlencode_clean.
    injection Hb as Hb. apply urlencode_inj in Ha, Hb. now subst.
  - (* two parameters against the categoryId alone *)
    apply (f_equal (count_char "&")) in H. rewrite count_char_append in H.
    cbn [count_char] in H.
    rewrite (proj1 (proj2 (urlencode_clean a1))), (proj1 (proj2 (urlencode_clean a2))) in H.
    cbn in H. discriminate H.
  - apply (f_equal (count_char "&")) in H. rewrite count_char_append in H.
    cbn [count_char] in H.
    rewrite (proj1 (proj2 (urlencode_clean a1))), (proj1 (proj2 (urlencode_clean a2))) in H.
    cbn in H. discriminate H.
  - apply urlencode_inj in H. now subst.
  - apply urlencode_inj in H. now subst.
Qed.

Lemma X24_useNotes_url_injective_witness :
  truthy (@None string) = truthy None /\ truthy (Some "") = truthy None.
Proof.
  apply (X24_useNotes_url_injective None (Some "") None None). reflexivity.
Defined.

(** * Searching with plain text *)

Section plain_search.












End plain_search.



Section tag_search.



















End tag_search.



(** * Column codecs *)

(** X27. The tags reader takes both shapes a tags cell can have: the text
    the repository writes, stringified twice, and a plain JSON array such as
    the column default, stringified once, decode to the same list. So
    getNote returns the tags of a row of either shape, and getNotes lists a
    store whose rows are of the two shapes, each note with its tags. *)
Theorem X27_tags_reader_both_shapes (tags : list string) :
  tags_fromDriver (tags_toDriver tags) = Ok tags
  /\ tags_fromDriver (JSON.stringify (JSON.Arr tags)) = Ok tags
  /\ tags_fromDriver "[]" = Ok []
  /\ (forall db row,
        first_where (fun n => String.eqb (nrow_id n) (nrow_id row)) (notes db) = Some row ->
        nrow_tags row = tags_toDriver tags
        \/ nrow_tags row = JSON.stringify (JSON.Arr tags) ->
        exists note, getNote (nrow_id row) db = (db, Ok (Some note)) /\ note_tags note = tags)
  /\ (forall db,
        (forall r, In r (notes db) ->
           exists ts, nrow_tags r = tags_toDriver ts
                      \/ nrow_tags r = JSON.stringify (JSON.Arr ts)) ->
        exists result,
          getNotes None None db = (db, Ok result)
          /\ length result = length (notes db)
          /\ forall row,
               In row (notes db) ->
               nrow_tags row = tags_toDriver tags
               \/ nrow_tags row = JSON.stringify (JSON.Arr tags) ->
               exists note, In note result
                            /\ note_id note = nrow_id row /\ note_tags note = tags).
Proof.
  split; [apply tags_roundtrip|].
  assert (Honce : forall ts, tags_fromDriver (JSON.stringify (JSON.Arr ts)) = Ok ts).
  { intros ts. unfold tags_fromDriver. now rewrite JSONFacts.parse_stringify. }
  assert (Hshape : forall ts cell,
             cell = tags_toDriver ts \/ cell = JSON.stringify (JSON.Arr ts) ->
             tags_fromDriver cell = Ok ts).
  { intros ts cell [-> | ->]; [apply tags_roundtrip | apply Honce]. }
  split; [apply Honce|]. split; [reflexivity|]. split.
  - intros db row Hrow Hcell. eexists. split.
    + unfold getNote, bind, read. rewrite Hrow. unfold lift, ret, note_fromDriver.
      rewrite (Hshape tags _ Hcell). reflexivity.
    + reflexivity.
  - intros db Hcells.
    assert (Htags : tags_ok db = true).
    { apply tags_ok_forall. intros r Hr. destruct (Hcells r Hr) as [ts Hts].
      exists ts. now apply Hshape. }
    destruct (getNotes_ok None None db Htags eq_refl) as (ns & Hns & Hrun).
    exists (rev ns). split; [exact Hrun|]. split.
    + rewrite length_rev, (notes_fromDriver_length _ _ Hns), select_notes_length.
      now rewrite filter_true.
    + intros row Hrow Hcell. eexists. split; [|split].
      * rewrite <- in_rev. apply (notes_fromDriver_In _ _ Hns). exists row.
        split; [apply select_notes_In; split; [exact Hrow | reflexivity]|].
        unfold note_fromDriver. rewrite (Hshape tags _ Hcell). reflexivity.
      * reflexivity.
      * reflexivity.
Qed.

Lemma X27_tags_reader_both_shapes_witness :
  tags_fromDriver (JSON.stringify (JSON.Arr ["x"; "y"])) = Ok ["x"; "y"]
  /\ tags_fromDriver (tags_toDriver ["x"; "y"]) = Ok ["x"; "y"].
Proof.
  destruct (X27_tags_reader_both_shapes ["x"; "y"]) as (Htwice & Honce & _).
  split; [exact Honce | exact Htwice].
Defined.

(** X28. A timestamp loses less than a second in the table and never gains:
    the createdAt that getNote reads back for a note created at a given
    instant is a whole number of seconds, not after that instant and less
    than 1000 ms before it, and equals the updatedAt it reads back. *)
Theorem X28_stored_time (db : Db) (ins : InsertNote) (id : string) (now : Z) :
  has_note id db = false ->
  has_category (in_categoryId ins) db = true ->
  exists db' stored,
    fst (createNote ins id now db) = db'
    /\ getNote id db' = (db', Ok (Some stored))
    /\ note_createdAt stored <= now < note_createdAt stored + 1000
    /\ note_createdAt stored mod 1000 = 0
    /\ note_updatedAt stored = note_createdAt stored
    /\ whole_seconds (note_createdAt stored) = note_createdAt stored.
Proof.
  intros Hid Hcat. rewrite (createNote_ok ins id now db Hid Hcat). cbn [fst].
  do 2 eexists. split; [reflexivity|]. split.
  - unfold getNote, bind, read. cbn [notes].
    rewrite first_where_appended; [|exact Hid|apply String.eqb_refl].
    unfold lift, note_fromDriver. cbn [nrow_tags]. rewrite tags_roundtrip. reflexivity.
  - cbn [note_createdAt note_updatedAt nrow_created_at nrow_updated_at].
    unfold whole_seconds, timestamp_fromDriver, timestamp_toDriver.
    pose proof (Z.div_mod now 1000 ltac:(lia)) as Hdm.
    pose proof (Z.mod_pos_bound now 1000 ltac:(lia)) as Hbound.
    split; [lia|]. split; [apply Z.mod_mul; lia|]. split; [reflexivity|].
    rewrite Z.div_mul by lia. reflexivity.
Qed.

Lemma X28_stored_time_witness :
  exists db' stored,
    getNote "n2" db' = (db', Ok (Some stored)) /\ note_createdAt stored = 7000.
Proof.
  destruct (X28_stored_time demo_db demo_note "n2" 7999 eq_refl eq_refl)
    as (db' & stored & _ & Hget & [Hle Hlt] & Hmod & _).
  exists db', stored. split; [exact Hget|].
  apply Z.mod_divide in Hmod; [|lia]. destruct Hmod as [k Hk]. lia.
Defined.

(** X29. POST /api/categories answers 400 to a body that fails validation
    and 201 to every valid one: with an unused id the insert cannot fail,
    the new category is stored after the others with the default colour
    when the body had none, and it starts with no notes. *)
Theorem X29_post_categories (db : Db) (id : string) (now : Z) :
  has_category id db = false ->
  (forall errors,
      post_categories (ZodError errors) id now db =
        (db, status_json 400 (InvalidJson "Invalid category data" errors)))
  /\ (forall ins,
        exists db' created,
          post_categories (Parsed ins) id now db = (db', status_json 201 (CategoryJson created))
          /\ cat_id created = id
          /\ cat_color created = or_else (ic_color ins) "#3b82f6"
          /\ has_category id db' = true
          /\ length (categories db') = S (length (categories db))
          /\ (fk_ok db = true -> notes_in id db' = 0%nat)).
Proof.
  intros Hid. split; [reflexivity|]. intros ins. do 2 eexists. split.
  { unfold post_categories, try_parse, try_catch, createCategory, bind, insert_category, ret.
    cbn [category_toDriver crow_id cat_id]. rewrite Hid. reflexivity. }
  cbn [cat_id cat_color categories notes].
  split; [reflexivity|]. split; [reflexivity|]. split; [|split].
  - unfold has_category. cbn [categories]. rewrite existsb_app. cbn [existsb crow_id].
    rewrite String.eqb_refl. now rewrite orb_true_r.
  - rewrite length_app. cbn [length]. lia.
  - intros Hfk. unfold notes_in, referencing. cbn [notes].
    now rewrite (filter_miss _ _ (fk_ok_no_orphans id db Hfk Hid)).
Qed.

Lemma X29_post_categories_witness :
  exists db' created,
    post_categories (Parsed {| ic_name := "Recipes"; ic_color := None |}) "u9" 8000 demo_db
      = (db', status_json 201 (CategoryJson created))
    /\ cat_color created = "#3b82f6".
Proof.
  destruct (X29_post_categories demo_db "u9" 8000 eq_refl) as [_ Hok].
  destruct (Hok {| ic_name := "Recipes"; ic_color := None |})
    as (db' & created & Hrun & _ & Hcolor & _).
  exists db', created. split; [exact Hrun | exact Hcolor].
Defined.
